(** * upkeep: package-manager output normalisation and scoring

    A shallow embedding of the analysis core of the upkeep CLI
    (version comparator, package-manager detector, outdated and audit
    normalisers, quality and risk scorers) together with the properties
    its specification states about them.

    Conventions of the embedding.
    - A JavaScript string is a [string]; every character stands for one
      UTF-16 code unit below 256.
    - A JavaScript number that counts something is a [Z] (or an [N] when
      the code can only produce a natural number); arithmetic on such
      numbers is exact, as it is on doubles below 2^53.  Numbers that go
      through a division live in [Q], and every rounded double operation
      is applied through an explicit rounding operator.  The numbers of a
      version are the doubles that [Number.parseInt] reads: the nearest
      ones to the integers written ([JS.nearest_double]).
    - An object read out of a report is a list of its own properties;
      where the code indexes such an object with a name taken from the
      report, the members of [Object.prototype] answer for the names the
      object lacks ([Audit.member]).
    - A function that can raise is a function into [result]; [try]/[catch]
      is [try_catch]. *)

From Stdlib Require Import ZArith NArith QArith Qround Lqa Lia String Ascii List Bool.
From Stdlib Require Import DecimalString.
From stdpp Require Import gmap strings list.
Import ListNotations.
Open Scope string_scope.

(** ** Exceptions *)

Inductive result (A : Type) : Type :=
| Ok (a : A)
| Throw.
Arguments Ok {A} a.
Arguments Throw {A}.

#[global] Instance result_ret : MRet result := fun A a => Ok a.

#[global] Instance result_bind : MBind result := fun A B k m =>
  match m with
  | Ok a => k a
  | Throw => Throw
  end.

Definition try_catch {A} (body : result A) (handler : A) : A :=
  match body with
  | Ok a => a
  | Throw => handler
  end.

(** ** String primitives of the runtime *)

Module JS.

Definition code (c : ascii) : N := N_of_ascii c.

Definition in_range (lo hi : N) (c : ascii) : bool :=
  ((lo <=? code c) && (code c <=? hi))%N.

(** [\d] *)
Definition is_digit (c : ascii) : bool := in_range 48 57 c.

(** [\s], and the characters removed by [trim]: TAB, LF, VT, FF, CR,
    SPACE and NBSP are the ones below 256. *)
Definition is_space (c : ascii) : bool :=
  in_range 9 13 c || (code c =? 32)%N || (code c =? 160)%N.

Definition is_upper (c : ascii) : bool := in_range 65 90 c.
Definition is_lower (c : ascii) : bool := in_range 97 122 c.

(** [[0-9A-Za-z-]] *)
Definition is_idchar (c : ascii) : bool :=
  is_digit c || is_upper c || is_lower c || (code c =? 45)%N.

Definition is_empty (s : string) : bool :=
  match s with
  | EmptyString => true
  | String _ _ => false
  end.

(** The longest prefix whose characters satisfy [p], and what follows. *)
Fixpoint span (p : ascii -> bool) (s : string) : string * string :=
  match s with
  | EmptyString => (EmptyString, EmptyString)
  | String c r =>
      if p c then let '(a, b) := span p r in (String c a, b)
      else (EmptyString, s)
  end.

Fixpoint trimStart (s : string) : string :=
  match s with
  | EmptyString => EmptyString
  | String c r => if is_space c then trimStart r else s
  end.

Fixpoint trimEnd (s : string) : string :=
  match s with
  | EmptyString => EmptyString
  | String c r =>
      let r' := trimEnd r in
      if is_space c && is_empty r' then EmptyString else String c r'
  end.

(** [s.trim()] *)
Definition trim (s : string) : string := trimEnd (trimStart s).

(** [s.split(sep)] for a separator of one character. *)
Fixpoint split (sep : ascii) (s : string) : list string :=
  match s with
  | EmptyString => [EmptyString]
  | String c r =>
      if Ascii.eqb c sep then EmptyString :: split sep r
      else match split sep r with
           | h :: t => String c h :: t
           | [] => [String c EmptyString]
           end
  end.

(** [s.startsWith(p)] *)
Fixpoint startsWith (p s : string) : bool :=
  match p, s with
  | EmptyString, _ => true
  | String a p', String b s' => Ascii.eqb a b && startsWith p' s'
  | String _ _, EmptyString => false
  end.

(** [s.includes(sub)] *)
Fixpoint includes (sub s : string) : bool :=
  startsWith sub s ||
  match s with
  | EmptyString => false
  | String _ r => includes sub r
  end.

(** [s.toLowerCase()] on code units below 256. *)
Definition lower_char (c : ascii) : ascii :=
  if is_upper c
     || (in_range 192 222 c && negb (code c =? 215)%N)
  then ascii_of_N (code c + 32) else c.

Fixpoint toLowerCase (s : string) : string :=
  match s with
  | EmptyString => EmptyString
  | String c r => String (lower_char c) (toLowerCase r)
  end.

(** [parts.join(sep)] *)
Fixpoint join (sep : string) (parts : list string) : string :=
  match parts with
  | [] => EmptyString
  | [p] => p
  | p :: rest => p +:+ sep +:+ join sep rest
  end.

(** The integer that a string of decimal digits writes. *)
Fixpoint parseDigits (acc : N) (s : string) : N :=
  match s with
  | EmptyString => acc
  | String c r => parseDigits (10 * acc + (code c - 48))%N r
  end.

(** [Number.MAX_SAFE_INTEGER] *)
Definition MAX_SAFE_INTEGER : N := 2 ^ 53 - 1.

(** [Infinity], among the doubles of the integers: every finite double
    is below [2^1024]. *)
Definition Infinity : N := 2 ^ 1024.

(** The double of an integer: the integer itself up to
    [MAX_SAFE_INTEGER]; above, the nearest number of 53 significant bits,
    the even one of two that are as near, and [Infinity] from [2^1024]
    on. *)
Definition nearest_double (n : N) : N :=
  if (n <? 2 ^ 53)%N then n
  else
    let e := (N.log2 n - 52)%N in
    let q := N.shiftr n e in
    let r := (n mod 2 ^ e)%N in
    let half := (2 ^ (e - 1))%N in
    let rounded :=
      if (r <? half)%N then q
      else if (half <? r)%N then (q + 1)%N
      else if N.even q then q else (q + 1)%N in
    N.min (N.shiftl rounded e) Infinity.

(** [Number.parseInt(s, 10)] on a string of decimal digits: a double, the
    one nearest to the integer written. *)
Definition parseInt (s : string) : N := nearest_double (parseDigits 0 s).

(** A string of one decimal digit or more. *)
Definition is_number (s : string) : Prop :=
  s <> EmptyString /\ forallb is_digit (list_ascii_of_string s) = true.

(** A text that does not start with a character of [p]: what a greedy
    run of [p] stops at. *)
Definition stops (p : ascii -> bool) (r : string) : Prop :=
  match r with
  | EmptyString => True
  | String c _ => p c = false
  end.

Definition is_dot (c : ascii) : bool := Ascii.eqb c ".".


(** The decimal text of an integer, as a template literal prints it. *)
Definition string_of_Z (z : Z) : string := NilEmpty.string_of_int (Z.to_int z).

End JS.

(** ** Version comparator ([src/lib/utils/semver.ts]) *)

Module Semver.

Inductive UpdateType : Type := major_update | minor_update | patch_update | none.

Record SemverParts : Type := {
  major : N;
  minor : N;
  patch : N;
  prerelease : option string;
  build : option string
}.

(** [[0-9A-Za-z-]+(?:\.[0-9A-Za-z-]+)*] at the head of [s]: the text it
    matches and the rest.  Every repetition is greedy, and giving a
    character back never helps a pattern that is followed by [+] or by
    the end of the input, so the longest match is the only candidate. *)
Fixpoint dotted_ids (fuel : nat) (s : string) : option (string * string) :=
  match fuel with
  | O => None
  | S fuel' =>
      let '(id, rest) := JS.span JS.is_idchar s in
      if JS.is_empty id then None
      else match rest with
           | String c rest' =>
               if Ascii.eqb c "." then
                 match dotted_ids fuel' rest' with
                 | Some (more, rest'') => Some (id +:+ "." +:+ more, rest'')
                 | None => Some (id, rest)
                 end
               else Some (id, rest)
           | EmptyString => Some (id, rest)
           end
  end.

(** An optional group [(?:<lead>(<dotted ids>))?]. *)
Definition optional_group (lead : ascii) (s : string) : option string * string :=
  match s with
  | String c r =>
      if Ascii.eqb c lead then
        match dotted_ids (S (String.length r)) r with
        | Some (txt, rest) => (Some txt, rest)
        | None => (None, s)
        end
      else (None, s)
  | EmptyString => (None, s)
  end.

(** A run [\d+] followed by what is left. *)
Definition digits1 (s : string) : option (string * string) :=
  let '(d, rest) := JS.span JS.is_digit s in
  if JS.is_empty d then None else Some (d, rest).

Definition expect (c : ascii) (s : string) : option string :=
  match s with
  | String c' r => if Ascii.eqb c c' then Some r else None
  | EmptyString => None
  end.

(** [version.replace(/^v/, "")] *)
Definition strip_v (version : string) : string :=
  match version with
  | String c r => if Ascii.eqb c "v" then r else version
  | EmptyString => version
  end.

Definition parseSemver (version : string) : option SemverParts :=
  let cleaned := strip_v version in
  match digits1 cleaned with
  | None => None
  | Some (majorStr, r1) =>
  match expect "." r1 with
  | None => None
  | Some r2 =>
  match digits1 r2 with
  | None => None
  | Some (minorStr, r3) =>
  match expect "." r3 with
  | None => None
  | Some r4 =>
  match digits1 r4 with
  | None => None
  | Some (patchStr, r5) =>
      let '(pre, r6) := optional_group "-" r5 in
      let '(bld, r7) := optional_group "+" r6 in
      if JS.is_empty r7 then
        Some {| major := JS.parseInt majorStr;
                minor := JS.parseInt minorStr;
                patch := JS.parseInt patchStr;
                prerelease := pre;
                build := bld |}
      else None
  end end end end end.

(** The grammar of the pattern, stated apart from the matcher. *)

(** One letter, digit or hyphen, or more. *)
Definition is_identifier (s : string) : Prop :=
  s <> EmptyString /\ forallb JS.is_idchar (list_ascii_of_string s) = true.

(** Identifiers separated by dots. *)
Inductive dotted : string -> Prop :=
| dotted_one (id : string) : is_identifier id -> dotted id
| dotted_more (id rest : string) :
    is_identifier id -> dotted rest -> dotted (id +:+ "." +:+ rest).

(** The text of an optional group: nothing, or [lead] and dotted
    identifiers. *)
Definition tagged (lead : ascii) (tag : option string) (text : string) : Prop :=
  match tag with
  | None => text = EmptyString
  | Some ids => text = String lead ids /\ dotted ids
  end.

(** [version] is [vMAJOR.MINOR.PATCH-prerelease+build], the [v] and the
    two tags being optional, and [parts] are its parts, the three numbers
    read by [value]. *)
Definition version_text (value : string -> N) (version : string)
    (parts : SemverParts) : Prop :=
  exists v a b c pre bld,
    version = v +:+ a +:+ "." +:+ b +:+ "." +:+ c +:+ pre +:+ bld
    /\ (v = EmptyString \/ v = "v")
    /\ JS.is_number a /\ JS.is_number b /\ JS.is_number c
    /\ tagged "-" (prerelease parts) pre /\ tagged "+" (build parts) bld
    /\ major parts = value a /\ minor parts = value b
    /\ patch parts = value c.

(** The parts that the code holds: the numbers as [Number.parseInt] reads
    them. *)
Definition semver_text : string -> SemverParts -> Prop :=
  version_text JS.parseInt.

(** The parts as written: the numbers as integers. *)
Definition written : string -> SemverParts -> Prop :=
  version_text (JS.parseDigits 0).

(** No number of the parts is above [Number.MAX_SAFE_INTEGER]. *)
Definition safe (parts : SemverParts) : Prop :=
  (major parts <= JS.MAX_SAFE_INTEGER /\ minor parts <= JS.MAX_SAFE_INTEGER
   /\ patch parts <= JS.MAX_SAFE_INTEGER)%N.

Definition getUpdateType (current latest : string) : UpdateType :=
  match parseSemver current, parseSemver latest with
  | Some currentParts, Some latestParts =>
      if ((major currentParts =? major latestParts)
          && (minor currentParts =? minor latestParts)
          && (patch currentParts =? patch latestParts))%N
      then none
      else if (major currentParts <? major latestParts)%N then major_update
      else if ((major latestParts =? major currentParts)
               && (minor currentParts <? minor latestParts))%N then minor_update
      else if ((major latestParts =? major currentParts)
               && (minor latestParts =? minor currentParts)
               && (patch currentParts <? patch latestParts))%N then patch_update
      else none
  | _, _ => none
  end.

Definition compareSemver (a b : string) : Z :=
  match parseSemver a, parseSemver b with
  | Some aParts, Some bParts =>
      if (major aParts <? major bParts)%N then (-1)%Z
      else if (major bParts <? major aParts)%N then 1%Z
      else if (minor aParts <? minor bParts)%N then (-1)%Z
      else if (minor bParts <? minor aParts)%N then 1%Z
      else if (patch aParts <? patch bParts)%N then (-1)%Z
      else if (patch bParts <? patch aParts)%N then 1%Z
      else 0%Z
  | _, _ => 0%Z
  end.

Definition isValidSemver (version : string) : bool :=
  match parseSemver version with
  | Some _ => true
  | None => false
  end.

End Semver.

(** ** Values produced by [JSON.parse] *)

Module Json.

(** A parsed JSON text.  The properties of an object are listed in the
    order in which [Object.entries] enumerates them, one entry per key.
    A number is an integer in the range where doubles are exact. *)
#[warnings="-register-all"]
Inductive json : Type :=
| JNull
| JBool (b : bool)
| JNum (z : Z)
| JStr (s : string)
| JArr (elems : list json)
| JObj (props : list (string * json)).

(** A JavaScript value read out of a parsed text: [None] is [undefined]. *)
Definition value : Type := option json.

Definition truthy (v : value) : bool :=
  match v with
  | None | Some JNull => false
  | Some (JBool b) => b
  | Some (JNum z) => negb (z =? 0)%Z
  | Some (JStr s) => negb (JS.is_empty s)
  | Some (JArr _) | Some (JObj _) => true
  end.

Fixpoint lookup_prop {A} (k : string) (props : list (string * A)) : option A :=
  match props with
  | [] => None
  | (k', v) :: rest => if String.eqb k k' then Some v else lookup_prop k rest
  end.

(** The names that every object inherits from [Object.prototype].  For
    such a name that is no key of the object itself, [o[k]] is the member
    of the prototype (a function, or the prototype for [__proto__]), a
    truthy value, and not [undefined]. *)
Definition Object_prototype : list string :=
  [ "constructor"; "__defineGetter__"; "__defineSetter__"; "hasOwnProperty";
    "__lookupGetter__"; "__lookupSetter__"; "isPrototypeOf";
    "propertyIsEnumerable"; "toString"; "valueOf"; "__proto__";
    "toLocaleString" ].

Definition inherited (k : string) : bool :=
  existsb (String.eqb k) Object_prototype.

(** [v.k] for a key [k] that no prototype defines: a [TypeError] on
    [null] and [undefined], the own property of an object, [undefined]
    on every other value. *)
Definition get (v : value) (k : string) : result value :=
  match v with
  | None | Some JNull => Throw
  | Some (JObj props) => Ok (lookup_prop k props)
  | Some _ => Ok None
  end.

(** [v === s] for a string literal [s]. *)
Definition is_string (v : value) (s : string) : bool :=
  match v with
  | Some (JStr s') => String.eqb s' s
  | _ => false
  end.

Definition string_of_nat (n : nat) : string :=
  NilEmpty.string_of_uint (Nat.to_uint n).

Definition chars (s : string) : list json :=
  map (fun c => JStr (String c EmptyString)) (list_ascii_of_string s).

Definition indexed {A} (l : list A) : list (string * A) :=
  imap (fun i x => (string_of_nat i, x)) l.

(** [Object.entries(v)] *)
Definition entries (v : value) : result (list (string * json)) :=
  match v with
  | None | Some JNull => Throw
  | Some (JObj props) => Ok props
  | Some (JArr elems) => Ok (indexed elems)
  | Some (JStr s) => Ok (indexed (chars s))
  | Some (JBool _) | Some (JNum _) => Ok []
  end.

(** [v[i]] for a non-negative integer [i]. *)
Definition at_index (v : value) (i : nat) : result value :=
  match v with
  | None | Some JNull => Throw
  | Some (JArr elems) => Ok (nth_error elems i)
  | Some (JStr s) => Ok (nth_error (chars s) i)
  | Some (JObj props) => Ok (lookup_prop (string_of_nat i) props)
  | Some (JBool _) | Some (JNum _) => Ok None
  end.

(** [for (const x of v)]: arrays and strings are the iterable values. *)
Definition iterate (v : value) : result (list json) :=
  match v with
  | Some (JArr elems) => Ok elems
  | Some (JStr s) => Ok (chars s)
  | _ => Throw
  end.

Fixpoint array_indexOf (needle : string) (elems : list json) (i : Z) : Z :=
  match elems with
  | [] => (-1)%Z
  | x :: rest =>
      if is_string (Some x) needle then i
      else array_indexOf needle rest (i + 1)%Z
  end.

Fixpoint string_indexOf (needle s : string) (i : Z) : Z :=
  if JS.startsWith needle s then i
  else match s with
       | EmptyString => (-1)%Z
       | String _ r => string_indexOf needle r (i + 1)%Z
       end.

(** [v.indexOf(needle)]: a method of arrays and of strings only. *)
Definition indexOf (v : value) (needle : string) : result Z :=
  match v with
  | Some (JArr elems) => Ok (array_indexOf needle elems 0)
  | Some (JStr s) => Ok (string_indexOf needle s 0)
  | _ => Throw
  end.

End Json.

(** ** Outdated-output normaliser ([src/lib/analyzers/deps.ts]) *)

Module Deps.
Import Json Semver.

(** [name] is a [json] value because the yarn table may carry any truthy
    cell in the package column; the other parsers store a string there. *)
Record OutdatedPackage : Type := {
  name : json;
  current : string;
  latest : string;
  updateType : UpdateType;
  isDevDep : bool
}.

(** [getUpdateType(current, latest)] on values of any type: [parseSemver]
    starts with [version.replace], a method that only strings have, so
    anything but two strings raises a [TypeError]. *)
Definition outdated_entry (name : json) (current latest : value) (isDevDep : bool)
  : result OutdatedPackage :=
  match current, latest with
  | Some (JStr c), Some (JStr l) =>
      Ok {| name := name; current := c; latest := l;
            updateType := getUpdateType c l; isDevDep := isDevDep |}
  | _, _ => Throw
  end.

Section Parsers.

(** [JSON.parse]: raises a [SyntaxError] on a text that is not JSON. *)
Variable JSON_parse : string -> result json.

Fixpoint npm_entries (ents : list (string * json)) (packages : list OutdatedPackage)
  : result (list OutdatedPackage) :=
  match ents with
  | [] => Ok packages
  | (name, info) :: rest =>
      current ← get (Some info) "current";
      latest ← get (Some info) "latest";
      pkg ← outdated_entry (JStr name) current latest false;
      npm_entries rest (packages ++ [pkg])
  end.

Definition parseNpmOutdated (output : string) : result (list OutdatedPackage) :=
  if JS.is_empty (JS.trim output) then Ok []
  else Ok (try_catch
             (data ← JSON_parse output;
              ents ← entries (Some data);
              npm_entries ents [])
             []).

Fixpoint pnpm_entries (ents : list (string * json)) (packages : list OutdatedPackage)
  : result (list OutdatedPackage) :=
  match ents with
  | [] => Ok packages
  | (name, info) :: rest =>
      current ← get (Some info) "current";
      latest ← get (Some info) "latest";
      dependencyType ← get (Some info) "dependencyType";
      pkg ← outdated_entry (JStr name) current latest
              (is_string dependencyType "devDependencies");
      pnpm_entries rest (packages ++ [pkg])
  end.

Definition parsePnpmOutdated (output : string) : result (list OutdatedPackage) :=
  if JS.is_empty (JS.trim output) then Ok []
  else Ok (try_catch
             (data ← JSON_parse output;
              ents ← entries (Some data);
              pnpm_entries ents [])
             []).

(** One row of a yarn table.  [None] is a row that is skipped. *)
Definition yarn_row (packageIdx currentIdx latestIdx typeIdx : Z) (row : json)
  : result (option OutdatedPackage) :=
  name ← at_index (Some row) (Z.to_nat packageIdx);
  current ← at_index (Some row) (Z.to_nat currentIdx);
  latest ← at_index (Some row) (Z.to_nat latestIdx);
  pkgType ← (if (typeIdx =? -1)%Z then Ok (Some (JStr "dependencies"))
             else at_index (Some row) (Z.to_nat typeIdx));
  match name with
  | Some n =>
      if truthy name && truthy current && truthy latest then
        pkg ← outdated_entry n current latest (is_string pkgType "devDependencies");
        Ok (Some pkg)
      else Ok None
  | None => Ok None
  end.

(** The loop over the rows of one table.  [packages] is declared outside
    the [try] block, so the rows pushed before an exception stay. *)
Fixpoint yarn_rows (packageIdx currentIdx latestIdx typeIdx : Z)
    (rows : list json) (packages : list OutdatedPackage) : list OutdatedPackage :=
  match rows with
  | [] => packages
  | row :: rest =>
      match yarn_row packageIdx currentIdx latestIdx typeIdx row with
      | Throw => packages
      | Ok None => yarn_rows packageIdx currentIdx latestIdx typeIdx rest packages
      | Ok (Some pkg) =>
          yarn_rows packageIdx currentIdx latestIdx typeIdx rest (packages ++ [pkg])
      end
  end.

(** What the [try] block reads before the loop over the rows: the column
    positions and the rows, or [None] when a required column is missing. *)
Definition yarn_table (parsed : json) : result (option (Z * Z * Z * Z * list json)) :=
  data ← get (Some parsed) "data";
  headers ← get data "head";
  body ← get data "body";
  packageIdx ← indexOf headers "Package";
  currentIdx ← indexOf headers "Current";
  latestIdx ← indexOf headers "Latest";
  typeIdx ← indexOf headers "Package Type";
  if ((packageIdx =? -1) || (currentIdx =? -1) || (latestIdx =? -1))%Z then Ok None
  else
    rows ← iterate body;
    Ok (Some (packageIdx, currentIdx, latestIdx, typeIdx, rows)).

(** The body of the loop over the lines, with its [try]/[catch]. *)
Definition yarn_line (line : string) (packages : list OutdatedPackage)
  : list OutdatedPackage :=
  match JSON_parse line with
  | Throw => packages
  | Ok parsed =>
      match get (Some parsed) "type" with
      | Throw => packages
      | Ok type =>
          if is_string type "table" then
            match yarn_table parsed with
            | Ok (Some (packageIdx, currentIdx, latestIdx, typeIdx, rows)) =>
                yarn_rows packageIdx currentIdx latestIdx typeIdx rows packages
            | Ok None | Throw => packages
            end
          else packages
      end
  end.




Definition newline : ascii := ascii_of_N 10.

Definition parseYarnOutdated (output : string) : result (list OutdatedPackage) :=
  if JS.is_empty (JS.trim output) then Ok []
  else
    let lines := JS.split newline (JS.trim output) in
    Ok (fold_left (fun packages line => yarn_line line packages) lines []).

End Parsers.

(** [nameCell.replace(/\s*\(dev\)\s*/, "")]: the leftmost match starts
    at the first position from which white space and then [(dev)] follow;
    the white space after it is taken greedily. *)
Fixpoint strip_dev (s : string) : string :=
  let t := JS.trimStart s in
  if JS.startsWith "(dev)" t then JS.trimStart (String.substring 5 (String.length t - 5) t)
  else match s with
       | EmptyString => EmptyString
       | String c r => String c (strip_dev r)
       end.

Definition bun_cells (line : string) : list string :=
  List.filter (fun c => negb (JS.is_empty c)) (map JS.trim (JS.split "|" line)).


Definition bun_line (line : string) (packages : list OutdatedPackage)
  : list OutdatedPackage :=
  if negb (JS.includes "|" line) || JS.includes "Package" line || JS.includes "---" line
  then packages
  else
    match bun_cells line with
    | nameCell :: currentCell :: _ :: latestCell :: _ =>
        if JS.is_empty nameCell || JS.is_empty currentCell || JS.is_empty latestCell
        then packages
        else
          let isDevDep := JS.includes "(dev)" nameCell in
          let name := JS.trim (strip_dev nameCell) in
          if negb (JS.is_empty name) && negb (JS.is_empty currentCell)
             && negb (JS.is_empty latestCell)
          then packages ++ [ {| name := JStr name; current := currentCell;
                                latest := latestCell;
                                updateType := getUpdateType currentCell latestCell;
                                isDevDep := isDevDep |} ]
          else packages
    | _ => packages
    end.

Definition parseBunOutdated (output : string) : result (list OutdatedPackage) :=
  let lines := JS.split newline output in
  Ok (fold_left (fun packages line => bun_line line packages) lines []).

(** The [current] and the [latest] of an entry of an npm or pnpm report
    when both are strings: what [getUpdateType] needs not to raise. *)
Definition versions_of (info : json) : option (string * string) :=
  match info with
  | JObj props =>
      match lookup_prop "current" props, lookup_prop "latest" props with
      | Some (JStr c), Some (JStr l) => Some (c, l)
      | _, _ => None
      end
  | _ => None
  end.

(** Whether an entry of a pnpm report is a development dependency. *)
Definition declared_dev (info : json) : bool :=
  match info with
  | JObj props => is_string (lookup_prop "dependencyType" props) "devDependencies"
  | _ => false
  end.



(** The package [p] is the record of the entry [entry] of a report. *)
Definition describes (dev : json -> bool) (entry : string * json) (p : OutdatedPackage)
  : Prop :=
  name p = JStr (fst entry)
  /\ versions_of (snd entry) = Some (current p, latest p)
  /\ updateType p = getUpdateType (current p) (latest p)
  /\ isDevDep p = dev (snd entry).

End Deps.

(** ** Audit-output normaliser ([src/lib/analyzers/audit.ts])

    The audit reports are read at the types the source declares for
    them ([JSON.parse(output) as NpmAuditOutput] and so on).  A field
    that the code guards with [??] or [?.] is an [option]; the fields
    that the parsers never read are left out of the records. *)

Module Audit.
Import Json.

Inductive Severity : Type := Critical | High | Moderate | Low | Info.

Record Vulnerability : Type := {
  package : string;
  severity : Severity;
  title : string;
  path : string;
  fixAvailable : bool;
  fixVersion : option string
}.

Record AuditSummary : Type := {
  critical : Z;
  high : Z;
  moderate : Z;
  low : Z;
  total : Z
}.

Record AuditResult : Type := {
  vulnerabilities : list Vulnerability;
  summary : AuditSummary
}.

(** The counts under [metadata.vulnerabilities]; npm is the only manager
    that reports [total]. *)
Record VulnerabilityCounts : Type := {
  meta_info : option Z;
  meta_low : option Z;
  meta_moderate : option Z;
  meta_high : option Z;
  meta_critical : option Z;
  meta_total : option Z
}.

Record Metadata : Type := {
  meta_vulnerabilities : option VulnerabilityCounts
}.

(** [x ?? 0] *)
Definition or0 (x : option Z) : Z := default 0%Z x.

(** *** npm *)

Record NpmVia : Type := {
  via_title : option string
}.

Inductive NpmViaEntry : Type :=
| ViaObject (v : NpmVia)
| ViaString (s : string).

Record NpmFixInfo : Type := {
  fix_name : string;
  fix_version : string;
  fix_isSemVerMajor : bool
}.

Inductive NpmFixAvailable : Type :=
| FixBool (b : bool)
| FixObject (i : NpmFixInfo).

Record NpmVulnerability : Type := {
  npm_name : string;
  npm_severity : string;
  via : list NpmViaEntry;
  effects : list string;
  npm_fixAvailable : NpmFixAvailable
}.

Record NpmAuditOutput : Type := {
  npm_vulnerabilities : option (list (string * NpmVulnerability));
  npm_metadata : option Metadata
}.

Definition normalizeSeverity (severity : string) : Severity :=
  let s := JS.toLowerCase severity in
  if String.eqb s "critical" then Critical
  else if String.eqb s "high" then High
  else if String.eqb s "moderate" || String.eqb s "medium" then Moderate
  else if String.eqb s "low" then Low
  else Info.

Definition extractNpmFixVersion (fixAvailable : NpmFixAvailable) : option string :=
  match fixAvailable with
  | FixObject i => if JS.is_empty (fix_version i) then None else Some (fix_version i)
  | FixBool _ => None
  end.

Fixpoint extractNpmTitle (via : list NpmViaEntry) : string :=
  match via with
  | [] => "Unknown vulnerability"
  | ViaObject v :: rest =>
      match via_title v with
      | Some t => if JS.is_empty t then extractNpmTitle rest else t
      | None => extractNpmTitle rest
      end
  | ViaString _ :: rest => extractNpmTitle rest
  end.

(** [allVulns[name]], as [buildPathRecursive] uses it: the entry that the
    map has under [name]; [undefined] for a name that neither the map nor
    [Object.prototype] has; and for a name that [Object.prototype] alone
    has, a truthy value without [effects], on which [v.effects.length]
    raises a [TypeError]. *)
Inductive Member : Type :=
| OwnEntry (v : NpmVulnerability)
| Undefined
| Inherited.

Definition member (allVulns : list (string * NpmVulnerability)) (name : string)
  : Member :=
  match lookup_prop name allVulns with
  | Some v => OwnEntry v
  | None => if inherited name then Inherited else Undefined
  end.

(** The recursive closure of [buildNpmPath].  [visited] is the [Set] that
    the calls share; each call makes at most one recursive call, so the
    set only travels downwards.  [fuel] bounds the depth of the
    recursion: [None] is a recursion that did not finish within it,
    [Some Throw] the [TypeError] of an inherited name. *)
Fixpoint buildPathRecursive (allVulns : list (string * NpmVulnerability))
    (fuel : nat) (name : string) (visited : gset string)
  : option (result (list string)) :=
  match fuel with
  | O => None
  | S fuel' =>
      if bool_decide (name ∈ visited) then Some (Ok [name])
      else
        let visited' := visited ∪ {[ name ]} in
        match member allVulns name with
        | Undefined => Some (Ok [name])
        | Inherited => Some Throw
        | OwnEntry v =>
            match effects v with
            | first :: _ =>
                match buildPathRecursive allVulns fuel' first visited' with
                | Some (Ok parentPath) => Some (Ok (parentPath ++ [name])%list)
                | Some Throw => Some Throw
                | None => None
                end
            | [] => Some (Ok [name])
            end
        end
  end.

(** A depth that the recursion never reaches: every call but the last
    one marks a key of [allVulns] that was not marked before. *)
Definition path_fuel (allVulns : list (string * NpmVulnerability)) : nat :=
  S (length allVulns).

(** The entries of the map whose key is not marked yet. *)
Definition unvisited (l : list (string * NpmVulnerability)) (visited : gset string) : nat :=
  length (List.filter (fun entry => negb (bool_decide (fst entry ∈ visited))) l).

Definition buildNpmPath (vuln : NpmVulnerability)
    (allVulns : list (string * NpmVulnerability)) : result string :=
  match effects vuln with
  | _ :: _ =>
      pathParts ←
        default (Ok []) (buildPathRecursive allVulns (path_fuel allVulns)
                           (npm_name vuln) ∅);
      Ok (JS.join " > " (rev pathParts))
  | [] => Ok (JS.join " > " [npm_name vuln])
  end.

Definition is_via_string (v : NpmViaEntry) : bool :=
  match v with
  | ViaString _ => true
  | ViaObject _ => false
  end.

(** The test that makes the loop [continue]. *)
Definition is_passthrough (vuln : NpmVulnerability) : bool :=
  existsb is_via_string (via vuln) && (length (via vuln) =? 1)%nat.

Definition npm_vulnerability (vulns : list (string * NpmVulnerability))
    (vuln : NpmVulnerability) : result Vulnerability :=
  path ← buildNpmPath vuln vulns;
  Ok {| package := npm_name vuln;
        severity := normalizeSeverity (npm_severity vuln);
        title := extractNpmTitle (via vuln);
        path := path;
        fixAvailable := match npm_fixAvailable vuln with
                        | FixBool false => false
                        | _ => true
                        end;
        fixVersion := extractNpmFixVersion (npm_fixAvailable vuln) |}.

(** The entries that the loop does not pass over. *)
Definition kept (ents : list (string * NpmVulnerability)) : list NpmVulnerability :=
  List.filter (fun vuln => negb (is_passthrough vuln)) (map snd ents).

(** The loop over [Object.entries(vulns)]: it stops at the first entry
    whose path raises. *)
Fixpoint npm_loop (vulns ents : list (string * NpmVulnerability))
    (acc : list Vulnerability) : result (list Vulnerability) :=
  match ents with
  | [] => Ok acc
  | (_, vuln) :: rest =>
      if is_passthrough vuln then npm_loop vulns rest acc
      else
        v ← npm_vulnerability vulns vuln;
        npm_loop vulns rest (acc ++ [v])
  end.

(** The records of the entries [l], one after the other, or the exception
    of the first entry that raises. *)
Fixpoint npm_records (vulns : list (string * NpmVulnerability))
    (l : list NpmVulnerability) : result (list Vulnerability) :=
  match l with
  | [] => Ok []
  | vuln :: rest =>
      v ← npm_vulnerability vulns vuln;
      vs ← npm_records vulns rest;
      Ok (v :: vs)
  end.

(** A name whose look-up in the map makes the path raise. *)
Definition raises (allVulns : list (string * NpmVulnerability)) (name : string)
  : bool :=
  match member allVulns name with
  | Inherited => true
  | _ => false
  end.

(** The summary the npm parser copies out of the counts of a report. *)
Definition copied_summary (meta : VulnerabilityCounts) : AuditSummary :=
  {| critical := or0 (meta_critical meta);
     high := or0 (meta_high meta);
     moderate := or0 (meta_moderate meta);
     low := or0 (meta_low meta);
     total := or0 (meta_total meta) |}.

(** The body of the [try] block once the text is parsed. *)
Definition npm_report (data : NpmAuditOutput) : result (option AuditResult) :=
  match npm_metadata data ≫= meta_vulnerabilities with
  | None => Ok None
  | Some meta =>
      let vulns := default [] (npm_vulnerabilities data) in
      vulnerabilities ← npm_loop vulns vulns [];
      Ok (Some {| vulnerabilities := vulnerabilities;
                  summary := copied_summary meta |})
  end.

(** *** The patched version shared by pnpm and yarn *)

(** [\d+\.\d+\.\d+] at the head of [s].  Each [\d+] is greedy, and a
    shorter run of digits is followed by a digit, never by the dot. *)
Definition version_here (s : string) : option string :=
  match Semver.digits1 s with
  | None => None
  | Some (a, r1) =>
  match Semver.expect "." r1 with
  | None => None
  | Some r2 =>
  match Semver.digits1 r2 with
  | None => None
  | Some (b, r3) =>
  match Semver.expect "." r3 with
  | None => None
  | Some r4 =>
  match Semver.digits1 r4 with
  | None => None
  | Some (c, _) => Some (a +:+ "." +:+ b +:+ "." +:+ c)
  end end end end end.

(** [s.match(/(\d+\.\d+\.\d+)/)]: the leftmost match, [None] for no match. *)
Fixpoint match_version (s : string) : option string :=
  match version_here s with
  | Some v => Some v
  | None =>
      match s with
      | EmptyString => None
      | String _ r => match_version r
      end
  end.

(** [s] has three numbers separated by dots somewhere in it. *)
Definition has_version (s : string) : Prop :=
  exists before a b c after,
    s = before +:+ a +:+ "." +:+ b +:+ "." +:+ c +:+ after
    /\ JS.is_number a /\ JS.is_number b /\ JS.is_number c.

(** The computation of [fixVersion] from [patched_versions]. *)
Definition patchedFixVersion (patched_versions : option string) : option string :=
  match patched_versions with
  | Some pv =>
      if negb (JS.is_empty pv) && negb (String.eqb pv "<0.0.0")
      then match_version pv
      else None
  | None => None
  end.

Definition is_some {A} (o : option A) : bool :=
  match o with
  | Some _ => true
  | None => false
  end.

(** [path.replace(/>/g, " > ")] *)
Fixpoint spaceArrows (path : string) : string :=
  match path with
  | EmptyString => EmptyString
  | String c r =>
      if Ascii.eqb c ">" then " > " +:+ spaceArrows r
      else String c (spaceArrows r)
  end.

(** *** pnpm *)

Record PnpmFinding : Type := {
  finding_version : string;
  finding_paths : option (list string)
}.

Record PnpmAdvisory : Type := {
  module_name : string;
  pnpm_severity : string;
  pnpm_title : string;
  patched_versions : option string;
  findings : option (list PnpmFinding)
}.

Record PnpmError : Type := {
  error_code : string;
  error_message : string
}.

Record PnpmAuditOutput : Type := {
  advisories : option (list (string * PnpmAdvisory));
  pnpm_metadata : option Metadata;
  pnpm_error : option PnpmError
}.

Definition pnpm_paths (advisory : PnpmAdvisory) : list string :=
  concat (map (fun finding => default [] (finding_paths finding))
              (default [] (findings advisory))).

Definition pnpm_vulnerability (advisory : PnpmAdvisory) : Vulnerability :=
  let path := default (module_name advisory) (head (pnpm_paths advisory)) in
  let fixVersion := patchedFixVersion (patched_versions advisory) in
  {| package := module_name advisory;
     severity := normalizeSeverity (pnpm_severity advisory);
     title := pnpm_title advisory;
     path := spaceArrows path;
     fixAvailable := is_some fixVersion;
     fixVersion := fixVersion |}.

(** The summary that the pnpm and the yarn parser build from the counts
    of a report. *)
Definition summed_summary (meta : VulnerabilityCounts) : AuditSummary :=
  let total :=
    (or0 (meta_critical meta) + or0 (meta_high meta) + or0 (meta_moderate meta)
     + or0 (meta_low meta) + or0 (meta_info meta))%Z in
  {| critical := or0 (meta_critical meta);
     high := or0 (meta_high meta);
     moderate := or0 (meta_moderate meta);
     low := or0 (meta_low meta);
     total := total |}.

Definition pnpm_report (data : PnpmAuditOutput) : option AuditResult :=
  match pnpm_error data with
  | Some _ => None
  | None =>
      match pnpm_metadata data ≫= meta_vulnerabilities with
      | None => None
      | Some meta =>
          Some {| vulnerabilities :=
                    map (fun entry => pnpm_vulnerability (snd entry))
                        (default [] (advisories data));
                  summary := summed_summary meta |}
      end
  end.

(** *** yarn *)

Record YarnResolution : Type := {
  resolution_path : string
}.

Record YarnAdvisory : Type := {
  yarn_module_name : string;
  yarn_severity : string;
  yarn_title : string;
  yarn_patched_versions : option string
}.

Record YarnAdvisoryData : Type := {
  resolution : YarnResolution;
  advisory : YarnAdvisory
}.

(** A parsed line, told apart by its [type] field. *)
Inductive YarnLine : Type :=
| AuditAdvisoryLine (data : YarnAdvisoryData)
| AuditSummaryLine (counts : VulnerabilityCounts)
| OtherLine.

Definition yarn_vulnerability (data : YarnAdvisoryData) : Vulnerability :=
  let adv := advisory data in
  let fixVersion := patchedFixVersion (yarn_patched_versions adv) in
  {| package := yarn_module_name adv;
     severity := normalizeSeverity (yarn_severity adv);
     title := yarn_title adv;
     path := spaceArrows (resolution_path (resolution data));
     fixAvailable := is_some fixVersion;
     fixVersion := fixVersion |}.

Definition severity_eqb (a b : Severity) : bool :=
  match a, b with
  | Critical, Critical | High, High | Moderate, Moderate
  | Low, Low | Info, Info => true
  | _, _ => false
  end.

Definition count_severity (sev : Severity) (vulns : list Vulnerability) : Z :=
  Z.of_nat (length (List.filter (fun v => severity_eqb (severity v) sev) vulns)).

(** The summary counted from the advisories when no summary line came. *)
Definition counted_summary (vulns : list Vulnerability) : AuditSummary :=
  {| critical := count_severity Critical vulns;
     high := count_severity High vulns;
     moderate := count_severity Moderate vulns;
     low := count_severity Low vulns;
     total := Z.of_nat (length vulns) |}.



Section Parsers.

(** [JSON.parse(text) as T] for the three report types: a [SyntaxError]
    on a text that is not JSON. *)
Variable JSON_parse_npm : string -> result NpmAuditOutput.
Variable JSON_parse_pnpm : string -> result PnpmAuditOutput.
Variable JSON_parse_yarn : string -> result YarnLine.

Definition parseNpmAudit (output : string) : option AuditResult :=
  if JS.is_empty (JS.trim output) then None
  else try_catch (data ← JSON_parse_npm output; npm_report data) None.

Definition parsePnpmAudit (output : string) : option AuditResult :=
  if JS.is_empty (JS.trim output) then None
  else try_catch (data ← JSON_parse_pnpm output; Ok (pnpm_report data)) None.

(** The body of the loop over the lines, on the pair of the advisories
    collected so far and the last summary seen. *)
Definition yarn_audit_line (line : string)
    (state : list Vulnerability * option AuditSummary)
  : list Vulnerability * option AuditSummary :=
  let '(vulns, summary) := state in
  match JSON_parse_yarn line with
  | Ok (AuditAdvisoryLine data) => ((vulns ++ [yarn_vulnerability data])%list, summary)
  | Ok (AuditSummaryLine meta) => (vulns, Some (summed_summary meta))
  | Ok OtherLine | Throw => state
  end.

Definition parseYarnAudit (output : string) : option AuditResult :=
  if JS.is_empty (JS.trim output) then None
  else
    let lines := JS.split Deps.newline (JS.trim output) in
    let '(vulns, summary) :=
      fold_left (fun state line => yarn_audit_line line state) lines ([], None) in
    match summary with
    | Some s => Some {| vulnerabilities := vulns; summary := s |}
    | None =>
        if (length vulns =? 0)%nat then None
        else Some {| vulnerabilities := vulns; summary := counted_summary vulns |}
    end.

(** The advisories among [lines] and the counts of the summary lines
    among them, each in the order of the lines. *)
Definition advisory_lines (lines : list string) : list YarnAdvisoryData :=
  omap (fun line => match JSON_parse_yarn line with
                    | Ok (AuditAdvisoryLine data) => Some data
                    | _ => None
                    end) lines.

Definition summary_counts (lines : list string) : list VulnerabilityCounts :=
  omap (fun line => match JSON_parse_yarn line with
                    | Ok (AuditSummaryLine counts) => Some counts
                    | _ => None
                    end) lines.

End Parsers.

End Audit.

(** ** Package-manager detector ([src/lib/analyzers/package-manager.ts]) *)

Module PackageManager.

Inductive PackageManagerName : Type := bun | pnpm | yarn | npm.

(** The string that each name is in the source. *)
Definition name_text (n : PackageManagerName) : string :=
  match n with
  | bun => "bun"
  | pnpm => "pnpm"
  | yarn => "yarn"
  | npm => "npm"
  end.

Definition name_eqb (a b : PackageManagerName) : bool :=
  match a, b with
  | bun, bun | pnpm, pnpm | yarn, yarn | npm, npm => true
  | _, _ => false
  end.

Record PackageManagerInfo : Type := {
  name : PackageManagerName;
  lockfile : option string;
  installCommand : string;
  upgradeCommand : string;
  hasMultipleLockfiles : bool;
  detectedLockfiles : list string;
  corepackSpec : option string
}.

Record PackageManagerConfig : Type := {
  config_name : PackageManagerName;
  config_lockfile : string;
  config_installCommand : string;
  config_upgradeCommand : string
}.

Definition BUN_LOCKFILES : list string := ["bun.lock"; "bun.lockb"].

Definition PACKAGE_MANAGERS : list PackageManagerConfig :=
  [ {| config_name := bun; config_lockfile := "bun.lock";
       config_installCommand := "bun install"; config_upgradeCommand := "bun update" |};
    {| config_name := pnpm; config_lockfile := "pnpm-lock.yaml";
       config_installCommand := "pnpm install"; config_upgradeCommand := "pnpm update" |};
    {| config_name := yarn; config_lockfile := "yarn.lock";
       config_installCommand := "yarn install"; config_upgradeCommand := "yarn upgrade" |};
    {| config_name := npm; config_lockfile := "package-lock.json";
       config_installCommand := "npm install"; config_upgradeCommand := "npm update" |} ].

Definition DEFAULT_PACKAGE_MANAGER : PackageManagerInfo :=
  {| name := npm; lockfile := None;
     installCommand := "npm install"; upgradeCommand := "npm update";
     hasMultipleLockfiles := false; detectedLockfiles := []; corepackSpec := None |}.

(** [packageManagerField.match(/^(bun|pnpm|yarn|npm)@/)?.[1]] *)
Definition parseCorepackSpec (packageManagerField : string) : option PackageManagerName :=
  if JS.startsWith "bun@" packageManagerField then Some bun
  else if JS.startsWith "pnpm@" packageManagerField then Some pnpm
  else if JS.startsWith "yarn@" packageManagerField then Some yarn
  else if JS.startsWith "npm@" packageManagerField then Some npm
  else None.

Record PackageJson : Type := {
  packageManager : option string
}.

Section Detect.

(** The file system as the detector sees it: [existsSync], [path.join]
    and the manifest that [readPackageJson] returns ([None] when the file
    is missing or is not JSON). *)
Variable existsSync : string -> bool.
Variable join : string -> string -> string.
Variable readPackageJson : string -> option PackageJson.

Definition detectLockfiles (projectPath : string) : list string :=
  flat_map
    (fun pm =>
       let lockfilesToCheck :=
         if name_eqb (config_name pm) bun then BUN_LOCKFILES else [config_lockfile pm] in
       match find (fun lockfile => existsSync (join projectPath lockfile)) lockfilesToCheck with
       | Some lockfile => [lockfile]
       | None => []
       end)
    PACKAGE_MANAGERS.

Definition with_spec (info : PackageManagerInfo) (detected : list string)
    (spec : option string) : PackageManagerInfo :=
  {| name := name info; lockfile := lockfile info;
     installCommand := installCommand info; upgradeCommand := upgradeCommand info;
     hasMultipleLockfiles := hasMultipleLockfiles info;
     detectedLockfiles := detected; corepackSpec := spec |}.

Definition detectPackageManager (projectPath : string) : PackageManagerInfo :=
  let detectedLockfiles := detectLockfiles projectPath in
  let corepackSpec := readPackageJson projectPath ≫= packageManager in
  let fallback := with_spec DEFAULT_PACKAGE_MANAGER [] corepackSpec in
  match detectedLockfiles with
  | [] =>
      match corepackSpec with
      | Some spec =>
          if JS.is_empty spec then fallback
          else
            match parseCorepackSpec spec with
            | Some corepackPm =>
                match find (fun pm => name_eqb (config_name pm) corepackPm) PACKAGE_MANAGERS with
                | Some config =>
                    {| name := config_name config; lockfile := None;
                       installCommand := config_installCommand config;
                       upgradeCommand := config_upgradeCommand config;
                       hasMultipleLockfiles := false; detectedLockfiles := [];
                       corepackSpec := corepackSpec |}
                | None => fallback
                end
            | None => fallback
            end
      | None => fallback
      end
  | primaryLockfile :: _ =>
      if JS.is_empty primaryLockfile then fallback
      else
        let isBunLockfile := existsb (String.eqb primaryLockfile) BUN_LOCKFILES in
        match find (fun pm => if isBunLockfile then name_eqb (config_name pm) bun
                              else String.eqb (config_lockfile pm) primaryLockfile)
                   PACKAGE_MANAGERS with
        | None => with_spec DEFAULT_PACKAGE_MANAGER detectedLockfiles corepackSpec
        | Some config =>
            {| name := config_name config; lockfile := Some primaryLockfile;
               installCommand := config_installCommand config;
               upgradeCommand := config_upgradeCommand config;
               hasMultipleLockfiles := (1 <? length detectedLockfiles)%nat;
               detectedLockfiles := detectedLockfiles;
               corepackSpec := corepackSpec |}
        end
  end.

End Detect.

End PackageManager.

(** ** Running a command ([src/lib/utils/exec.ts]) *)

Module Exec.

Record ExecResult : Type := {
  stdout : string;
  stderr : string;
  exitCode : Z
}.

(** [a || b] on two strings. *)
Definition or_else (a b : string) : string :=
  if JS.is_empty a then b else a.

End Exec.

(** ** Dependency analyzer ([src/lib/analyzers/deps.ts], second half)

    The audit reports are read at the report types of the audit
    normaliser: [deps.ts] declares the part of them that it reads. *)

Module DepsAnalysis.
Import Json Exec.

Record SecuritySummary : Type := {
  critical : Z;
  high : Z;
  moderate : Z;
  low : Z
}.

Record DepsAnalysis : Type := {
  total : Z;
  outdated : Z;
  major : Z;
  minor : Z;
  patch : Z;
  security : option SecuritySummary;
  packages : list Deps.OutdatedPackage
}.

Record Command : Type := {
  command : string;
  args : list string
}.

(** The report types that this file declares for itself: of an npm report
    the counts alone, of a pnpm report the counts and the error.  Nothing
    else of a report is read here. *)
Record NpmAuditOutput : Type := {
  npm_metadata : option Audit.Metadata
}.

Record PnpmAuditOutput : Type := {
  pnpm_metadata : option Audit.Metadata;
  pnpm_error : option Audit.PnpmError
}.

(** What this file's types keep of a report of audit.ts. *)
Definition npm_counts (data : Audit.NpmAuditOutput) : NpmAuditOutput :=
  {| npm_metadata := Audit.npm_metadata data |}.

Definition pnpm_counts (data : Audit.PnpmAuditOutput) : PnpmAuditOutput :=
  {| pnpm_metadata := Audit.pnpm_metadata data;
     pnpm_error := Audit.pnpm_error data |}.

(** The object that the three parsers return for the counts of a report. *)
Definition summary_of (vulns : Audit.VulnerabilityCounts) : SecuritySummary :=
  {| critical := Audit.or0 (Audit.meta_critical vulns);
     high := Audit.or0 (Audit.meta_high vulns);
     moderate := Audit.or0 (Audit.meta_moderate vulns);
     low := Audit.or0 (Audit.meta_low vulns) |}.

(** The four severity counts of the summary of an audit result. *)
Definition buckets (r : Audit.AuditResult) : SecuritySummary :=
  {| critical := Audit.critical (Audit.summary r);
     high := Audit.high (Audit.summary r);
     moderate := Audit.moderate (Audit.summary r);
     low := Audit.low (Audit.summary r) |}.

Definition getOutdatedCommand (pm : PackageManager.PackageManagerName) : Command :=
  match pm with
  | PackageManager.npm => {| command := "npm"; args := ["outdated"; "--json"] |}
  | PackageManager.pnpm => {| command := "pnpm"; args := ["outdated"; "--format"; "json"] |}
  | PackageManager.yarn => {| command := "yarn"; args := ["outdated"; "--json"] |}
  | PackageManager.bun => {| command := "bun"; args := ["outdated"] |}
  end.

Definition getAuditCommand (pm : PackageManager.PackageManagerName) : Command :=
  match pm with
  | PackageManager.npm => {| command := "npm"; args := ["audit"; "--json"] |}
  | PackageManager.pnpm => {| command := "pnpm"; args := ["audit"; "--json"] |}
  | PackageManager.yarn => {| command := "yarn"; args := ["audit"; "--json"] |}
  | PackageManager.bun => {| command := "npm"; args := ["audit"; "--json"] |}
  end.

Definition updateType_eqb (a b : Semver.UpdateType) : bool :=
  match a, b with
  | Semver.major_update, Semver.major_update
  | Semver.minor_update, Semver.minor_update
  | Semver.patch_update, Semver.patch_update
  | Semver.none, Semver.none => true
  | _, _ => false
  end.

(** [packages.filter((p) => p.updateType === u).length] *)
Definition count_updates (u : Semver.UpdateType) (packages : list Deps.OutdatedPackage) : Z :=
  Z.of_nat (length (List.filter (fun p => updateType_eqb (Deps.updateType p) u) packages)).

Section Analyzer.

(** [JSON.parse(text)], and [JSON.parse(text) as T] for the report types
    of this file. *)
Variable JSON_parse : string -> result json.
Variable JSON_parse_npm : string -> result NpmAuditOutput.
Variable JSON_parse_pnpm : string -> result PnpmAuditOutput.
Variable JSON_parse_yarn : string -> result Audit.YarnLine.

(** The file system of the detector, the command runner ([exec] rejects
    when the command cannot be started or runs out of time) and the
    number of dependencies that the manifest declares. *)
Variable existsSync : string -> bool.
Variable join : string -> string -> string.
Variable readPackageJson : string -> option PackageManager.PackageJson.
Variable exec : string -> list string -> string -> result ExecResult.
Variable countTotalDependencies : string -> nat.

Definition parseNpmAudit (output : string) : option SecuritySummary :=
  if JS.is_empty (JS.trim output) then None
  else try_catch
         (data ← JSON_parse_npm output;
          match npm_metadata data ≫= Audit.meta_vulnerabilities with
          | None => Ok None
          | Some vulns => Ok (Some (summary_of vulns))
          end)
         None.

Definition parsePnpmAudit (output : string) : option SecuritySummary :=
  if JS.is_empty (JS.trim output) then None
  else try_catch
         (data ← JSON_parse_pnpm output;
          match pnpm_error data with
          | Some _ => Ok None
          | None =>
              match pnpm_metadata data ≫= Audit.meta_vulnerabilities with
              | None => Ok None
              | Some vulns => Ok (Some (summary_of vulns))
              end
          end)
         None.

(** The loop over the lines: it returns at the first summary line. *)
Fixpoint yarn_summary (lines : list string) : option SecuritySummary :=
  match lines with
  | [] => None
  | line :: rest =>
      match JSON_parse_yarn line with
      | Ok (Audit.AuditSummaryLine vulns) => Some (summary_of vulns)
      | Ok (Audit.AuditAdvisoryLine _) | Ok Audit.OtherLine | Throw => yarn_summary rest
      end
  end.

Definition parseYarnAudit (output : string) : option SecuritySummary :=
  if JS.is_empty (JS.trim output) then None
  else yarn_summary (JS.split Deps.newline (JS.trim output)).

Definition parseOutdatedOutput (pm : PackageManager.PackageManagerName) (output : string)
  : result (list Deps.OutdatedPackage) :=
  match pm with
  | PackageManager.npm => Deps.parseNpmOutdated JSON_parse output
  | PackageManager.pnpm => Deps.parsePnpmOutdated JSON_parse output
  | PackageManager.yarn => Deps.parseYarnOutdated JSON_parse output
  | PackageManager.bun => Deps.parseBunOutdated output
  end.

Definition parseAuditOutput (pm : PackageManager.PackageManagerName) (output : string)
  : option SecuritySummary :=
  match pm with
  | PackageManager.npm | PackageManager.bun => parseNpmAudit output
  | PackageManager.pnpm => parsePnpmAudit output
  | PackageManager.yarn => parseYarnAudit output
  end.

Definition runOutdatedCheck (pm : PackageManager.PackageManagerName) (cwd : string)
  : result ExecResult :=
  let c := getOutdatedCommand pm in exec (command c) (args c) cwd.

Definition runAuditCheck (pm : PackageManager.PackageManagerName) (cwd : string)
  : result ExecResult :=
  let c := getAuditCommand pm in exec (command c) (args c) cwd.

Definition analyzeDeps (cwd : string) (includeSecurity : bool) : result DepsAnalysis :=
  let pmInfo := PackageManager.detectPackageManager existsSync join readPackageJson cwd in
  let pm := PackageManager.name pmInfo in
  outdatedResult ← runOutdatedCheck pm cwd;
  let outdatedOutput := or_else (stdout outdatedResult) (stderr outdatedResult) in
  packages ← parseOutdatedOutput pm outdatedOutput;
  let major := count_updates Semver.major_update packages in
  let minor := count_updates Semver.minor_update packages in
  let patch := count_updates Semver.patch_update packages in
  let total := Z.of_nat (countTotalDependencies cwd) in
  security ← (if includeSecurity then
                auditResult ← runAuditCheck pm cwd;
                let auditOutput := or_else (stdout auditResult) (stderr auditResult) in
                Ok (parseAuditOutput pm auditOutput)
              else Ok None);
  Ok {| total := total; outdated := Z.of_nat (length packages);
        major := major; minor := minor; patch := patch;
        security := security; packages := packages |}.

End Analyzer.

End DepsAnalysis.

(** ** Audit runner ([src/lib/analyzers/audit.ts], after the parsers) *)

Module AuditRunner.
Import Exec Audit.

Record Command : Type := {
  command : string;
  args : list string
}.

Definition getAuditCommand (pm : PackageManager.PackageManagerName) : Command :=
  match pm with
  | PackageManager.npm => {| command := "npm"; args := ["audit"; "--json"] |}
  | PackageManager.pnpm => {| command := "pnpm"; args := ["audit"; "--json"] |}
  | PackageManager.yarn => {| command := "yarn"; args := ["audit"; "--json"] |}
  | PackageManager.bun => {| command := "npm"; args := ["audit"; "--json"] |}
  end.

(** The result that stands for a report that could not be read. *)
Definition no_vulnerabilities : AuditResult :=
  {| vulnerabilities := [];
     summary := {| critical := 0; high := 0; moderate := 0; low := 0; total := 0 |} |}.

Section Runner.

Variable JSON_parse_npm : string -> result NpmAuditOutput.
Variable JSON_parse_pnpm : string -> result PnpmAuditOutput.
Variable JSON_parse_yarn : string -> result YarnLine.
Variable existsSync : string -> bool.
Variable join : string -> string -> string.
Variable readPackageJson : string -> option PackageManager.PackageJson.
Variable exec : string -> list string -> string -> result ExecResult.

Definition parseAuditOutput (pm : PackageManager.PackageManagerName) (output : string)
  : option AuditResult :=
  match pm with
  | PackageManager.npm | PackageManager.bun => parseNpmAudit JSON_parse_npm output
  | PackageManager.pnpm => parsePnpmAudit JSON_parse_pnpm output
  | PackageManager.yarn => parseYarnAudit JSON_parse_yarn output
  end.

Definition runAuditCheck (pm : PackageManager.PackageManagerName) (cwd : string)
  : result ExecResult :=
  let c := getAuditCommand pm in exec (command c) (args c) cwd.

Definition analyzeAudit (cwd : string) : result AuditResult :=
  let pmInfo := PackageManager.detectPackageManager existsSync join readPackageJson cwd in
  let pm := PackageManager.name pmInfo in
  auditResult ← runAuditCheck pm cwd;
  let output := or_else (stdout auditResult) (stderr auditResult) in
  match parseAuditOutput pm output with
  | None => Ok no_vulnerabilities
  | Some result => Ok result
  end.

End Runner.

End AuditRunner.

(** ** Linting analyzer ([src/lib/analyzers/linting.ts]) *)

Module Linting.
Import Json.

Inductive LinterType : Type := biome | eslint | none.

Record LintingAnalysis : Type := {
  linter : LinterType;
  prettier : bool;
  score : Z;
  details : string
}.

Definition biomeConfigs : list string := ["biome.json"; "biome.jsonc"].

Definition eslintConfigs : list string :=
  [".eslintrc"; ".eslintrc.js"; ".eslintrc.cjs"; ".eslintrc.mjs"; ".eslintrc.json";
   ".eslintrc.yaml"; ".eslintrc.yml"; "eslint.config.js"; "eslint.config.mjs";
   "eslint.config.cjs"; "eslint.config.ts"].

Definition prettierConfigs : list string :=
  [".prettierrc"; ".prettierrc.js"; ".prettierrc.cjs"; ".prettierrc.mjs";
   ".prettierrc.json"; ".prettierrc.yaml"; ".prettierrc.yml"; ".prettierrc.toml";
   "prettier.config.js"; "prettier.config.mjs"; "prettier.config.cjs";
   "prettier.config.ts"].

Definition calculateScore (linter : LinterType) (prettier : bool) : Z :=
  match linter with
  | biome => 100
  | eslint => if prettier then 80 else 50
  | none => if prettier then 20 else 0
  end.

Definition generateDetails (linter : LinterType) (prettier : bool) : string :=
  match linter with
  | biome => "Biome configured"
  | eslint => if prettier then "ESLint + Prettier configured"
              else "ESLint configured (no Prettier)"
  | none => if prettier then "Prettier only (no linter)" else "No linting configured"
  end.

Section Analyzer.

(** [Bun.file(path).exists()], [Bun.file(path).text()] and [JSON.parse]:
    each of them may raise. *)
Variable file_exists : string -> result bool.
Variable file_text : string -> result string.
Variable JSON_parse : string -> result json.

Definition fileExists (path : string) : bool :=
  try_catch (file_exists path) false.

Definition anyFileExists (cwd : string) (filenames : list string) : bool :=
  existsb (fun filename => fileExists (cwd +:+ "/" +:+ filename)) filenames.

Definition detectBiome (cwd : string) : bool :=
  anyFileExists cwd biomeConfigs.

Definition detectEslint (cwd : string) : bool :=
  if anyFileExists cwd eslintConfigs then true
  else
    let packageJsonPath := cwd +:+ "/package.json" in
    if fileExists packageJsonPath then
      try_catch
        (content ← file_text packageJsonPath;
         pkg ← JSON_parse content;
         eslintConfig ← get (Some pkg) "eslintConfig";
         Ok (truthy eslintConfig))
        false
    else false.

Definition detectPrettier (cwd : string) : bool :=
  if anyFileExists cwd prettierConfigs then true
  else
    let packageJsonPath := cwd +:+ "/package.json" in
    if fileExists packageJsonPath then
      try_catch
        (content ← file_text packageJsonPath;
         pkg ← JSON_parse content;
         prettier ← get (Some pkg) "prettier";
         Ok (truthy prettier))
        false
    else false.

Definition analyzeLinting (cwd : string) : LintingAnalysis :=
  let hasBiome := detectBiome cwd in
  let hasEslint := detectEslint cwd in
  let hasPrettier := detectPrettier cwd in
  let linter := if hasBiome then biome else if hasEslint then eslint else none in
  let prettier := if hasBiome then false else hasPrettier in
  {| linter := linter; prettier := prettier;
     score := calculateScore linter prettier;
     details := generateDetails linter prettier |}.

End Analyzer.

End Linting.

(** ** TypeScript configuration analyzer ([src/lib/analyzers/tsconfig.ts]) *)

Module TsConfig.

Record TsConfigStrictFlags : Type := {
  strict : bool;
  noUncheckedIndexedAccess : bool;
  noImplicitReturns : bool;
  noFallthroughCasesInSwitch : bool;
  exactOptionalPropertyTypes : bool;
  noImplicitOverride : bool;
  noUnusedLocals : bool;
  noUnusedParameters : bool
}.

Record TsConfigAnalysis : Type := {
  ts_exists : bool;
  ts_strict : bool;
  strictFlags : TsConfigStrictFlags;
  score : Z;
  details : string
}.

Record CompilerOptions : Type := {
  opt_strict : option bool;
  opt_noUncheckedIndexedAccess : option bool;
  opt_noImplicitReturns : option bool;
  opt_noFallthroughCasesInSwitch : option bool;
  opt_exactOptionalPropertyTypes : option bool;
  opt_noImplicitOverride : option bool;
  opt_noUnusedLocals : option bool;
  opt_noUnusedParameters : option bool
}.

Record TsConfigJson : Type := {
  compilerOptions : option CompilerOptions;
  extends : option string
}.

Module FLAG_SCORES.
Definition strict : Z := 40.
Definition noUncheckedIndexedAccess : Z := 20.
Definition noImplicitReturns : Z := 10.
Definition noFallthroughCasesInSwitch : Z := 10.
Definition exactOptionalPropertyTypes : Z := 10.
Definition noImplicitOverride : Z := 10.
End FLAG_SCORES.

(** [{}], the options of a configuration that has none. *)
Definition no_options : CompilerOptions :=
  {| opt_strict := None; opt_noUncheckedIndexedAccess := None;
     opt_noImplicitReturns := None; opt_noFallthroughCasesInSwitch := None;
     opt_exactOptionalPropertyTypes := None; opt_noImplicitOverride := None;
     opt_noUnusedLocals := None; opt_noUnusedParameters := None |}.

Definition extractStrictFlags (config : TsConfigJson) : TsConfigStrictFlags :=
  let opts := default no_options (compilerOptions config) in
  {| strict := default false (opt_strict opts);
     noUncheckedIndexedAccess := default false (opt_noUncheckedIndexedAccess opts);
     noImplicitReturns := default false (opt_noImplicitReturns opts);
     noFallthroughCasesInSwitch := default false (opt_noFallthroughCasesInSwitch opts);
     exactOptionalPropertyTypes := default false (opt_exactOptionalPropertyTypes opts);
     noImplicitOverride := default false (opt_noImplicitOverride opts);
     noUnusedLocals := default false (opt_noUnusedLocals opts);
     noUnusedParameters := default false (opt_noUnusedParameters opts) |}.

Definition calculateScore (flags : TsConfigStrictFlags) : Z :=
  ((if strict flags then FLAG_SCORES.strict else 0)
   + (if noUncheckedIndexedAccess flags then FLAG_SCORES.noUncheckedIndexedAccess else 0)
   + (if noImplicitReturns flags then FLAG_SCORES.noImplicitReturns else 0)
   + (if noFallthroughCasesInSwitch flags then FLAG_SCORES.noFallthroughCasesInSwitch else 0)
   + (if exactOptionalPropertyTypes flags then FLAG_SCORES.exactOptionalPropertyTypes else 0)
   + (if noImplicitOverride flags then FLAG_SCORES.noImplicitOverride else 0))%Z.

(** The six flags in the order in which [generateDetails] visits them,
    each with its name. *)
Definition named_flags (flags : TsConfigStrictFlags) : list (string * bool) :=
  [ ("strict", strict flags);
    ("noUncheckedIndexedAccess", noUncheckedIndexedAccess flags);
    ("noImplicitReturns", noImplicitReturns flags);
    ("noFallthroughCasesInSwitch", noFallthroughCasesInSwitch flags);
    ("exactOptionalPropertyTypes", exactOptionalPropertyTypes flags);
    ("noImplicitOverride", noImplicitOverride flags) ].

Definition generateDetails (flags : TsConfigStrictFlags) (score : Z) : string :=
  if (score =? 100)%Z then "All strict flags enabled"
  else
    let enabled := map fst (List.filter (fun f => snd f) (named_flags flags)) in
    let disabled := map fst (List.filter (fun f => negb (snd f)) (named_flags flags)) in
    if (length enabled =? 0)%nat then "No strict flags enabled"
    else if (length disabled <=? 2)%nat then "Missing: " +:+ JS.join ", " disabled
    else "Enabled: " +:+ JS.join ", " enabled.

Definition no_flags : TsConfigStrictFlags :=
  {| strict := false; noUncheckedIndexedAccess := false; noImplicitReturns := false;
     noFallthroughCasesInSwitch := false; exactOptionalPropertyTypes := false;
     noImplicitOverride := false; noUnusedLocals := false; noUnusedParameters := false |}.

Section Analyzer.

(** [parseTsConfig]: the configuration read from [tsconfig.json], [None]
    when the file is missing or cannot be read as JSON. *)
Variable parseTsConfig : string -> option TsConfigJson.

Definition analyzeTsConfig (cwd : string) : TsConfigAnalysis :=
  match parseTsConfig cwd with
  | None =>
      {| ts_exists := false; ts_strict := false; strictFlags := no_flags;
         score := 0; details := "No tsconfig.json found" |}
  | Some config =>
      let strictFlags := extractStrictFlags config in
      let score := calculateScore strictFlags in
      let details := generateDetails strictFlags score in
      {| ts_exists := true; ts_strict := strict strictFlags;
         strictFlags := strictFlags; score := score; details := details |}
  end.

End Analyzer.

End TsConfig.

(** ** Import analyzer ([src/lib/analyzers/imports.ts]): package names *)

Module Imports.

(** [s.slice(n)] for [n] from 0 to the length of [s]. *)
Definition slice (n : nat) (s : string) : string :=
  String.substring n (String.length s - n) s.

Definition matchesPackage (moduleSpecifier targetPackage : string) : bool :=
  if String.eqb moduleSpecifier targetPackage then true
  else if JS.startsWith (targetPackage +:+ "/") moduleSpecifier then true
  else false.

Definition extractSubpath (moduleSpecifier targetPackage : string) : option string :=
  if String.eqb moduleSpecifier targetPackage then None
  else if JS.startsWith (targetPackage +:+ "/") moduleSpecifier
  then Some (slice (String.length targetPackage + 1) moduleSpecifier)
  else None.

End Imports.

(** ** Double arithmetic

    The scorers divide and multiply doubles.  [rnd] is the rounding of a
    real result to the nearest double; [Math.round] itself is exact. *)

Module Double.

Section Rounding.

Variable rnd : Q -> Q.

Definition fdiv (a b : Q) : Q := rnd (a / b).
Definition fmul (a b : Q) : Q := rnd (a * b).
Definition fadd (a b : Q) : Q := rnd (a + b).

End Rounding.

(** The two facts about rounding to the nearest double that the proofs
    use: it keeps the order, and it leaves alone the integers up to 2^53. *)
Definition monotone (rnd : Q -> Q) : Prop :=
  forall x y, (x <= y)%Q -> (rnd x <= rnd y)%Q.

Definition exact_on_integers (rnd : Q -> Q) : Prop :=
  forall z : Z, (Z.abs z <= 2 ^ 53)%Z -> (rnd (inject_Z z) == inject_Z z)%Q.

(** Arithmetic without rounding: what double arithmetic does as long as
    every intermediate result is an integer up to 2^53. *)
Definition unrounded : Q -> Q := fun q => q.

(** [Math.round(x)]: the nearest integer, a tie going up. *)
Definition Math_round (x : Q) : Z := Qfloor (x + (1 # 2)).

(** [Math.round((part / whole) * 100)] *)
Definition percent (rnd : Q -> Q) (part whole : Z) : Z :=
  Math_round (fmul rnd (fdiv rnd (inject_Z part) (inject_Z whole)) 100).

End Double.

(** ** Quality scorer ([src/lib/scorers/quality.ts]) *)

Module Quality.
Import Double.

Record MetricBreakdown : Type := {
  score : Q;
  weight : Z;
  details : string
}.

Module WEIGHTS.
Definition dependencyFreshness : Z := 20.
Definition security : Z := 25.
Definition testCoverage : Z := 20.
Definition typescriptStrictness : Z := 10.
Definition linting : Z := 10.
Definition deadCode : Z := 15.
End WEIGHTS.

Section Calculators.

Variable rnd : Q -> Q.

(** The text of a number in a template literal. *)
Variable number_toString : Q -> string.

Definition calculateDependencyFreshnessScore (total outdated : Z) : MetricBreakdown :=
  if (total =? 0)%Z then
    {| score := 100; weight := WEIGHTS.dependencyFreshness; details := "No dependencies" |}
  else
    let upToDate := (total - outdated)%Z in
    let score := percent rnd upToDate total in
    let details :=
      if (outdated =? 0)%Z then "All packages up-to-date"
      else JS.string_of_Z outdated +:+ " of " +:+ JS.string_of_Z total
           +:+ " packages outdated" in
    {| score := inject_Z score; weight := WEIGHTS.dependencyFreshness; details := details |}.

Definition calculateSecurityScore (critical high moderate low : Z) : MetricBreakdown :=
  let total := (critical + high + moderate + low)%Z in
  if (total =? 0)%Z then
    {| score := 100; weight := WEIGHTS.security; details := "No vulnerabilities found" |}
  else
    let deduction := (critical * 25 + high * 15 + moderate * 5 + low * 2)%Z in
    let score := Z.max 0 (100 - deduction) in
    let part (n : Z) (label : string) : list string :=
      if (0 <? n)%Z then [JS.string_of_Z n +:+ " " +:+ label] else [] in
    let parts := (part critical "critical" ++ part high "high"
                  ++ part moderate "moderate" ++ part low "low")%list in
    {| score := inject_Z score; weight := WEIGHTS.security;
       details := JS.join ", " parts +:+ " vulnerabilities" |}.

Definition calculateTestCoverageScore (found : bool) (percentage : option Q)
  : MetricBreakdown :=
  match found, percentage with
  | true, Some p =>
      {| score := p; weight := WEIGHTS.testCoverage;
         details := number_toString p +:+ "% line coverage" |}
  | _, _ =>
      {| score := 0; weight := WEIGHTS.testCoverage; details := "No coverage data found" |}
  end.

Definition calculateTypescriptStrictnessScore (exists_ : bool) (tsconfigScore : Q)
    (details : string) : MetricBreakdown :=
  if exists_ then
    {| score := tsconfigScore; weight := WEIGHTS.typescriptStrictness; details := details |}
  else
    {| score := 0; weight := WEIGHTS.typescriptStrictness;
       details := "No tsconfig.json found" |}.

Definition calculateLintingScore (lintingScore : Q) (details : string) : MetricBreakdown :=
  {| score := lintingScore; weight := WEIGHTS.linting; details := details |}.

Definition calculateDeadCodeScore (noUnusedLocals noUnusedParameters : bool)
  : MetricBreakdown :=
  let score := (50 + (if noUnusedLocals then 25 else 0)
                + (if noUnusedParameters then 25 else 0))%Z in
  let flags := ((if noUnusedLocals then ["noUnusedLocals"] else [])
                ++ (if noUnusedParameters then ["noUnusedParameters"] else []))%list in
  let details :=
    if (0 <? length flags)%nat then "Enabled: " +:+ JS.join ", " flags
    else "Automated dead code detection not implemented" in
  {| score := inject_Z score; weight := WEIGHTS.deadCode; details := details |}.

End Calculators.

(** An integer from 0 to 100. *)
Definition is_score (q : Q) : Prop :=
  exists z : Z, (q == inject_Z z)%Q /\ (0 <= z <= 100)%Z.

Inductive Grade : Type := A | B | C | D | F.

Definition getGrade (score : Q) : Grade :=
  if Qle_bool 90 score then A
  else if Qle_bool 80 score then B
  else if Qle_bool 70 score then C
  else if Qle_bool 60 score then D
  else F.

Record QualityBreakdown : Type := {
  dependencyFreshness : MetricBreakdown;
  security : MetricBreakdown;
  testCoverage : MetricBreakdown;
  typescriptStrictness : MetricBreakdown;
  linting : MetricBreakdown;
  deadCode : MetricBreakdown
}.

Definition metrics (breakdown : QualityBreakdown) : list MetricBreakdown :=
  [ dependencyFreshness breakdown; security breakdown; testCoverage breakdown;
    typescriptStrictness breakdown; linting breakdown; deadCode breakdown ].

Section Overall.

Variable rnd : Q -> Q.

(** The loop over the metrics: the pair of [totalWeightedScore] and
    [totalWeight].  The weights are small integers, which add up without
    rounding. *)
Definition weighted_totals (ms : list MetricBreakdown) : Q * Z :=
  fold_left
    (fun totals metric =>
       (fadd rnd (fst totals) (fmul rnd (score metric) (inject_Z (weight metric))),
        (snd totals + weight metric)%Z))
    ms (0%Q, 0%Z).

Definition calculateOverallScore (breakdown : QualityBreakdown) : Z :=
  let '(totalWeightedScore, totalWeight) := weighted_totals (metrics breakdown) in
  Math_round (fdiv rnd totalWeightedScore (inject_Z totalWeight)).

End Overall.

(** A metric whose score is an integer from [lo] to [hi] and whose
    weight is an integer from 0 to 100. *)
Definition scored_within (lo hi : Z) (m : MetricBreakdown) : Prop :=
  (exists z : Z, (score m == inject_Z z)%Q /\ (lo <= z <= hi)%Z)
  /\ (0 <= weight m <= 100)%Z.

Inductive RecommendationPriority : Type := high | medium | low.

Record Recommendation : Type := {
  priority : RecommendationPriority;
  action : string
}.

(** [a < b] on numbers. *)
Definition Qlt_bool (a b : Q) : bool := negb (Qle_bool b a).

(** The double quote, which a string literal cannot hold. *)
Definition quote : string := String (ascii_of_N 34) EmptyString.

Definition generateRecommendations (breakdown : QualityBreakdown) : list Recommendation :=
  ((if Qlt_bool (score (security breakdown)) 100 then
      let details := details (security breakdown) in
      (if JS.includes "critical" details then
         [ {| priority := high;
              action := "Fix critical severity vulnerabilities immediately" |} ]
       else [])
      ++ (if JS.includes "high" details then
            [ {| priority := high; action := "Fix high severity vulnerabilities" |} ]
          else [])
      ++ (if JS.includes "moderate" details then
            [ {| priority := medium;
                 action := "Address moderate severity vulnerabilities" |} ]
          else [])
    else [])
   ++ (if Qlt_bool (score (dependencyFreshness breakdown)) 70 then
         [ {| priority := medium; action := "Update outdated dependencies" |} ]
       else if Qlt_bool (score (dependencyFreshness breakdown)) 90 then
         [ {| priority := low; action := "Consider updating remaining outdated packages" |} ]
       else [])
   ++ (if Qeq_bool (score (testCoverage breakdown)) 0
          && JS.includes "No coverage" (details (testCoverage breakdown)) then
         [ {| priority := medium; action := "Set up test coverage reporting" |} ]
       else if Qlt_bool (score (testCoverage breakdown)) 50 then
         [ {| priority := medium;
              action := "Increase test coverage (currently below 50%)" |} ]
       else if Qlt_bool (score (testCoverage breakdown)) 80 then
         [ {| priority := low; action := "Improve test coverage to 80%+" |} ]
       else [])
   ++ (if Qeq_bool (score (typescriptStrictness breakdown)) 0 then
         if JS.includes "No tsconfig" (details (typescriptStrictness breakdown)) then
           [ {| priority := medium; action := "Add TypeScript to the project" |} ]
         else []
       else if Qlt_bool (score (typescriptStrictness breakdown)) 40 then
         [ {| priority := medium;
              action := "Enable " +:+ quote +:+ "strict" +:+ quote
                        +:+ ": true in tsconfig.json" |} ]
       else if Qlt_bool (score (typescriptStrictness breakdown)) 100 then
         let missingFlags := details (typescriptStrictness breakdown) in
         if JS.includes "noUncheckedIndexedAccess" missingFlags then
           [ {| priority := low; action := "Enable noUncheckedIndexedAccess in tsconfig" |} ]
         else []
       else [])
   ++ (if Qeq_bool (score (linting breakdown)) 0 then
         [ {| priority := medium; action := "Set up a linter (Biome or ESLint)" |} ]
       else if Qlt_bool (score (linting breakdown)) 80
               && JS.includes "no Prettier" (details (linting breakdown)) then
         [ {| priority := low; action := "Add Prettier for consistent code formatting" |} ]
       else [])
  )%list.

(** What each metric adds to the list, told apart. *)
Definition security_advice (m : MetricBreakdown) : list Recommendation :=
  if Qlt_bool (score m) 100 then
    ((if JS.includes "critical" (details m) then
        [ {| priority := high;
             action := "Fix critical severity vulnerabilities immediately" |} ]
      else [])
     ++ (if JS.includes "high" (details m) then
           [ {| priority := high; action := "Fix high severity vulnerabilities" |} ]
         else [])
     ++ (if JS.includes "moderate" (details m) then
           [ {| priority := medium; action := "Address moderate severity vulnerabilities" |} ]
         else []))%list
  else [].

Definition freshness_advice (m : MetricBreakdown) : list Recommendation :=
  if Qlt_bool (score m) 70 then
    [ {| priority := medium; action := "Update outdated dependencies" |} ]
  else if Qlt_bool (score m) 90 then
    [ {| priority := low; action := "Consider updating remaining outdated packages" |} ]
  else [].

Definition coverage_advice (m : MetricBreakdown) : list Recommendation :=
  if Qeq_bool (score m) 0 && JS.includes "No coverage" (details m) then
    [ {| priority := medium; action := "Set up test coverage reporting" |} ]
  else if Qlt_bool (score m) 50 then
    [ {| priority := medium; action := "Increase test coverage (currently below 50%)" |} ]
  else if Qlt_bool (score m) 80 then
    [ {| priority := low; action := "Improve test coverage to 80%+" |} ]
  else [].

Definition typescript_advice (m : MetricBreakdown) : list Recommendation :=
  if Qeq_bool (score m) 0 then
    if JS.includes "No tsconfig" (details m) then
      [ {| priority := medium; action := "Add TypeScript to the project" |} ]
    else []
  else if Qlt_bool (score m) 40 then
    [ {| priority := medium;
         action := "Enable " +:+ quote +:+ "strict" +:+ quote +:+ ": true in tsconfig.json" |} ]
  else if Qlt_bool (score m) 100 then
    if JS.includes "noUncheckedIndexedAccess" (details m) then
      [ {| priority := low; action := "Enable noUncheckedIndexedAccess in tsconfig" |} ]
    else []
  else [].

Definition linting_advice (m : MetricBreakdown) : list Recommendation :=
  if Qeq_bool (score m) 0 then
    [ {| priority := medium; action := "Set up a linter (Biome or ESLint)" |} ]
  else if Qlt_bool (score m) 80 && JS.includes "no Prettier" (details m) then
    [ {| priority := low; action := "Add Prettier for consistent code formatting" |} ]
  else [].

Record CoverageAnalysis : Type := {
  found : bool;
  percentage : option Q
}.

Record QualityReport : Type := {
  overall : Z;
  grade : Grade;
  breakdown : QualityBreakdown;
  recommendations : list Recommendation
}.

Section Assess.

Variable rnd : Q -> Q.
Variable number_toString : Q -> string.

(** The five analyzers that the assessment awaits; one that rejects
    makes the assessment reject. *)
Variable analyzeDeps : string -> result DepsAnalysis.DepsAnalysis.
Variable analyzeAudit : string -> result Audit.AuditResult.
Variable analyzeCoverage : string -> result CoverageAnalysis.
Variable analyzeTsConfig : string -> result TsConfig.TsConfigAnalysis.
Variable analyzeLinting : string -> result Linting.LintingAnalysis.

Definition assessQuality (cwd : string) : result QualityReport :=
  depsResult ← analyzeDeps cwd;
  auditResult ← analyzeAudit cwd;
  coverageResult ← analyzeCoverage cwd;
  tsconfigResult ← analyzeTsConfig cwd;
  lintingResult ← analyzeLinting cwd;
  let breakdown :=
    {| dependencyFreshness :=
         calculateDependencyFreshnessScore rnd
           (DepsAnalysis.total depsResult) (DepsAnalysis.outdated depsResult);
       security :=
         calculateSecurityScore
           (Audit.critical (Audit.summary auditResult))
           (Audit.high (Audit.summary auditResult))
           (Audit.moderate (Audit.summary auditResult))
           (Audit.low (Audit.summary auditResult));
       testCoverage :=
         calculateTestCoverageScore number_toString
           (found coverageResult) (percentage coverageResult);
       typescriptStrictness :=
         calculateTypescriptStrictnessScore
           (TsConfig.ts_exists tsconfigResult)
           (inject_Z (TsConfig.score tsconfigResult))
           (TsConfig.details tsconfigResult);
       linting :=
         calculateLintingScore
           (inject_Z (Linting.score lintingResult)) (Linting.details lintingResult);
       deadCode :=
         calculateDeadCodeScore
           (TsConfig.noUnusedLocals (TsConfig.strictFlags tsconfigResult))
           (TsConfig.noUnusedParameters (TsConfig.strictFlags tsconfigResult)) |} in
  let score := calculateOverallScore rnd breakdown in
  let grade := getGrade (inject_Z score) in
  let recommendations := generateRecommendations breakdown in
  Ok {| overall := score; grade := grade; breakdown := breakdown;
        recommendations := recommendations |}.

End Assess.

End Quality.

(** ** Risk scorer ([src/lib/scorers/risk.ts]) *)

Module Risk.
Import Double Semver.

Inductive RiskLevel : Type := low | medium | high | critical.

Record RiskFactor : Type := {
  score : Z;
  reason : string
}.

Record RiskFactors : Type := {
  f_updateType : RiskFactor;
  f_usageScope : RiskFactor;
  f_criticalPaths : RiskFactor;
  f_testCoverage : RiskFactor
}.

Record RiskAssessment : Type := {
  package : string;
  from : string;
  to : string;
  updateType : UpdateType;
  riskScore : Z;
  riskLevel : RiskLevel;
  factors : RiskFactors;
  recommendations : list string
}.

Record RiskAssessmentOptions : Type := {
  fromVersion : option string;
  toVersion : option string
}.

(** [[\^~>=<]] *)
Definition is_range_prefix (c : ascii) : bool :=
  existsb (Ascii.eqb c) ["^"; "~"; ">"; "="; "<"]%char.

(** [version.replace(/^[\^~>=<]+/, "")] *)
Definition cleanVersionString (version : string) : string :=
  snd (JS.span is_range_prefix version).

Definition scoreUpdateType (updateType : UpdateType) : RiskFactor :=
  match updateType with
  | major_update => {| score := 40; reason := "Major version bump" |}
  | minor_update => {| score := 15; reason := "Minor version bump" |}
  | patch_update => {| score := 5; reason := "Patch version bump" |}
  | none => {| score := 0; reason := "No version change" |}
  end.

Definition scoreUsageScope (fileCount : nat) : RiskFactor :=
  let count := JS.string_of_Z (Z.of_nat fileCount) in
  if (fileCount =? 0)%nat then {| score := 0; reason := "Not used in any files" |}
  else if (fileCount <=? 5)%nat then
    {| score := 10;
       reason := "Used in " +:+ count +:+ " file"
                 +:+ (if (1 <? fileCount)%nat then "s" else "") |}
  else if (fileCount <=? 20)%nat then
    {| score := 20; reason := "Used in " +:+ count +:+ " files" |}
  else {| score := 30; reason := "Used in " +:+ count +:+ " files" |}.

(** [/(?:^|\/)dir\//] *)
Definition in_directory (dir path : string) : bool :=
  JS.startsWith (dir +:+ "/") path || JS.includes ("/" +:+ dir +:+ "/") path.

(** [/word/i], for a word of lower-case letters. *)
Definition mentions (word path : string) : bool :=
  JS.includes word (JS.toLowerCase path).

Record CriticalPathResult : Type := {
  hasApiRoutes : bool;
  hasMiddleware : bool;
  hasAuth : bool
}.

Definition detectCriticalPaths (filePaths : list string) : CriticalPathResult :=
  {| hasApiRoutes :=
       existsb (fun path => in_directory "api" path || in_directory "routes" path) filePaths;
     hasMiddleware := existsb (mentions "middleware") filePaths;
     hasAuth := existsb (mentions "auth") filePaths |}.

Definition scoreCriticalPaths (filePaths : list string) : RiskFactor :=
  let critical := detectCriticalPaths filePaths in
  let score := ((if hasApiRoutes critical then 10 else 0)
                + (if hasMiddleware critical then 5 else 0)
                + (if hasAuth critical then 5 else 0))%Z in
  let reasons := ((if hasApiRoutes critical then ["API routes"] else [])
                  ++ (if hasMiddleware critical then ["middleware"] else [])
                  ++ (if hasAuth critical then ["auth"] else []))%list in
  if (length reasons =? 0)%nat then {| score := 0; reason := "Not used in critical paths" |}
  else {| score := Z.min score 20; reason := "Used in " +:+ JS.join " and " reasons |}.

Definition scoreTestCoverage (coveragePercent : Z) : RiskFactor :=
  let percent := JS.string_of_Z coveragePercent in
  if (50 <? coveragePercent)%Z then
    {| score := 0; reason := percent +:+ "% of importing files have tests" |}
  else if (0 <? coveragePercent)%Z then
    {| score := 5; reason := percent +:+ "% of importing files have tests" |}
  else {| score := 10; reason := "No importing files have tests" |}.

Definition getRiskLevel (score : Z) : RiskLevel :=
  if (score <=? 25)%Z then low
  else if (score <=? 50)%Z then medium
  else if (score <=? 75)%Z then high
  else critical.

Definition generateRecommendations (packageName : string) (updateType : UpdateType)
    (factors : RiskFactors) (criticalPaths : CriticalPathResult) : list string :=
  ((match updateType with
    | major_update => ["Review " +:+ packageName +:+ " migration guide";
                       "Run full test suite after upgrade"]
    | minor_update => ["Check " +:+ packageName +:+ " changelog for new features"]
    | _ => []
    end)
   ++ (if (20 <=? score (f_usageScope factors))%Z then ["Consider incremental rollout"] else [])
   ++ (if hasApiRoutes criticalPaths then ["Test API routes manually"] else [])
   ++ (if hasAuth criticalPaths then ["Verify auth flows"] else [])
   ++ (if hasMiddleware criticalPaths then ["Check middleware compatibility"] else [])
   ++ (if (5 <=? score (f_testCoverage factors))%Z then ["Add tests before upgrading"] else [])
  )%list.

Section Assess.

Variable rnd : Q -> Q.

(** What the assessment awaits from its collaborators: the version found
    in the manifest, the latest published version, the files that import
    the package, and whether a file has a test next to it. *)
Variable getCurrentVersion : string -> option string.
Variable getLatestVersion : string -> option string.
Variable importingFiles : string -> list string.
Variable hasTestFile : string -> bool.

Definition calculateTestCoverage (filePaths : list string) : Z :=
  if (length filePaths =? 0)%nat then 100%Z
  else
    let filesWithTests := length (List.filter (fun p => hasTestFile p) filePaths) in
    percent rnd (Z.of_nat filesWithTests) (Z.of_nat (length filePaths)).

(** [options.x], or what [detect] finds when the option is missing or
    empty; an error when that finds nothing. *)
Definition resolve_version (given : option string) (detect : option string)
  : result string :=
  match given with
  | Some v => if JS.is_empty v then
                match detect with
                | Some d => if JS.is_empty d then Throw else Ok d
                | None => Throw
                end
              else Ok v
  | None =>
      match detect with
      | Some d => if JS.is_empty d then Throw else Ok d
      | None => Throw
      end
  end.

Definition assessRisk (packageName : string) (options : RiskAssessmentOptions)
  : result RiskAssessment :=
  fromVersion ← resolve_version (fromVersion options) (getCurrentVersion packageName);
  toVersion ← resolve_version (toVersion options) (getLatestVersion packageName);
  let updateType := getUpdateType fromVersion toVersion in
  let filePaths := importingFiles packageName in
  let fileCount := length filePaths in
  let criticalPaths := detectCriticalPaths filePaths in
  let testCoverage := calculateTestCoverage filePaths in
  let factors :=
    {| f_updateType := scoreUpdateType updateType;
       f_usageScope := scoreUsageScope fileCount;
       f_criticalPaths := scoreCriticalPaths filePaths;
       f_testCoverage := scoreTestCoverage testCoverage |} in
  let riskScore :=
    (score (f_updateType factors) + score (f_usageScope factors)
     + score (f_criticalPaths factors) + score (f_testCoverage factors))%Z in
  let riskLevel := getRiskLevel riskScore in
  let recommendations :=
    generateRecommendations packageName updateType factors criticalPaths in
  Ok {| package := packageName; from := fromVersion; to := toVersion;
        updateType := updateType; riskScore := riskScore; riskLevel := riskLevel;
        factors := factors; recommendations := recommendations |}.

End Assess.

End Risk.

(** ** Reports used as examples *)

Module Fixtures.
Import Audit.

Definition counts (info low moderate high critical : Z) (total : option Z)
  : VulnerabilityCounts :=
  {| meta_info := Some info; meta_low := Some low; meta_moderate := Some moderate;
     meta_high := Some high; meta_critical := Some critical; meta_total := total |}.

(** The two entries of the npm report in [tests/lib/analyzers/audit.test.ts]:
    [nth-check] is vulnerable, [css-select] depends on it and [svgo], which
    has no entry, depends on [css-select]. *)
Definition react_scripts_fix : NpmFixAvailable :=
  FixObject {| fix_name := "react-scripts"; fix_version := "5.0.0";
               fix_isSemVerMajor := true |}.

Definition nth_check : NpmVulnerability :=
  {| npm_name := "nth-check"; npm_severity := "high";
     via := [ViaObject {| via_title := Some "Inefficient Regular Expression Complexity" |}];
     effects := ["css-select"];
     npm_fixAvailable := react_scripts_fix |}.

Definition css_select : NpmVulnerability :=
  {| npm_name := "css-select"; npm_severity := "high";
     via := [ViaString "nth-check"];
     effects := ["svgo"];
     npm_fixAvailable := react_scripts_fix |}.

Definition nth_check_vulns : list (string * NpmVulnerability) :=
  [("nth-check", nth_check); ("css-select", css_select)].

Definition nth_check_report : NpmAuditOutput :=
  {| npm_vulnerabilities := Some nth_check_vulns;
     npm_metadata :=
       Some {| meta_vulnerabilities := Some (counts 0 0 2 1 0 (Some 3%Z)) |} |}.

(** Two packages whose [effects] name each other. *)
Definition ping : NpmVulnerability :=
  {| npm_name := "ping"; npm_severity := "low";
     via := [ViaObject {| via_title := Some "Ping" |}];
     effects := ["pong"]; npm_fixAvailable := FixBool false |}.

Definition pong : NpmVulnerability :=
  {| npm_name := "pong"; npm_severity := "low";
     via := [ViaObject {| via_title := Some "Pong" |}];
     effects := ["ping"]; npm_fixAvailable := FixBool false |}.

Definition cyclic_vulns : list (string * NpmVulnerability) :=
  [("ping", ping); ("pong", pong)].

(** A package that a package named [constructor] depends on, and a
    package that depends on it in turn without a vulnerability of its
    own. *)
Definition left_pad : NpmVulnerability :=
  {| npm_name := "left-pad"; npm_severity := "high";
     via := [ViaObject {| via_title := Some "Denial of service" |}];
     effects := ["constructor"]; npm_fixAvailable := FixBool false |}.

Definition pad_cli : NpmVulnerability :=
  {| npm_name := "pad-cli"; npm_severity := "high";
     via := [ViaString "left-pad"];
     effects := []; npm_fixAvailable := FixBool false |}.

Definition left_pad_vulns : list (string * NpmVulnerability) :=
  [("left-pad", left_pad); ("pad-cli", pad_cli)].

Definition left_pad_report : NpmAuditOutput :=
  {| npm_vulnerabilities := Some left_pad_vulns;
     npm_metadata :=
       Some {| meta_vulnerabilities := Some (counts 0 0 0 2 0 (Some 2%Z)) |} |}.


(** A pnpm report with one advisory and no counts but [high]. *)
Definition pnpm_advisory (patched : string) : PnpmAdvisory :=
  {| module_name := "vulnerable-pkg"; pnpm_severity := "high";
     pnpm_title := "Test Vulnerability";
     patched_versions := Some patched;
     findings := Some [ {| finding_version := "1.0.0";
                           finding_paths := Some ["some-dep>vulnerable-pkg"] |} ] |}.

Definition pnpm_report_of (patched : string) : PnpmAuditOutput :=
  {| advisories := Some [("1", pnpm_advisory patched)];
     pnpm_metadata :=
       Some {| meta_vulnerabilities :=
                 Some {| meta_info := None; meta_low := None; meta_moderate := None;
                         meta_high := Some 1%Z; meta_critical := None;
                         meta_total := None |} |};
     pnpm_error := None |}.

(** A project directory with the lockfiles of bun and of yarn. *)
Definition bun_and_yarn (path : string) : bool :=
  String.eqb path "/repo/bun.lock" || String.eqb path "/repo/yarn.lock".

Definition join_paths (dir file : string) : string := dir +:+ "/" +:+ file.

(** A stand-in for [JSON.parse] that reads the text of the empty object
    and raises on every other text. *)
Definition empty_object_only (text : string) : result Json.json :=
  if String.eqb text "{}" then Ok (Json.JObj []) else Throw.

(** A stand-in for [JSON.parse(text) as T] that returns [parsed] for
    [text] and raises on every other text. *)
Definition reads {A} (text : string) (parsed : A) : string -> result A :=
  fun s => if String.eqb s text then Ok parsed else Throw.

(** A stand-in for [JSON.parse] on the lines of a yarn audit report with
    two summary lines, the first with one high advisory, the second with
    two critical ones. *)
Definition two_summaries (line : string) : result YarnLine :=
  if String.eqb line "first summary" then
    Ok (AuditSummaryLine (counts 0 0 0 1 0 None))
  else if String.eqb line "second summary" then
    Ok (AuditSummaryLine (counts 0 0 0 0 2 None))
  else Throw.

(** An npm outdated report with two entries, and the same report when
    the second package is not installed. *)
Definition lodash_entry : string * Json.json :=
  ("lodash", Json.JObj [("current", Json.JStr "4.17.20"); ("wanted", Json.JStr "4.17.21");
                        ("latest", Json.JStr "4.17.21")]).

Definition outdated_report : list (string * Json.json) :=
  [ lodash_entry;
    ("typescript", Json.JObj [("current", Json.JStr "4.9.5"); ("wanted", Json.JStr "4.9.5");
                              ("latest", Json.JStr "5.4.2");
                              ("dependencyType", Json.JStr "devDependencies")]) ].

Definition outdated_report_not_installed : list (string * Json.json) :=
  [ lodash_entry;
    ("typescript", Json.JObj [("wanted", Json.JStr "4.9.5"); ("latest", Json.JStr "5.4.2")]) ].

(** A line of a yarn outdated report: a table of three rows, the second
    of which is [null]. *)
Definition yarn_rows_with_null : list Json.json :=
  [ Json.JArr [Json.JStr "lodash"; Json.JStr "4.17.0"; Json.JStr "4.17.0";
               Json.JStr "4.17.21"; Json.JStr "dependencies"; Json.JStr "https://lodash.com/"];
    Json.JNull;
    Json.JArr [Json.JStr "chalk"; Json.JStr "4.1.2"; Json.JStr "4.1.2";
               Json.JStr "5.3.0"; Json.JStr "devDependencies"; Json.JStr "https://chalk.js"] ].

Definition yarn_table_with_null : Json.json :=
  Json.JObj
    [ ("type", Json.JStr "table");
      ("data",
       Json.JObj
         [ ("head", Json.JArr [Json.JStr "Package"; Json.JStr "Current"; Json.JStr "Wanted";
                               Json.JStr "Latest"; Json.JStr "Package Type"; Json.JStr "URL"]);
           ("body", Json.JArr yarn_rows_with_null) ]) ].




(** A command runner that prints [text] for every command. *)
Definition prints (text : string) (command : string) (args : list string) (cwd : string)
  : result Exec.ExecResult :=
  Ok {| Exec.stdout := text; Exec.stderr := EmptyString; Exec.exitCode := 1%Z |}.

(** The metrics of a project with no dependency, no vulnerability, full
    coverage, every strictness flag and Biome. *)
Definition perfect_breakdown : Quality.QualityBreakdown :=
  {| Quality.dependencyFreshness :=
       Quality.calculateDependencyFreshnessScore Double.unrounded 0 0;
     Quality.security := Quality.calculateSecurityScore 0 0 0 0;
     Quality.testCoverage :=
       Quality.calculateTestCoverageScore (fun _ => "100") true (Some 100%Q);
     Quality.typescriptStrictness :=
       Quality.calculateTypescriptStrictnessScore true 100 "All strict flags enabled";
     Quality.linting := Quality.calculateLintingScore 100 "Biome configured";
     Quality.deadCode := Quality.calculateDeadCodeScore true true |}.

(** The flags of a configuration that enables [strict] and
    [noUncheckedIndexedAccess] and nothing else, and the metrics of a
    project that differs from the perfect one in them. *)
Definition strict_and_unchecked : TsConfig.TsConfigStrictFlags :=
  {| TsConfig.strict := true; TsConfig.noUncheckedIndexedAccess := true;
     TsConfig.noImplicitReturns := false; TsConfig.noFallthroughCasesInSwitch := false;
     TsConfig.exactOptionalPropertyTypes := false; TsConfig.noImplicitOverride := false;
     TsConfig.noUnusedLocals := false; TsConfig.noUnusedParameters := false |}.

Definition with_metrics (security typescriptStrictness linting : Quality.MetricBreakdown)
  : Quality.QualityBreakdown :=
  {| Quality.dependencyFreshness := Quality.dependencyFreshness perfect_breakdown;
     Quality.security := security;
     Quality.testCoverage := Quality.testCoverage perfect_breakdown;
     Quality.typescriptStrictness := typescriptStrictness;
     Quality.linting := linting;
     Quality.deadCode := Quality.deadCode perfect_breakdown |}.

(** A dependency analysis with three outdated packages out of ten and a
    coverage report of 85 percent. *)
Definition three_of_ten : DepsAnalysis.DepsAnalysis :=
  {| DepsAnalysis.total := 10; DepsAnalysis.outdated := 3; DepsAnalysis.major := 1;
     DepsAnalysis.minor := 1; DepsAnalysis.patch := 1; DepsAnalysis.security := None;
     DepsAnalysis.packages := [] |}.

Definition coverage_85 : Quality.CoverageAnalysis :=
  {| Quality.found := true; Quality.percentage := Some 85%Q |}.

(** A directory in which only [.prettierrc] exists. *)
Definition prettier_only (path : string) : result bool :=
  Ok (String.eqb path "/repo/.prettierrc").

Definition unreadable (path : string) : result string := Throw.

(** A directory with no lockfile and no manifest. *)
Definition no_files (path : string) : bool := false.

Definition no_manifest (path : string) : option PackageManager.PackageJson := None.

End Fixtures.

(** * Properties *)

(** ** Strings *)

Section StringFacts.






Lemma span_sound p s a r :
  JS.span p s = (a, r) -> s = a +:+ r /\ forallb p (list_ascii_of_string a) = true.
Proof.
  revert a r. induction s as [| c s IH]; intros a r; cbn [JS.span].
  - intros [= <- <-]. now split.
  - destruct (p c) eqn:E.
    + destruct (JS.span p s) as [a' r'] eqn:Es. intros [= <- <-].
      destruct (IH a' r' eq_refl) as [-> Ha]. split; [reflexivity |].
      cbn [list_ascii_of_string forallb]. now rewrite E.
    + intros [= <- <-]. now split.
Qed.

Lemma append_empty (r : string) : EmptyString +:+ r = r.
Proof. reflexivity. Qed.

Lemma append_cons (c : ascii) (a r : string) : String c a +:+ r = String c (a +:+ r).
Proof. reflexivity. Qed.

Lemma span_app p a r :
  forallb p (list_ascii_of_string a) = true ->
  JS.span p (a +:+ r) = (a +:+ fst (JS.span p r), snd (JS.span p r)).
Proof.
  induction a as [| c a IH]; cbn [list_ascii_of_string forallb]; intros H.
  - rewrite !append_empty. now destruct (JS.span p r).
  - apply andb_prop in H as [Hc Ha]. rewrite !append_cons. cbn [JS.span].
    rewrite Hc, (IH Ha). reflexivity.
Qed.

Lemma digits1_number a r :
  JS.is_number a -> exists a' r', Semver.digits1 (a +:+ r) = Some (a +:+ a', r')
                               /\ JS.span JS.is_digit r = (a', r').
Proof.
  intros [Hne Hd]. unfold Semver.digits1. rewrite (span_app _ _ _ Hd).
  exists (fst (JS.span JS.is_digit r)), (snd (JS.span JS.is_digit r)).
  split; [| now destruct (JS.span JS.is_digit r)].
  destruct a; [congruence | reflexivity].
Qed.

Lemma append_empty_r (a : string) : a +:+ EmptyString = a.
Proof. induction a as [| c a IH]; [reflexivity |]. now rewrite append_cons, IH. Qed.

Lemma digits1_before_dot a r :
  JS.is_number a -> Semver.digits1 (a +:+ "." +:+ r) = Some (a, "." +:+ r).
Proof.
  intros [Hne Hd]. unfold Semver.digits1. rewrite (span_app _ _ _ Hd).
  change ("." +:+ r) with (String "." r). cbn [JS.span].
  change (JS.is_digit ".") with false. cbn [fst snd]. rewrite append_empty_r.
  destruct a; [congruence | reflexivity].
Qed.

Lemma digits1_sound s a r :
  Semver.digits1 s = Some (a, r) -> s = a +:+ r /\ JS.is_number a.
Proof.
  unfold Semver.digits1. destruct (JS.span JS.is_digit s) as [d rest] eqn:E.
  destruct (JS.is_empty d) eqn:Ed; [discriminate |]. intros [= <- <-].
  destruct (span_sound _ _ _ _ E) as [-> Hd]. split; [reflexivity |].
  split; [| exact Hd]. intros ->. discriminate.
Qed.

Lemma expect_sound c s r : Semver.expect c s = Some r -> s = String c r.
Proof.
  destruct s as [| c' s]; [discriminate |]. cbn [Semver.expect].
  destruct (Ascii.eqb_spec c c') as [<- | _]; [| discriminate]. now intros [= <-].
Qed.

End StringFacts.

(** ** Version comparator *)

Section SemverGrammar.
Import Semver.

Lemma span_stops p r : JS.stops p r -> JS.span p r = (EmptyString, r).
Proof. destruct r as [| c r]; [reflexivity |]. cbn. now intros ->. Qed.

Lemma span_exact p a r :
  forallb p (list_ascii_of_string a) = true -> JS.stops p r -> JS.span p (a +:+ r) = (a, r).
Proof.
  intros Ha Hr. rewrite (span_app _ _ _ Ha), (span_stops _ _ Hr). cbn [fst snd].
  now rewrite append_empty_r.
Qed.

Lemma digits1_exact a r :
  JS.is_number a -> JS.stops JS.is_digit r -> digits1 (a +:+ r) = Some (a, r).
Proof.
  intros [Hne Hd] Hr. unfold digits1. rewrite (span_exact _ _ _ Hd Hr).
  destruct a; [congruence | reflexivity].
Qed.

Lemma append_assoc (a b c : string) : (a +:+ b) +:+ c = a +:+ b +:+ c.
Proof. induction a as [| ch a IH]; [reflexivity |]. now rewrite !append_cons, IH. Qed.

Lemma append_length (a b : string) :
  String.length (a +:+ b) = String.length a + String.length b.
Proof. induction a as [| ch a IH]; [reflexivity |]. rewrite append_cons. simpl. now rewrite IH. Qed.

Lemma dotted_ids_complete ids : dotted ids ->
  forall r fuel, JS.stops JS.is_idchar r -> JS.stops JS.is_dot r ->
    String.length ids < fuel -> dotted_ids fuel (ids +:+ r) = Some (ids, r).
Proof.
  induction 1 as [id [Hne Hid] | id rest [Hne Hid] Hrest IH]; intros r fuel Hr Hdot Hfuel.
  - destruct fuel as [| fuel]; [lia |]. cbn [dotted_ids].
    rewrite (span_exact _ _ _ Hid Hr).
    destruct id as [| c id]; [congruence |]. cbn [JS.is_empty].
    destruct r as [| c' r]; [reflexivity |]. cbn in Hdot. unfold JS.is_dot in Hdot.
    now rewrite Hdot.
  - destruct fuel as [| fuel]; [lia |]. cbn [dotted_ids].
    rewrite append_assoc. rewrite (span_exact _ _ _ Hid); [| reflexivity].
    destruct id as [| c id]; [congruence |]. cbn [JS.is_empty].
    change (("." +:+ rest) +:+ r) with (String "." (rest +:+ r)).
    cbv beta iota. rewrite Ascii.eqb_refl.
    rewrite (IH r fuel Hr Hdot); [reflexivity |].
    rewrite !append_length in Hfuel. simpl in Hfuel. simpl. lia.
Qed.

Lemma dotted_ids_sound fuel : forall s txt rest,
  dotted_ids fuel s = Some (txt, rest) -> s = txt +:+ rest /\ dotted txt.
Proof.
  induction fuel as [| fuel IH]; intros s txt rest; [discriminate |].
  cbn [dotted_ids]. destruct (JS.span JS.is_idchar s) as [id r] eqn:E.
  destruct (span_sound _ _ _ _ E) as [-> Hid].
  destruct (JS.is_empty id) eqn:Ee; [discriminate |].
  assert (Hident : is_identifier id) by (split; [intros ->; discriminate | exact Hid]).
  assert (Hone : Some (id, r) = Some (txt, rest) -> id +:+ r = txt +:+ rest /\ dotted txt).
  { intros [= <- <-]. split; [reflexivity | now constructor]. }
  destruct r as [| c r]; [exact Hone |].
  destruct (Ascii.eqb_spec c ".") as [-> | Hne]; [| exact Hone].
  destruct (dotted_ids fuel r) as [[more r'] |] eqn:Er; [| exact Hone].
  intros [= <- <-]. destruct (IH _ _ _ Er) as [-> Hmore]. split.
  - now rewrite !append_assoc.
  - now constructor.
Qed.

Lemma optional_group_sound lead s tag rest :
  optional_group lead s = (tag, rest) ->
  exists text, s = text +:+ rest /\ tagged lead tag text.
Proof.
  unfold optional_group.
  assert (Hnone : (None, s) = (tag, rest) ->
                  exists text, s = text +:+ rest /\ tagged lead tag text).
  { intros [= <- <-]. now exists EmptyString. }
  destruct s as [| c r]; [exact Hnone |].
  destruct (Ascii.eqb_spec c lead) as [-> | _]; [| exact Hnone].
  destruct (dotted_ids _ r) as [[txt r'] |] eqn:E; [| exact Hnone].
  intros [= <- <-]. destruct (dotted_ids_sound _ _ _ _ E) as [-> Hd].
  exists (String lead txt). split; [reflexivity | now split].
Qed.

Lemma optional_group_complete lead tag text r :
  tagged lead tag text ->
  JS.stops (fun c => Ascii.eqb c lead) r -> JS.stops JS.is_idchar r -> JS.stops JS.is_dot r ->
  optional_group lead (text +:+ r) = (tag, r).
Proof.
  destruct tag as [ids |]; cbn [tagged].
  - intros [-> Hd] _ Hid Hdot. rewrite append_cons. cbn [optional_group].
    rewrite Ascii.eqb_refl.
    rewrite (dotted_ids_complete ids Hd r _ Hid Hdot); [reflexivity |].
    rewrite append_length. lia.
  - intros -> Hlead _ _. rewrite append_empty. unfold optional_group.
    destruct r as [| c r]; [reflexivity |]. cbn in Hlead. now rewrite Hlead.
Qed.

Lemma strip_v_sound version :
  exists v, (v = EmptyString \/ v = "v") /\ version = v +:+ strip_v version.
Proof.
  destruct version as [| c r]; [exists EmptyString; auto |]. cbn [strip_v].
  destruct (Ascii.eqb_spec c "v") as [-> | _].
  - exists "v". auto.
  - exists EmptyString. auto.
Qed.

Lemma strip_v_number v a r :
  v = EmptyString \/ v = "v" -> JS.is_number a -> strip_v (v +:+ a +:+ r) = a +:+ r.
Proof.
  intros [-> | ->] [Hne Hd].
  - rewrite append_empty. destruct a as [| c a]; [congruence |].
    rewrite append_cons. cbn [strip_v].
    cbn [list_ascii_of_string forallb] in Hd. apply andb_prop in Hd as [Hc _].
    destruct (Ascii.eqb_spec c "v") as [-> | _]; [| reflexivity].
    vm_compute in Hc. discriminate.
  - reflexivity.
Qed.

Lemma expect_lead c r : expect c (String c r) = Some r.
Proof. cbn [expect]. now rewrite Ascii.eqb_refl. Qed.

(** What a tag is followed by never continues a number, an identifier or
    a list of identifiers. *)
Lemma tagged_stops lead tag text r (p : ascii -> bool) :
  tagged lead tag text -> p lead = false -> JS.stops p r -> JS.stops p (text +:+ r).
Proof.
  destruct tag as [ids |]; cbn [tagged].
  - intros [-> _] Hp _. rewrite append_cons. exact Hp.
  - intros -> _ Hr. now rewrite append_empty.
Qed.

(** [parseSemver] accepts the texts of the grammar and no other, and
    returns their parts. *)
Lemma parseSemver_grammar version parts :
  parseSemver version = Some parts <-> semver_text version parts.
Proof.
  split.
  - unfold parseSemver.
    destruct (strip_v_sound version) as (v & Hv & Hversion).
    destruct (digits1 (strip_v version)) as [[a r1] |] eqn:E1; [| discriminate].
    destruct (expect "." r1) as [r2 |] eqn:E2; [| discriminate].
    destruct (digits1 r2) as [[b r3] |] eqn:E3; [| discriminate].
    destruct (expect "." r3) as [r4 |] eqn:E4; [| discriminate].
    destruct (digits1 r4) as [[c r5] |] eqn:E5; [| discriminate].
    destruct (optional_group "-" r5) as [pre r6] eqn:E6.
    destruct (optional_group "+" r6) as [bld r7] eqn:E7.
    destruct r7 as [| ch r7]; [| discriminate]. cbn [JS.is_empty]. intros [= <-].
    destruct (digits1_sound _ _ _ E1) as [Hs Ha].
    destruct (digits1_sound _ _ _ E3) as [-> Hb].
    destruct (digits1_sound _ _ _ E5) as [-> Hc].
    apply expect_sound in E2 as ->. apply expect_sound in E4 as ->.
    destruct (optional_group_sound _ _ _ _ E6) as (text1 & -> & Ht1).
    destruct (optional_group_sound _ _ _ _ E7) as (text2 & -> & Ht2).
    exists v, a, b, c, text1, text2.
    split; [rewrite Hversion, Hs; now rewrite append_empty_r |].
    split; [exact Hv |]. split; [exact Ha |]. split; [exact Hb |]. split; [exact Hc |].
    split; [exact Ht1 |]. split; [exact Ht2 |]. repeat split.
  - intros (v & a & b & c & pre & bld & -> & Hv & Ha & Hb & Hc & Hpre & Hbld & HM & Hm & Hp).
    unfold parseSemver. rewrite (strip_v_number v a _ Hv Ha).
    rewrite (digits1_before_dot a _ Ha). cbv beta iota.
    change ("." +:+ b +:+ "." +:+ c +:+ pre +:+ bld)
      with (String "." (b +:+ "." +:+ c +:+ pre +:+ bld)).
    rewrite expect_lead. rewrite (digits1_before_dot b _ Hb). cbv beta iota.
    change ("." +:+ c +:+ pre +:+ bld) with (String "." (c +:+ pre +:+ bld)).
    rewrite expect_lead.
    assert (Hbld_digit : JS.stops JS.is_digit bld)
      by (rewrite <- (append_empty_r bld); now apply (tagged_stops "+" (build parts))).
    assert (Hbld_id : JS.stops JS.is_idchar bld)
      by (rewrite <- (append_empty_r bld); now apply (tagged_stops "+" (build parts))).
    assert (Hbld_dot : JS.stops JS.is_dot bld)
      by (rewrite <- (append_empty_r bld); now apply (tagged_stops "+" (build parts))).
    assert (Hbld_dash : JS.stops (fun ch => Ascii.eqb ch "-") bld)
      by (rewrite <- (append_empty_r bld); now apply (tagged_stops "+" (build parts))).
    rewrite (digits1_exact c (pre +:+ bld) Hc);
      [| now apply (tagged_stops "-" (prerelease parts))].
    rewrite (optional_group_complete "-" _ pre bld Hpre Hbld_dash Hbld_id Hbld_dot).
    rewrite <- (append_empty_r bld) at 1.
    rewrite (optional_group_complete "+" _ bld EmptyString Hbld); [| exact I ..].
    cbn [JS.is_empty]. destruct parts. simpl in *. now subst.
Qed.

End SemverGrammar.

Section SemverProperties.
Import Semver.

Lemma getUpdateType_parsed current latest c l :
  parseSemver current = Some c -> parseSemver latest = Some l ->
  getUpdateType current latest =
    if ((major c =? major l) && (minor c =? minor l) && (patch c =? patch l))%N then none
    else if (major c <? major l)%N then major_update
    else if ((major l =? major c) && (minor c <? minor l))%N then minor_update
    else if ((major l =? major c) && (minor l =? minor c) && (patch c <? patch l))%N
         then patch_update
    else none.
Proof. intros Hc Hl. unfold getUpdateType. now rewrite Hc, Hl. Qed.

Ltac decide_components :=
  repeat match goal with
         | |- context [N.eqb ?a ?b] => destruct (N.eqb_spec a b)
         | |- context [N.ltb ?a ?b] => destruct (N.ltb_spec a b)
         end; simpl; try reflexivity; try lia.

Lemma getUpdateType_by_components (current latest : string) :
  (parseSemver current = None \/ parseSemver latest = None ->
   getUpdateType current latest = none) /\
  (forall c l, parseSemver current = Some c -> parseSemver latest = Some l ->
     (major c = major l /\ minor c = minor l /\ patch c = patch l ->
      getUpdateType current latest = none) /\
     (major c = major l /\ minor c = minor l /\ (patch c < patch l)%N ->
      getUpdateType current latest = patch_update) /\
     (major c = major l /\ (minor c < minor l)%N ->
      getUpdateType current latest = minor_update) /\
     ((major c < major l)%N ->
      getUpdateType current latest = major_update)).
Proof.
  split.
  - intros [H | H]; unfold getUpdateType; rewrite H.
    + reflexivity.
    + now destruct (parseSemver current).
  - intros c l Hc Hl. rewrite (getUpdateType_parsed _ _ _ _ Hc Hl).
    repeat split.
    + intros (-> & -> & ->). now rewrite !N.eqb_refl.
    + intros (-> & -> & Hp). decide_components.
    + intros (-> & Hm). decide_components.
    + intros HM. decide_components.
Qed.

Lemma not_semver_text version :
  (forall parts, ~ semver_text version parts) <-> parseSemver version = None.
Proof.
  split.
  - intros H. destruct (parseSemver version) as [parts |] eqn:E; [| reflexivity].
    exfalso. apply (H parts). now apply parseSemver_grammar.
  - intros H parts Ht. apply parseSemver_grammar in Ht. congruence.
Qed.

Lemma nearest_double_safe n :
  (n <= JS.MAX_SAFE_INTEGER)%N -> JS.nearest_double n = n.
Proof.
  intros H. unfold JS.nearest_double.
  destruct (N.ltb_spec n (2 ^ 53)) as [_ | Hge]; [reflexivity |].
  exfalso. unfold JS.MAX_SAFE_INTEGER in H.
  assert (0 < 2 ^ 53)%N by (apply N.neq_0_lt_0, N.pow_nonzero; discriminate).
  lia.
Qed.

Lemma written_safe version parts :
  written version parts -> safe parts -> semver_text version parts.
Proof.
  intros (v & a & b & c & pre & bld & Hv & Hlead & Ha & Hb & Hc & Hpre & Hbld
          & HM & Hm & Hp) (HsM & Hsm & Hsp).
  exists v, a, b, c, pre, bld. repeat split; try assumption; try apply Ha;
    try apply Hb; try apply Hc; unfold JS.parseInt.
  - rewrite <- HM. symmetry. now apply nearest_double_safe.
  - rewrite <- Hm. symmetry. now apply nearest_double_safe.
  - rewrite <- Hp. symmetry. now apply nearest_double_safe.
Qed.

(** C6: [getUpdateType] answers [none] when a side is not a strict
    [major.minor.patch] version (with an optional prerelease and build
    tag).  Otherwise it compares the doubles that [Number.parseInt] reads:
    [none] when the two triples are equal, whatever the tags; [patch] when
    only the patch component grows; [minor] when the majors are equal and
    the minor grows; [major] when the major grows, whatever the lower
    components.  For versions whose numbers are at most
    [Number.MAX_SAFE_INTEGER] these components are the numbers written,
    and the classification is that of the numbers written. *)
Theorem getUpdateType_classification (current latest : string) :
  ((forall parts, ~ semver_text current parts)
   \/ (forall parts, ~ semver_text latest parts) ->
   getUpdateType current latest = none) /\
  (forall c l, semver_text current c -> semver_text latest l ->
     (major c = major l /\ minor c = minor l /\ patch c = patch l ->
      getUpdateType current latest = none) /\
     (major c = major l /\ minor c = minor l /\ (patch c < patch l)%N ->
      getUpdateType current latest = patch_update) /\
     (major c = major l /\ (minor c < minor l)%N ->
      getUpdateType current latest = minor_update) /\
     ((major c < major l)%N ->
      getUpdateType current latest = major_update)) /\
  (forall c l, written current c -> written latest l -> safe c -> safe l ->
     (major c = major l /\ minor c = minor l /\ patch c = patch l ->
      getUpdateType current latest = none) /\
     (major c = major l /\ minor c = minor l /\ (patch c < patch l)%N ->
      getUpdateType current latest = patch_update) /\
     (major c = major l /\ (minor c < minor l)%N ->
      getUpdateType current latest = minor_update) /\
     ((major c < major l)%N ->
      getUpdateType current latest = major_update)).
Proof.
  destruct (getUpdateType_by_components current latest) as [Hnone Hsome].
  split; [| split].
  - intros [H | H]; apply Hnone; [left | right]; now apply not_semver_text.
  - intros c l Hc Hl. apply Hsome; now apply parseSemver_grammar.
  - intros c l Hc Hl Hsc Hsl.
    apply Hsome; apply parseSemver_grammar; now apply written_safe.
Qed.

Lemma getUpdateType_classification_witness :
  getUpdateType "1.2" "1.2.3" = none
  /\ getUpdateType "1.2.3-alpha.1" "v1.2.3-beta+build.7" = none
  /\ getUpdateType "4.17.20" "4.17.21" = patch_update
  /\ getUpdateType "5.0.9" "5.3.0" = minor_update
  /\ getUpdateType "18.9.9" "20.0.0" = major_update
  /\ getUpdateType "9007199254740990.0.0" "9007199254740991.0.0" = major_update.
Proof.
  split; [| split; [| split; [| split; [| split]]]].
  - apply (proj1 (getUpdateType_classification "1.2" "1.2.3")).
    left. apply not_semver_text. reflexivity.
  - destruct (getUpdateType_classification "1.2.3-alpha.1" "v1.2.3-beta+build.7")
      as (_ & Hparts & _).
    destruct (Hparts
               {| major := 1; minor := 2; patch := 3;
                  prerelease := Some "alpha.1"; build := None |}
               {| major := 1; minor := 2; patch := 3;
                  prerelease := Some "beta"; build := Some "build.7" |})
      as (Hnone & _); [now apply parseSemver_grammar .. |].
    apply Hnone. repeat split.
  - destruct (getUpdateType_classification "4.17.20" "4.17.21") as (_ & Hparts & _).
    destruct (Hparts
               {| major := 4; minor := 17; patch := 20; prerelease := None; build := None |}
               {| major := 4; minor := 17; patch := 21; prerelease := None; build := None |})
      as (_ & Hpatch & _); [now apply parseSemver_grammar .. |].
    apply Hpatch. repeat split.
  - destruct (getUpdateType_classification "5.0.9" "5.3.0") as (_ & Hparts & _).
    destruct (Hparts
               {| major := 5; minor := 0; patch := 9; prerelease := None; build := None |}
               {| major := 5; minor := 3; patch := 0; prerelease := None; build := None |})
      as (_ & _ & Hminor & _); [now apply parseSemver_grammar .. |].
    apply Hminor. repeat split.
  - destruct (getUpdateType_classification "18.9.9" "20.0.0") as (_ & Hparts & _).
    destruct (Hparts
               {| major := 18; minor := 9; patch := 9; prerelease := None; build := None |}
               {| major := 20; minor := 0; patch := 0; prerelease := None; build := None |})
      as (_ & _ & _ & Hmajor); [now apply parseSemver_grammar .. |].
    apply Hmajor. reflexivity.
  - destruct (getUpdateType_classification
                "9007199254740990.0.0" "9007199254740991.0.0") as (_ & _ & Hwritten).
    destruct (Hwritten
               {| major := 9007199254740990; minor := 0; patch := 0;
                  prerelease := None; build := None |}
               {| major := 9007199254740991; minor := 0; patch := 0;
                  prerelease := None; build := None |})
      as (_ & _ & _ & Hmajor).
    + exists EmptyString, "9007199254740990", "0", "0", EmptyString, EmptyString.
      repeat split; try reflexivity; try discriminate. now left.
    + exists EmptyString, "9007199254740991", "0", "0", EmptyString, EmptyString.
      repeat split; try reflexivity; try discriminate. now left.
    + repeat split; vm_compute; discriminate.
    + repeat split; vm_compute; discriminate.
    + apply Hmajor. reflexivity.
Defined.

(** C6, the numbers above [Number.MAX_SAFE_INTEGER]: the patch number
    written grows from 9007199254740992 to 9007199254740993, the two are
    read as the same double, and the update is classified [none]. *)
Lemma getUpdateType_rounds_large_numbers :
  written "1.0.9007199254740992"
    {| major := 1; minor := 0; patch := 9007199254740992;
       prerelease := None; build := None |}
  /\ written "1.0.9007199254740993"
       {| major := 1; minor := 0; patch := 9007199254740993;
          prerelease := None; build := None |}
  /\ (9007199254740992 < 9007199254740993)%N
  /\ JS.parseInt "9007199254740993" = JS.parseInt "9007199254740992"
  /\ getUpdateType "1.0.9007199254740992" "1.0.9007199254740993" = none.
Proof.
  split; [| split; [| split; [| split]]].
  - exists EmptyString, "1", "0", "9007199254740992", EmptyString, EmptyString.
    repeat split; try reflexivity; try discriminate. now left.
  - exists EmptyString, "1", "0", "9007199254740993", EmptyString, EmptyString.
    repeat split; try reflexivity; try discriminate. now left.
  - reflexivity.
  - vm_compute. reflexivity.
  - vm_compute. reflexivity.
Qed.

End SemverProperties.

(** ** Risk scorer *)

Section RiskProperties.
Import Double Risk.

Lemma getRiskLevel_thresholds (s : Z) :
  (getRiskLevel s = low <-> (s <= 25)%Z)
  /\ (getRiskLevel s = medium <-> (26 <= s <= 50)%Z)
  /\ (getRiskLevel s = high <-> (51 <= s <= 75)%Z)
  /\ (getRiskLevel s = critical <-> (76 <= s)%Z).
Proof.
  unfold getRiskLevel.
  destruct (Z.leb_spec s 25); [| destruct (Z.leb_spec s 50); [| destruct (Z.leb_spec s 75)]];
    repeat split; intros; try discriminate; try lia.
Qed.

Lemma scoreUpdateType_range u : (0 <= score (scoreUpdateType u) <= 40)%Z.
Proof. destruct u; simpl; lia. Qed.

Lemma scoreUsageScope_range n : (0 <= score (scoreUsageScope n) <= 30)%Z.
Proof.
  unfold scoreUsageScope.
  destruct (n =? 0)%nat; [simpl; lia |].
  destruct (n <=? 5)%nat; [simpl; lia |].
  destruct (n <=? 20)%nat; simpl; lia.
Qed.

Lemma scoreCriticalPaths_range paths : (0 <= score (scoreCriticalPaths paths) <= 20)%Z.
Proof.
  unfold scoreCriticalPaths.
  destruct (hasApiRoutes _), (hasMiddleware _), (hasAuth _); simpl; lia.
Qed.

Lemma scoreTestCoverage_range p : (0 <= score (scoreTestCoverage p) <= 10)%Z.
Proof.
  unfold scoreTestCoverage.
  destruct (50 <? p)%Z; [simpl; lia |].
  destruct (0 <? p)%Z; simpl; lia.
Qed.

(** C9: in every assessment [riskScore] is the plain sum of the four
    factor scores, a number from 0 to 100, and [riskLevel] is read off
    that sum: up to 25 low, 26 to 50 medium, 51 to 75 high, 76 and above
    critical. *)
Theorem assessRisk_score_and_level
    (rnd : Q -> Q) (getCurrentVersion getLatestVersion : string -> option string)
    (importingFiles : string -> list string) (hasTestFile : string -> bool)
    (packageName : string) (options : RiskAssessmentOptions) (r : RiskAssessment) :
  assessRisk rnd getCurrentVersion getLatestVersion importingFiles hasTestFile
             packageName options = Ok r ->
  riskScore r = (score (f_updateType (factors r)) + score (f_usageScope (factors r))
                 + score (f_criticalPaths (factors r))
                 + score (f_testCoverage (factors r)))%Z
  /\ (0 <= riskScore r <= 100)%Z
  /\ (riskLevel r = low <-> (0 <= riskScore r <= 25)%Z)
  /\ (riskLevel r = medium <-> (26 <= riskScore r <= 50)%Z)
  /\ (riskLevel r = high <-> (51 <= riskScore r <= 75)%Z)
  /\ (riskLevel r = critical <-> (76 <= riskScore r <= 100)%Z).
Proof.
  unfold assessRisk. intros H.
  destruct (resolve_version (fromVersion options) _) as [fromV |]; [| discriminate].
  destruct (resolve_version (toVersion options) _) as [toV |]; [| discriminate].
  simpl in H. injection H as <-. cbn [riskScore riskLevel factors f_updateType
    f_usageScope f_criticalPaths f_testCoverage].
  set (u := scoreUpdateType _). set (f := scoreUsageScope _).
  set (c := scoreCriticalPaths _). set (t := scoreTestCoverage _).
  assert (Hu := scoreUpdateType_range (Semver.getUpdateType fromV toV)).
  assert (Hf := scoreUsageScope_range (length (importingFiles packageName))).
  assert (Hc := scoreCriticalPaths_range (importingFiles packageName)).
  assert (Ht := scoreTestCoverage_range
                  (calculateTestCoverage rnd hasTestFile (importingFiles packageName))).
  fold u in Hu. fold f in Hf. fold c in Hc. fold t in Ht.
  destruct (getRiskLevel_thresholds (score u + score f + score c + score t))
    as (Hl & Hm & Hh & Hcr).
  split; [reflexivity |].
  split; [lia |].
  rewrite Hl, Hm, Hh, Hcr. repeat split; lia.
Qed.

Lemma assessRisk_score_and_level_witness :
  exists r,
    assessRisk unrounded (fun _ => Some "4.17.20") (fun _ => Some "5.0.0")
               (fun _ => ["src/api/users.ts"; "src/auth/middleware.ts"])
               (fun _ => false) "lodash"
               {| fromVersion := None; toVersion := None |} = Ok r
    /\ riskScore r = 80%Z /\ riskLevel r = critical.
Proof.
  eexists. split; [reflexivity |].
  match goal with
  | |- riskScore ?r = _ /\ _ =>
      destruct (assessRisk_score_and_level unrounded (fun _ => Some "4.17.20")
                  (fun _ => Some "5.0.0")
                  (fun _ => ["src/api/users.ts"; "src/auth/middleware.ts"])
                  (fun _ => false) "lodash"
                  {| fromVersion := None; toVersion := None |} r eq_refl)
        as (Hsum & _ & _ & _ & _ & Hcrit)
  end.
  split; [rewrite Hsum; reflexivity |].
  apply Hcrit. rewrite Hsum. vm_compute. split; discriminate.
Defined.

End RiskProperties.

(** ** Quality scorer *)

Section QualityProperties.
Import Double Quality.
Local Open Scope Q_scope.

Lemma unrounded_monotone : monotone unrounded.
Proof. intros x y H. exact H. Qed.

Lemma unrounded_exact_on_integers : exact_on_integers unrounded.
Proof. intros z _. reflexivity. Qed.

Lemma Math_round_range (x : Q) (lo hi : Z) :
  inject_Z lo <= x <= inject_Z hi -> (lo <= Math_round x <= hi)%Z.
Proof.
  intros [Hlo Hhi]. unfold Math_round. split.
  - rewrite <- (Qfloor_Z lo). apply Qfloor_resp_le.
    generalize dependent (inject_Z lo). intros q Hq. lra.
  - assert (H : (Qfloor (x + (1 # 2)) < hi + 1)%Z); [| lia].
    rewrite Zlt_Qlt, inject_Z_plus.
    assert (Hf := Qfloor_le (x + (1 # 2))).
    change (inject_Z 1) with 1.
    generalize dependent (inject_Z (Qfloor (x + (1 # 2)))).
    generalize dependent (inject_Z hi). intros h Hh f Hf. lra.
Qed.

Section Rounded.

Variable rnd : Q -> Q.
Hypothesis rnd_monotone : monotone rnd.
Hypothesis rnd_exact : exact_on_integers rnd.

Lemma rnd_between (x : Q) (lo hi : Z) :
  (Z.abs lo <= 2 ^ 53)%Z -> (Z.abs hi <= 2 ^ 53)%Z ->
  inject_Z lo <= x <= inject_Z hi -> inject_Z lo <= rnd x <= inject_Z hi.
Proof.
  intros Hl Hh [H1 H2]. split.
  - rewrite <- (rnd_exact lo Hl). now apply rnd_monotone.
  - rewrite <- (rnd_exact hi Hh). now apply rnd_monotone.
Qed.

Lemma percent_range (part whole : Z) :
  (0 <= part <= whole)%Z -> (0 < whole)%Z -> (0 <= percent rnd part whole <= 100)%Z.
Proof.
  intros Hp Hw. unfold percent, fmul, fdiv.
  apply Math_round_range.
  apply (rnd_between _ 0 100); [vm_compute; discriminate | vm_compute; discriminate |].
  assert (Hq : inject_Z 0 <= rnd (inject_Z part / inject_Z whole) <= inject_Z 1).
  { apply (rnd_between _ 0 1); [vm_compute; discriminate | vm_compute; discriminate |].
    assert (Hw' : 0 < inject_Z whole) by (change 0 with (inject_Z 0); now rewrite <- Zlt_Qlt).
    assert (Hp0 : 0 <= inject_Z part) by (change 0 with (inject_Z 0); rewrite <- Zle_Qle; lia).
    assert (Hpw : inject_Z part <= inject_Z whole) by (rewrite <- Zle_Qle; lia).
    change (inject_Z 0) with 0. change (inject_Z 1) with 1. split.
    - apply Qle_shift_div_l; [exact Hw' | lra].
    - apply Qle_shift_div_r; [exact Hw' | lra]. }
  change (inject_Z 0) with 0 in *. change (inject_Z 1) with 1 in *.
  change (inject_Z 100) with 100. lra.
Qed.

Lemma rnd_proper (x y : Q) : x == y -> rnd x == rnd y.
Proof.
  intros H. apply Qle_antisym; apply rnd_monotone; rewrite H; apply Qle_refl.
Qed.

Lemma percent_of_integers (part whole q p : Z) :
  inject_Z part / inject_Z whole == inject_Z q ->
  (Z.abs q <= 2 ^ 53)%Z -> (p = q * 100)%Z -> (Z.abs p <= 2 ^ 53)%Z ->
  percent rnd part whole = p.
Proof.
  intros Hq Hqb -> Hpb. unfold percent, fmul, fdiv, Math_round.
  assert (H1 : rnd (inject_Z part / inject_Z whole) == inject_Z q)
    by (rewrite (rnd_proper _ _ Hq); now apply rnd_exact).
  assert (H2 : rnd (rnd (inject_Z part / inject_Z whole) * 100) == inject_Z (q * 100)).
  { rewrite <- (rnd_exact (q * 100)%Z Hpb). apply rnd_proper.
    rewrite H1, inject_Z_mult. reflexivity. }
  rewrite H2.
  assert (H3 : (Qfloor (inject_Z (q * 100) + (1 # 2)) < q * 100 + 1)%Z).
  { rewrite Zlt_Qlt, inject_Z_plus. change (inject_Z 1) with 1.
    assert (Hf := Qfloor_le (inject_Z (q * 100) + (1 # 2))).
    generalize dependent (inject_Z (Qfloor (inject_Z (q * 100) + (1 # 2)))).
    generalize (inject_Z (q * 100)). intros a b Hb. lra. }
  assert (H4 : (q * 100 <= Qfloor (inject_Z (q * 100) + (1 # 2)))%Z).
  { rewrite <- (Qfloor_Z (q * 100)) at 1. apply Qfloor_resp_le.
    generalize (inject_Z (q * 100)). intros a. lra. }
  lia.
Qed.

(** With more outdated packages than packages the quotient is negative,
    and nothing brings the score back to zero.  At [(1, 2)] every
    intermediate result is an integer, so every rounding agrees. *)
Lemma freshness_overdue :
  score (calculateDependencyFreshnessScore rnd 1 2) == inject_Z (-100).
Proof.
  change (score (calculateDependencyFreshnessScore rnd 1 2))
    with (inject_Z (percent rnd (-1) 1)).
  rewrite (percent_of_integers (-1) 1 (-1) (-100));
    [reflexivity | reflexivity | vm_compute; discriminate | reflexivity
     | vm_compute; discriminate].
Qed.

End Rounded.

Lemma is_score_Z (z : Z) : (0 <= z <= 100)%Z -> is_score (inject_Z z).
Proof. intros H. exists z. split; [reflexivity | exact H]. Qed.

Lemma security_score_range (critical high moderate low : Z) :
  (0 <= critical)%Z -> (0 <= high)%Z -> (0 <= moderate)%Z -> (0 <= low)%Z ->
  is_score (score (calculateSecurityScore critical high moderate low)).
Proof.
  intros Hc Hh Hm Hl. unfold calculateSecurityScore.
  destruct (critical + high + moderate + low =? 0)%Z.
  - exists 100%Z. split; [reflexivity | lia].
  - apply is_score_Z. lia.
Qed.

(** C8, as the code has it: the freshness score is an integer from 0 to
    100 whenever the outdated packages are at most the packages, or
    there is no package at all; the security score is one whenever the
    four counts are not negative, the dead-code score always; the
    coverage, strictness and linting calculators hand on the sub-score
    they are given (or 0), so theirs is one exactly when that sub-score
    is. *)
Theorem metric_scores_in_range (rnd : Q -> Q) (number_toString : Q -> string) :
  monotone rnd -> exact_on_integers rnd ->
  (forall total outdated : Z, (total = 0 \/ 0 <= outdated <= total)%Z ->
     is_score (score (calculateDependencyFreshnessScore rnd total outdated)))
  /\ (forall critical high moderate low : Z,
       (0 <= critical)%Z -> (0 <= high)%Z -> (0 <= moderate)%Z -> (0 <= low)%Z ->
       is_score (score (calculateSecurityScore critical high moderate low)))
  /\ (forall noUnusedLocals noUnusedParameters : bool,
       is_score (score (calculateDeadCodeScore noUnusedLocals noUnusedParameters)))
  /\ (forall (found : bool) (percentage : option Q),
       score (calculateTestCoverageScore number_toString found percentage)
       = (if found then default 0 percentage else 0))
  /\ (forall (exists_ : bool) (tsconfigScore : Q) (details : string),
       score (calculateTypescriptStrictnessScore exists_ tsconfigScore details)
       = (if exists_ then tsconfigScore else 0))
  /\ (forall (lintingScore : Q) (details : string),
       score (calculateLintingScore lintingScore details) = lintingScore).
Proof.
  intros Hm He. repeat split.
  - intros total outdated H. unfold calculateDependencyFreshnessScore.
    destruct (Z.eqb_spec total 0) as [-> | Hne].
    + exists 100%Z. split; [reflexivity | lia].
    + apply is_score_Z. apply (percent_range rnd Hm He); lia.
  - apply security_score_range.
  - intros [] []; apply is_score_Z; simpl; lia.
  - intros [] [q |]; reflexivity.
  - intros []; reflexivity.
Qed.

Lemma metric_scores_in_range_witness :
  is_score (score (calculateDependencyFreshnessScore unrounded 10 3))
  /\ is_score (score (calculateSecurityScore 1 2 3 4))
  /\ is_score (score (calculateDeadCodeScore true false))
  /\ score (calculateLintingScore 80 "ESLint + Prettier configured") = 80.
Proof.
  destruct (metric_scores_in_range unrounded (fun _ => EmptyString)
              unrounded_monotone unrounded_exact_on_integers)
    as (Hfresh & Hsec & Hdead & _ & _ & Hlint).
  split; [apply Hfresh; lia |].
  split; [apply Hsec; lia |].
  split; [apply Hdead | apply Hlint].
Defined.

(** C8 fails as it is stated: one package and two outdated ones give the
    freshness score -100. *)
Lemma freshness_score_below_zero :
  score (calculateDependencyFreshnessScore unrounded 1 2) == inject_Z (-100)
  /\ ~ is_score (score (calculateDependencyFreshnessScore unrounded 1 2)).
Proof.
  assert (H := freshness_overdue unrounded unrounded_monotone unrounded_exact_on_integers).
  split; [exact H |].
  intros (z & Hz & Hr). rewrite H in Hz.
  rewrite inject_Z_injective in Hz. subst z. lia.
Qed.

End QualityProperties.

(** ** Audit-output normaliser *)

Section AuditProperties.
Import Audit.

Variable JSON_parse_npm : string -> result NpmAuditOutput.
Variable JSON_parse_pnpm : string -> result PnpmAuditOutput.
Variable JSON_parse_yarn : string -> result YarnLine.

(** *** What the parsers return for a text that was read *)

Lemma parseNpmAudit_read output r :
  parseNpmAudit JSON_parse_npm output = Some r ->
  exists data, JSON_parse_npm output = Ok data /\ npm_report data = Ok (Some r).
Proof.
  unfold parseNpmAudit. destruct (JS.is_empty _); [discriminate |].
  destruct (JSON_parse_npm output) as [data |]; cbn [mbind result_bind];
    [| discriminate].
  destruct (npm_report data) as [res |] eqn:E; cbn [try_catch]; [| discriminate].
  intros ->. now exists data.
Qed.

Lemma parsePnpmAudit_read output r :
  parsePnpmAudit JSON_parse_pnpm output = Some r ->
  exists data, JSON_parse_pnpm output = Ok data /\ pnpm_report data = Some r.
Proof.
  unfold parsePnpmAudit. destruct (JS.is_empty _); [discriminate |].
  destruct (JSON_parse_pnpm output) as [data |]; simpl; [| discriminate].
  intros H. now exists data.
Qed.

Lemma pnpm_report_some data r :
  pnpm_report data = Some r ->
  exists meta, pnpm_metadata data ≫= meta_vulnerabilities = Some meta
    /\ vulnerabilities r = map (fun entry => pnpm_vulnerability (snd entry))
                                (default [] (advisories data))
    /\ summary r = summed_summary meta.
Proof.
  unfold pnpm_report. destruct (pnpm_error data); [discriminate |].
  destruct (pnpm_metadata data ≫= meta_vulnerabilities) as [meta |]; [| discriminate].
  intros [= <-]. now exists meta.
Qed.

(** *** The loop of the npm parser *)

Lemma npm_loop_kept vulns ents acc :
  npm_loop vulns ents acc
  = (vs ← npm_records vulns (kept ents); Ok (acc ++ vs)%list).
Proof.
  revert acc. induction ents as [| [key vuln] rest IH]; intros acc.
  - simpl. now rewrite app_nil_r.
  - unfold kept. cbn [npm_loop map snd List.filter].
    destruct (is_passthrough vuln) eqn:E; cbn [negb].
    + apply IH.
    + cbn [npm_records]. destruct (npm_vulnerability vulns vuln) as [v |];
        cbn [mbind result_bind]; [| reflexivity].
      rewrite IH. fold (kept rest).
      destruct (npm_records vulns (kept rest)) as [vs |]; cbn [mbind result_bind];
        [| reflexivity].
      now rewrite <- app_assoc.
Qed.

Lemma npm_records_each vulns l vs :
  npm_records vulns l = Ok vs <->
  Forall2 (fun vuln v => npm_vulnerability vulns vuln = Ok v) l vs.
Proof.
  revert vs. induction l as [| vuln rest IH]; intros vs; cbn [npm_records].
  - split; [intros [= <-]; constructor | intros H; now inversion H].
  - destruct (npm_vulnerability vulns vuln) as [v |] eqn:Ev; cbn [mbind result_bind].
    + destruct (npm_records vulns rest) as [vs' |]; cbn [mbind result_bind].
      * split.
        -- intros [= <-]. constructor; [exact Ev | now apply IH].
        -- intros H. inversion H as [| ? v0 ? vs0 Hv Hrest]; subst.
           apply IH in Hrest. congruence.
      * split; [discriminate |].
        intros H. inversion H as [| ? v0 ? vs0 Hv Hrest]; subst.
        apply IH in Hrest. discriminate.
    + split; [discriminate |].
      intros H. inversion H; subst. congruence.
Qed.



(** The report that the [try] block gives for the counts [meta] and the
    map [vulns]. *)
Lemma npm_report_records data meta :
  npm_metadata data ≫= meta_vulnerabilities = Some meta ->
  npm_report data
  = (vs ← npm_records (default [] (npm_vulnerabilities data))
                      (kept (default [] (npm_vulnerabilities data)));
     Ok (Some {| vulnerabilities := vs; summary := copied_summary meta |})).
Proof.
  intros Hmeta. unfold npm_report. rewrite Hmeta. rewrite npm_loop_kept.
  now destruct (npm_records _ _).
Qed.

Lemma npm_report_some data r :
  npm_report data = Ok (Some r) ->
  exists meta, npm_metadata data ≫= meta_vulnerabilities = Some meta
    /\ npm_records (default [] (npm_vulnerabilities data))
                   (kept (default [] (npm_vulnerabilities data)))
       = Ok (vulnerabilities r)
    /\ summary r = copied_summary meta.
Proof.
  destruct (npm_metadata data ≫= meta_vulnerabilities) as [meta |] eqn:Hmeta.
  - rewrite (npm_report_records _ _ Hmeta).
    destruct (npm_records _ _) as [vs |]; cbn [mbind result_bind]; [| discriminate].
    intros [= <-]. now exists meta.
  - unfold npm_report. rewrite Hmeta. discriminate.
Qed.




End AuditProperties.


(** *** The regular expression of the patched version *)

Section PatchedVersion.
Import Audit.

Lemma version_here_complete a b c after :
  JS.is_number a -> JS.is_number b -> JS.is_number c ->
  version_here (a +:+ "." +:+ b +:+ "." +:+ c +:+ after) <> None.
Proof.
  intros Ha Hb Hc. unfold version_here.
  rewrite (digits1_before_dot a _ Ha). cbv beta iota.
  change (Semver.expect "." ("." +:+ b +:+ "." +:+ c +:+ after))
    with (Some (b +:+ "." +:+ c +:+ after)). cbv beta iota.
  rewrite (digits1_before_dot b _ Hb). cbv beta iota.
  change (Semver.expect "." ("." +:+ c +:+ after)) with (Some (c +:+ after)).
  cbv beta iota.
  destruct (digits1_number c after Hc) as (c' & r' & -> & _). discriminate.
Qed.

Lemma version_here_sound s v : version_here s = Some v -> has_version s.
Proof.
  unfold version_here.
  destruct (Semver.digits1 s) as [[a r1] |] eqn:E1; [| discriminate].
  destruct (Semver.expect "." r1) as [r2 |] eqn:E2; [| discriminate].
  destruct (Semver.digits1 r2) as [[b r3] |] eqn:E3; [| discriminate].
  destruct (Semver.expect "." r3) as [r4 |] eqn:E4; [| discriminate].
  destruct (Semver.digits1 r4) as [[c r5] |] eqn:E5; [| discriminate].
  intros _.
  destruct (digits1_sound _ _ _ E1) as [-> Ha].
  destruct (digits1_sound _ _ _ E3) as [-> Hb].
  destruct (digits1_sound _ _ _ E5) as [-> Hc].
  apply expect_sound in E2 as ->. apply expect_sound in E4 as ->.
  now exists EmptyString, a, b, c, r5.
Qed.

(** The pattern finds a match exactly in the strings that have three
    numbers separated by dots. *)
Lemma match_version_none_iff s : match_version s = None <-> ~ has_version s.
Proof.
  split.
  - intros Hnone (before & a & b & c & after & -> & Ha & Hb & Hc).
    induction before as [| ch before IH].
    + rewrite append_empty in Hnone.
      pose proof (version_here_complete a b c after Ha Hb Hc) as Hv.
      destruct (a +:+ "." +:+ b +:+ "." +:+ c +:+ after);
        cbn [match_version] in Hnone; destruct (version_here _); congruence.
    + rewrite append_cons in Hnone. cbn [match_version] in Hnone.
      destruct (version_here _); [discriminate | auto].
  - intros Hno. induction s as [| ch s IH]; cbn [match_version].
    + destruct (version_here EmptyString) eqn:E; [| reflexivity].
      exfalso. eapply Hno, version_here_sound, E.
    + destruct (version_here (String ch s)) eqn:E.
      * exfalso. eapply Hno, version_here_sound, E.
      * apply IH. intros (before & a & b & c & after & -> & Ha & Hb & Hc).
        apply Hno. now exists (String ch before), a, b, c, after.
Qed.

End PatchedVersion.

Section AuditInvariants.
Import Audit.

Variable JSON_parse_npm : string -> result NpmAuditOutput.
Variable JSON_parse_pnpm : string -> result PnpmAuditOutput.
Variable JSON_parse_yarn : string -> result YarnLine.





(** What the loop of the yarn parser keeps true: [Pv] of every advisory
    collected and [Ps] of the summary, when the lines give nothing else. *)
Lemma yarn_audit_fold (Pv : Vulnerability -> Prop) (Ps : AuditSummary -> Prop)
    (lines : list string) (state : list Vulnerability * option AuditSummary) :
  (forall line data, In line lines ->
     JSON_parse_yarn line = Ok (AuditAdvisoryLine data) -> Pv (yarn_vulnerability data)) ->
  (forall line meta, In line lines ->
     JSON_parse_yarn line = Ok (AuditSummaryLine meta) -> Ps (summed_summary meta)) ->
  Forall Pv (fst state) -> (forall s, snd state = Some s -> Ps s) ->
  let final := fold_left (fun st line => yarn_audit_line JSON_parse_yarn line st)
                         lines state in
  Forall Pv (fst final) /\ (forall s, snd final = Some s -> Ps s).
Proof.
  revert state. induction lines as [| line rest IH]; intros state Hadv Hsum Hv Hs.
  - simpl. split; assumption.
  - cbn [fold_left]. apply IH.
    + intros l d Hin. apply Hadv. now right.
    + intros l m Hin. apply Hsum. now right.
    + destruct state as [vulns summary]. unfold yarn_audit_line.
      destruct (JSON_parse_yarn line) as [[data | meta |] |] eqn:E; simpl; try exact Hv.
      apply Forall_app. split; [exact Hv |].
      constructor; [| constructor]. apply (Hadv line); [now left | exact E].
    + destruct state as [vulns summary]. unfold yarn_audit_line.
      destruct (JSON_parse_yarn line) as [[data | meta |] |] eqn:E; simpl; try exact Hs.
      intros s [= <-]. apply (Hsum line); [now left | exact E].
Qed.

Lemma parseYarnAudit_some output r :
  parseYarnAudit JSON_parse_yarn output = Some r ->
  let final := fold_left (fun st line => yarn_audit_line JSON_parse_yarn line st)
                         (JS.split Deps.newline (JS.trim output)) ([], None) in
  vulnerabilities r = fst final
  /\ (snd final = Some (summary r)
      \/ (snd final = None /\ summary r = counted_summary (fst final))).
Proof.
  unfold parseYarnAudit. destruct (JS.is_empty _); [discriminate |].
  destruct (fold_left _ _ _) as [vulns [s |]]; simpl.
  - intros [= <-]. auto.
  - destruct (length vulns =? 0)%nat; [discriminate |]. intros [= <-]. auto.
Qed.


(** C10: in what the pnpm and the yarn parser return, [fixAvailable] holds
    exactly when [fixVersion] is there; an advisory whose
    [patched_versions] is ["<0.0.0"], or has no three numbers separated by
    dots in it, comes out with neither. *)
Theorem fix_available_iff_fix_version (output : string) (r : AuditResult) :
  (parsePnpmAudit JSON_parse_pnpm output = Some r
   \/ parseYarnAudit JSON_parse_yarn output = Some r ->
   Forall (fun v => fixAvailable v = true <-> fixVersion v <> None) (vulnerabilities r))
  /\ (forall patched : string,
        patched = "<0.0.0" \/ ~ has_version patched ->
        (forall advisory, patched_versions advisory = Some patched ->
           fixAvailable (pnpm_vulnerability advisory) = false
           /\ fixVersion (pnpm_vulnerability advisory) = None)
        /\ (forall data, yarn_patched_versions (advisory data) = Some patched ->
             fixAvailable (yarn_vulnerability data) = false
             /\ fixVersion (yarn_vulnerability data) = None)).
Proof.
  assert (Hiff : forall o : option string, is_some o = true <-> o <> None).
  { intros [x |]; simpl; split; congruence. }
  assert (Hnone : forall patched, patched = "<0.0.0" \/ ~ has_version patched ->
                                  patchedFixVersion (Some patched) = None).
  { intros patched [-> | H]; [reflexivity |]. unfold patchedFixVersion.
    apply match_version_none_iff in H. rewrite H. now destruct (_ && _). }
  split.
  - intros [H | H].
    + destruct (parsePnpmAudit_read _ _ _ H) as (data & _ & Hreport).
      destruct (pnpm_report_some _ _ Hreport) as (meta & _ & -> & _).
      apply Forall_map. apply Forall_forall. intros entry _. apply Hiff.
    + destruct (parseYarnAudit_some _ _ H) as (-> & _).
      destruct (yarn_audit_fold (fun v => fixAvailable v = true <-> fixVersion v <> None)
                  (fun _ => True) (JS.split Deps.newline (JS.trim output)) ([], None))
        as (Hv & _).
      * intros line data _ _. apply Hiff.
      * trivial.
      * constructor.
      * discriminate.
      * exact Hv.
  - intros patched Hp. split.
    + intros adv Hadv. unfold pnpm_vulnerability. simpl. now rewrite Hadv, Hnone.
    + intros data Hdata. unfold yarn_vulnerability. simpl. now rewrite Hdata, Hnone.
Qed.

End AuditInvariants.


Lemma fix_available_iff_fix_version_witness :
  exists r,
    Audit.parsePnpmAudit (Fixtures.reads "pnpm audit" (Fixtures.pnpm_report_of "<0.0.0"))
                         "pnpm audit" = Some r
    /\ Forall (fun v => Audit.fixAvailable v = true <-> Audit.fixVersion v <> None)
              (Audit.vulnerabilities r)
    /\ Audit.fixAvailable (Audit.pnpm_vulnerability (Fixtures.pnpm_advisory "<0.0.0")) = false
    /\ Audit.fixAvailable (Audit.pnpm_vulnerability (Fixtures.pnpm_advisory "unpatched")) = false.
Proof.
  eexists. split; [reflexivity |].
  match goal with
  | |- Forall _ (Audit.vulnerabilities ?r) /\ _ =>
      destruct (fix_available_iff_fix_version
                  (Fixtures.reads "pnpm audit" (Fixtures.pnpm_report_of "<0.0.0"))
                  (fun _ => Throw) "pnpm audit" r) as (Hall & Hnone)
  end.
  split; [apply Hall; left; reflexivity |].
  split.
  - apply (Hnone "<0.0.0"); [left; reflexivity | reflexivity].
  - apply (Hnone "unpatched"); [| reflexivity].
    right. apply match_version_none_iff. reflexivity.
Defined.


(** ** The dependency path of the npm parser *)

Section PathProperties.
Import Json Audit.

Variable allVulns : list (string * NpmVulnerability).

Lemma unvisited_le l visited name :
  unvisited l (visited ∪ {[ name ]}) <= unvisited l visited.
Proof.
  unfold unvisited. induction l as [| [k v] rest IH]; [reflexivity |].
  cbn [List.filter fst].
  destruct (bool_decide (k ∈ visited)) eqn:E.
  - apply bool_decide_eq_true in E.
    rewrite (bool_decide_eq_true_2 (k ∈ visited ∪ {[ name ]})) by set_solver.
    exact IH.
  - destruct (bool_decide (k ∈ visited ∪ {[ name ]})); cbn [negb length]; lia.
Qed.

Lemma unvisited_lt l visited name v :
  lookup_prop name l = Some v -> name ∉ visited ->
  unvisited l (visited ∪ {[ name ]}) < unvisited l visited.
Proof.
  intros Hl Hn. induction l as [| [k w] rest IH]; [discriminate |].
  cbn [lookup_prop] in Hl. unfold unvisited in *. cbn [List.filter fst].
  destruct (String.eqb_spec name k) as [<- | Hne].
  - rewrite (bool_decide_eq_true_2 (name ∈ visited ∪ {[ name ]})) by set_solver.
    rewrite (bool_decide_eq_false_2 (name ∈ visited)) by exact Hn.
    cbn [negb length]. pose proof (unvisited_le rest visited name) as H.
    unfold unvisited in H. lia.
  - specialize (IH Hl).
    rewrite (bool_decide_ext (k ∈ visited ∪ {[ name ]}) (k ∈ visited))
      by (rewrite elem_of_union, elem_of_singleton; intuition congruence).
    destruct (bool_decide (k ∈ visited)); cbn [negb length]; lia.
Qed.

Lemma unvisited_bound l visited : unvisited l visited <= length l.
Proof. apply List.filter_length_le. Qed.

Lemma member_own name v :
  member allVulns name = OwnEntry v -> lookup_prop name allVulns = Some v.
Proof.
  unfold member. destruct (lookup_prop name allVulns) as [w |].
  - now intros [= ->].
  - destruct (inherited name); discriminate.
Qed.

Lemma lookup_prop_In {A} name (l : list (string * A)) v :
  lookup_prop name l = Some v -> In (name, v) l.
Proof.
  induction l as [| [k w] rest IH]; [discriminate |].
  cbn [lookup_prop]. destruct (String.eqb_spec name k) as [<- | Hne].
  - intros [= ->]. now left.
  - intros H. right. now apply IH.
Qed.

(** The recursion finishes as soon as the fuel exceeds the number of
    unmarked entries; a chain ends with the name it was asked for. *)
Lemma buildPathRecursive_enough fuel : forall name visited,
  unvisited allVulns visited < fuel ->
  exists outcome,
    buildPathRecursive allVulns fuel name visited = Some outcome
    /\ (forall chain, outcome = Ok chain ->
          last chain = Some name
          /\ 1 <= length chain <= S (unvisited allVulns visited)).
Proof.
  induction fuel as [| fuel IH]; intros name visited Hfuel; [lia |].
  cbn [buildPathRecursive].
  assert (Hone : exists outcome,
             Some (Ok [name]) = Some outcome
             /\ (forall chain, outcome = Ok chain ->
                   last chain = Some name
                   /\ 1 <= length chain <= S (unvisited allVulns visited))).
  { exists (Ok [name]). split; [reflexivity |].
    intros chain [= <-]. repeat split; simpl; lia. }
  case_bool_decide as Hin; [exact Hone |].
  destruct (member allVulns name) as [v | |] eqn:Hmember; [| exact Hone |].
  - destruct (effects v) as [| first rest]; [exact Hone |].
    pose proof (unvisited_lt allVulns visited name v (member_own _ _ Hmember) Hin) as Hlt.
    destruct (IH first (visited ∪ {[ name ]})) as (parent & -> & Hparent); [lia |].
    destruct parent as [parentPath |].
    + exists (Ok (parentPath ++ [name])%list). split; [reflexivity |].
      intros chain [= <-]. destruct (Hparent parentPath eq_refl) as (_ & Hlen).
      split; [apply last_snoc |].
      rewrite length_app. simpl. lia.
    + exists Throw. split; [reflexivity |]. discriminate.
  - exists Throw. split; [reflexivity |]. discriminate.
Qed.


(** An exception comes from a name that [Object.prototype] has and the
    map has not: the name asked for, or the first of the [effects] of an
    entry. *)
Lemma buildPathRecursive_throws fuel : forall name visited,
  buildPathRecursive allVulns fuel name visited = Some Throw ->
  raises allVulns name = true
  \/ Exists (fun entry => exists first rest,
                 effects (snd entry) = first :: rest
                 /\ raises allVulns first = true) allVulns.
Proof.
  induction fuel as [| fuel IH]; intros name visited H; [discriminate |].
  cbn [buildPathRecursive] in H.
  case_bool_decide; [discriminate |].
  unfold raises at 1.
  destruct (member allVulns name) as [v | |] eqn:Hmember; [| discriminate | now left].
  destruct (effects v) as [| first rest] eqn:Heffects; [discriminate |].
  destruct (buildPathRecursive allVulns fuel first _) as [[parent |] |] eqn:E;
    try discriminate.
  right. destruct (IH _ _ E) as [Hfirst | Hlater]; [| exact Hlater].
  apply List.Exists_exists. exists (name, v). split.
  - apply lookup_prop_In. now apply member_own.
  - now exists first, rest.
Qed.


(** The path starts with the package the entry is about. *)
Lemma buildNpmPath_starts_with_leaf (vuln : NpmVulnerability) (p : string) :
  buildNpmPath vuln allVulns = Ok p ->
  exists ancestors, p = JS.join " > " (npm_name vuln :: ancestors).
Proof.
  unfold buildNpmPath. destruct (effects vuln) as [| first rest].
  - intros [= <-]. now exists [].
  - destruct (buildPathRecursive_enough (path_fuel allVulns) (npm_name vuln) ∅)
      as (outcome & -> & Hchain).
    { pose proof (unvisited_bound allVulns ∅). unfold path_fuel. lia. }
    destruct outcome as [chain |]; cbn [from_option id mbind result_bind];
      [| discriminate].
    intros [= <-]. destruct (Hchain chain eq_refl) as (Hlast & _).
    destruct (rev chain) as [| x xs] eqn:E.
    + apply (f_equal (@rev _)) in E. rewrite rev_involutive in E. now subst.
    + exists xs. apply (f_equal (@rev _)) in E. rewrite rev_involutive in E.
      subst chain. simpl in Hlast. rewrite last_snoc in Hlast. now injection Hlast as ->.
Qed.

Lemma buildNpmPath_no_effects (vuln : NpmVulnerability) :
  effects vuln = [] -> buildNpmPath vuln allVulns = Ok (npm_name vuln).
Proof. intros H. unfold buildNpmPath. now rewrite H. Qed.

(** The path of an entry raises only when the recursion does. *)
Lemma buildNpmPath_throws (vuln : NpmVulnerability) :
  buildNpmPath vuln allVulns = Throw ->
  raises allVulns (npm_name vuln) = true
  \/ Exists (fun entry => exists first rest,
                 effects (snd entry) = first :: rest
                 /\ raises allVulns first = true) allVulns.
Proof.
  unfold buildNpmPath. destruct (effects vuln) as [| first rest]; [discriminate |].
  destruct (buildPathRecursive allVulns (path_fuel allVulns) (npm_name vuln) ∅)
    as [[chain |] |] eqn:E; cbn [from_option id mbind result_bind]; try discriminate.
  intros _. now apply (buildPathRecursive_throws _ _ _ E).
Qed.

End PathProperties.

(** The recursion on two packages that name each other. *)
Lemma buildPathRecursive_cycle :
  Audit.buildPathRecursive Fixtures.cyclic_vulns 3 "ping" ∅
  = Some (Ok ["ping"; "pong"; "ping"]).
Proof. vm_compute. reflexivity. Qed.


(** C3: on the report of the test suite the path of [nth-check] starts
    with [nth-check] itself and ends with [svgo], the package nearest to
    the root; the comment on the last line of [buildNpmPath] announces the
    opposite order. *)
Theorem buildNpmPath_leaf_first :
  Audit.buildNpmPath Fixtures.nth_check Fixtures.nth_check_vulns
  = Ok "nth-check > css-select > svgo".
Proof. vm_compute. reflexivity. Qed.

(** ** Package-manager detector *)

Section DetectProperties.
Import PackageManager.

Variable existsSync : string -> bool.
Variable join : string -> string -> string.
Variable readPackageJson : string -> option PackageJson.

Lemma detectLockfiles_unfolded projectPath :
  detectLockfiles existsSync join projectPath
  = ((if existsSync (join projectPath "bun.lock") then ["bun.lock"]
      else if existsSync (join projectPath "bun.lockb") then ["bun.lockb"] else [])
     ++ (if existsSync (join projectPath "pnpm-lock.yaml") then ["pnpm-lock.yaml"] else [])
     ++ (if existsSync (join projectPath "yarn.lock") then ["yarn.lock"] else [])
     ++ (if existsSync (join projectPath "package-lock.json") then ["package-lock.json"]
         else []))%list.
Proof.
  unfold detectLockfiles. simpl.
  destruct (existsSync (join projectPath "bun.lock")),
           (existsSync (join projectPath "bun.lockb")),
           (existsSync (join projectPath "pnpm-lock.yaml")),
           (existsSync (join projectPath "yarn.lock")),
           (existsSync (join projectPath "package-lock.json")); reflexivity.
Qed.

Lemma parseCorepackSpec_names (pm : PackageManagerName) (version : string) :
  parseCorepackSpec (name_text pm +:+ "@" +:+ version) = Some pm.
Proof. destruct pm; reflexivity. Qed.

Ltac by_lockfiles projectPath :=
  unfold detectPackageManager; rewrite (detectLockfiles_unfolded projectPath);
  destruct (existsSync (join projectPath "bun.lock")) eqn:Hbun,
           (existsSync (join projectPath "bun.lockb")) eqn:Hbunb,
           (existsSync (join projectPath "pnpm-lock.yaml")) eqn:Hpnpm,
           (existsSync (join projectPath "yarn.lock")) eqn:Hyarn,
           (existsSync (join projectPath "package-lock.json")) eqn:Hnpm.

(** C5: the lockfiles decide in the order bun, pnpm, yarn, npm; with the
    lockfiles of bun and of yarn the answer is bun, with both files listed
    and [hasMultipleLockfiles] set; with no lockfile a [packageManager]
    field of the form [name@version] decides, and npm is the answer
    otherwise. *)
Theorem detectPackageManager_priority (projectPath : string) :
  let info := detectPackageManager existsSync join readPackageJson projectPath in
  let found file := existsSync (join projectPath file) in
  (found "bun.lock" || found "bun.lockb" = true -> name info = bun)
  /\ (found "bun.lock" || found "bun.lockb" = false ->
      found "pnpm-lock.yaml" = true -> name info = pnpm)
  /\ (found "bun.lock" || found "bun.lockb" || found "pnpm-lock.yaml" = false ->
      found "yarn.lock" = true -> name info = yarn)
  /\ (found "bun.lock" || found "bun.lockb" || found "pnpm-lock.yaml"
        || found "yarn.lock" = false ->
      found "package-lock.json" = true -> name info = npm)
  /\ (found "bun.lock" = true -> found "yarn.lock" = true ->
      name info = bun /\ hasMultipleLockfiles info = true
      /\ In "bun.lock" (detectedLockfiles info) /\ In "yarn.lock" (detectedLockfiles info))
  /\ (found "bun.lock" || found "bun.lockb" || found "pnpm-lock.yaml"
        || found "yarn.lock" || found "package-lock.json" = false ->
      lockfile info = None
      /\ (forall pm version,
            readPackageJson projectPath ≫= packageManager
            = Some (name_text pm +:+ "@" +:+ version) ->
            name info = pm)
      /\ (readPackageJson projectPath ≫= packageManager = None -> name info = npm)
      /\ (forall spec,
            readPackageJson projectPath ≫= packageManager = Some spec ->
            parseCorepackSpec spec = None -> name info = npm)).
Proof.
  cbv zeta.
  by_lockfiles projectPath; cbn [orb]; repeat split; intros;
    try discriminate; try reflexivity; try (simpl; (tauto || auto 10)).
  - destruct (readPackageJson projectPath ≫= packageManager) as [spec |]; [| reflexivity].
    destruct (JS.is_empty spec); [reflexivity |].
    destruct (parseCorepackSpec spec) as [[] |]; reflexivity.
  - match goal with E : _ = Some _ |- _ => rewrite E end.
    destruct pm; reflexivity.
  - match goal with E : _ = None |- _ => rewrite E end. reflexivity.
  - repeat match goal with E : _ = _ |- _ => rewrite E; clear E end.
    now destruct (JS.is_empty spec).
Qed.

End DetectProperties.

Lemma detectPackageManager_priority_witness :
  let info := PackageManager.detectPackageManager Fixtures.bun_and_yarn Fixtures.join_paths
                (fun _ => None) "/repo" in
  PackageManager.name info = PackageManager.bun
  /\ PackageManager.hasMultipleLockfiles info = true
  /\ In "bun.lock" (PackageManager.detectedLockfiles info)
  /\ In "yarn.lock" (PackageManager.detectedLockfiles info).
Proof.
  cbv zeta.
  apply (detectPackageManager_priority Fixtures.bun_and_yarn Fixtures.join_paths
           (fun _ => None) "/repo"); reflexivity.
Defined.

(** ** Outdated-output normaliser *)

Section OutdatedProperties.
Import Json Deps.

Variable JSON_parse : string -> result json.





(** What one turn of the npm loop and of the pnpm loop does with an
    entry. *)
Lemma npm_entries_cons name info rest packages :
  npm_entries ((name, info) :: rest) packages
  = match versions_of info with
    | Some (c, l) =>
        npm_entries rest
          (packages ++ [ {| Deps.name := JStr name; current := c; latest := l;
                            updateType := Semver.getUpdateType c l;
                            isDevDep := false |} ])%list
    | None => Throw
    end.
Proof.
  destruct info as [| b | z | s | elems | props]; try reflexivity.
  cbn. destruct (lookup_prop "current" props) as [[| | | c | |] |];
    destruct (lookup_prop "latest" props) as [[| | | l | |] |]; reflexivity.
Qed.

Lemma pnpm_entries_cons name info rest packages :
  pnpm_entries ((name, info) :: rest) packages
  = match versions_of info with
    | Some (c, l) =>
        pnpm_entries rest
          (packages ++ [ {| Deps.name := JStr name; current := c; latest := l;
                            updateType := Semver.getUpdateType c l;
                            isDevDep := declared_dev info |} ])%list
    | None => Throw
    end.
Proof.
  destruct info as [| b | z | s | elems | props]; try reflexivity.
  cbn. destruct (lookup_prop "current" props) as [[| | | c | |] |];
    destruct (lookup_prop "latest" props) as [[| | | l | |] |]; reflexivity.
Qed.

Lemma npm_entries_all ents : forall packages,
  Forall (fun entry => versions_of (snd entry) <> None) ents ->
  exists more, npm_entries ents packages = Ok (packages ++ more)%list
               /\ Forall2 (describes (fun _ => false)) ents more.
Proof.
  induction ents as [| [name info] rest IH]; intros packages Hall.
  - exists []. split; [now rewrite app_nil_r | constructor].
  - inversion Hall as [| ? ? Hinfo Hrest]; subst. cbn [snd] in Hinfo.
    rewrite npm_entries_cons.
    destruct (versions_of info) as [[c l] |] eqn:E; [| congruence].
    destruct (IH (packages ++ [ {| Deps.name := JStr name; current := c; latest := l;
                                   updateType := Semver.getUpdateType c l;
                                   isDevDep := false |} ])%list Hrest)
      as (more & Hmore & Hdesc).
    eexists (_ :: more). split.
    + rewrite Hmore. now rewrite <- app_assoc.
    + constructor; [| exact Hdesc]. repeat split. exact E.
Qed.

Lemma npm_entries_bad ents : forall packages,
  Exists (fun entry => versions_of (snd entry) = None) ents ->
  npm_entries ents packages = Throw.
Proof.
  induction ents as [| [name info] rest IH]; intros packages Hex.
  - inversion Hex.
  - rewrite npm_entries_cons.
    destruct (versions_of info) as [[c l] |] eqn:E; [| reflexivity].
    apply IH. inversion Hex as [? ? Hhere | ? ? Hlater]; subst; [| exact Hlater].
    cbn in Hhere. congruence.
Qed.

Lemma pnpm_entries_all ents : forall packages,
  Forall (fun entry => versions_of (snd entry) <> None) ents ->
  exists more, pnpm_entries ents packages = Ok (packages ++ more)%list
               /\ Forall2 (describes declared_dev) ents more.
Proof.
  induction ents as [| [name info] rest IH]; intros packages Hall.
  - exists []. split; [now rewrite app_nil_r | constructor].
  - inversion Hall as [| ? ? Hinfo Hrest]; subst. cbn [snd] in Hinfo.
    rewrite pnpm_entries_cons.
    destruct (versions_of info) as [[c l] |] eqn:E; [| congruence].
    destruct (IH (packages ++ [ {| Deps.name := JStr name; current := c; latest := l;
                                   updateType := Semver.getUpdateType c l;
                                   isDevDep := declared_dev info |} ])%list Hrest)
      as (more & Hmore & Hdesc).
    eexists (_ :: more). split.
    + rewrite Hmore. now rewrite <- app_assoc.
    + constructor; [| exact Hdesc]. repeat split. exact E.
Qed.

Lemma pnpm_entries_bad ents : forall packages,
  Exists (fun entry => versions_of (snd entry) = None) ents ->
  pnpm_entries ents packages = Throw.
Proof.
  induction ents as [| [name info] rest IH]; intros packages Hex.
  - inversion Hex.
  - rewrite pnpm_entries_cons.
    destruct (versions_of info) as [[c l] |] eqn:E; [| reflexivity].
    apply IH. inversion Hex as [? ? Hhere | ? ? Hlater]; subst; [| exact Hlater].
    cbn in Hhere. congruence.
Qed.

(** *** The loops only add packages *)






(** *** The lines and rows that give nothing *)








End OutdatedProperties.



(** * Further properties *)

(** ** Version comparator: the order of versions *)

Section SemverOrder.
Import Semver.

Ltac compare_components :=
  repeat match goal with
         | |- context [N.ltb ?a ?b] => destruct (N.ltb_spec a b)
         | H : context [N.ltb ?a ?b] |- _ => destruct (N.ltb_spec a b)
         | |- context [N.eqb ?a ?b] => destruct (N.eqb_spec a b)
         end; simpl in *; try reflexivity; try discriminate; try lia.

(** X1: [compareSemver] is antisymmetric on all strings: swapping the
    arguments negates the result, so a version compares equal to itself
    and [a < b] is reported exactly when [b > a] is. *)
Theorem compareSemver_antisymmetric (a b : string) :
  compareSemver a b = (- compareSemver b a)%Z /\ compareSemver a a = 0%Z.
Proof.
  unfold compareSemver. split.
  - destruct (parseSemver a) as [pa |], (parseSemver b) as [pb |]; try reflexivity.
    compare_components.
  - destruct (parseSemver a) as [pa |]; try reflexivity. now rewrite !N.ltb_irrefl.
Qed.

(** X2: the strict order reported by [compareSemver] is transitive on
    all strings: from [a < b] and [b < c] it reports [a < c]. *)
Theorem compareSemver_transitive (a b c : string) :
  compareSemver a b = (-1)%Z -> compareSemver b c = (-1)%Z ->
  compareSemver a c = (-1)%Z.
Proof.
  unfold compareSemver.
  destruct (parseSemver a) as [pa |], (parseSemver b) as [pb |],
    (parseSemver c) as [pc |]; try discriminate.
  intros Hab Hbc. compare_components.
Qed.

Lemma compareSemver_transitive_witness :
  compareSemver "1.9.9" "v1.10.0-rc.1" = (-1)%Z
  /\ compareSemver "v1.10.0-rc.1" "2.0.0" = (-1)%Z
  /\ compareSemver "1.9.9" "2.0.0" = (-1)%Z.
Proof.
  split; [reflexivity |]. split; [reflexivity |].
  apply (compareSemver_transitive "1.9.9" "v1.10.0-rc.1" "2.0.0"); reflexivity.
Defined.

(** X3: [getUpdateType] reports an update (major, minor or patch)
    exactly when [compareSemver] orders the current version strictly
    before the latest one. *)
Theorem getUpdateType_iff_older (current latest : string) :
  getUpdateType current latest <> none <-> compareSemver current latest = (-1)%Z.
Proof.
  unfold getUpdateType, compareSemver.
  destruct (parseSemver current) as [c |], (parseSemver latest) as [l |];
    try (split; [congruence | discriminate]).
  split.
  - intros H. compare_components; exfalso; apply H; compare_components.
  - intros H. compare_components.
Qed.

(** X4: [isValidSemver] accepts exactly the texts of the form
    [vMAJOR.MINOR.PATCH-prerelease+build], in which the [v] and the two
    tags are optional and the three numbers are runs of decimal digits
    (leading zeros included). *)
Theorem isValidSemver_grammar (version : string) :
  isValidSemver version = true <-> exists parts, semver_text version parts.
Proof.
  unfold isValidSemver. split.
  - destruct (parseSemver version) as [parts |] eqn:E; [| discriminate].
    intros _. exists parts. now apply parseSemver_grammar.
  - intros [parts H]. apply parseSemver_grammar in H. now rewrite H.
Qed.

End SemverOrder.

(** ** Outdated-output normaliser: the entries of a report *)

Section OutdatedEntries.
Import Json Deps.

Variable JSON_parse : string -> result json.

(** X5: the npm and the pnpm parser are all-or-nothing on a report that
    is an object.  When [current] and [latest] are strings in every
    entry, the result has one package per entry, in the order of the
    report, with the entry's name and versions; as soon as one entry
    lacks one of the two strings, [getUpdateType] raises on it, the
    [catch] block answers, and the result is the empty list: the
    well-formed entries are lost with it. *)
Theorem outdated_entries_all_or_nothing (output : string) (props : list (string * json)) :
  JS.is_empty (JS.trim output) = false ->
  JSON_parse output = Ok (JObj props) ->
  (Forall (fun entry => versions_of (snd entry) <> None) props ->
   exists npm_packages pnpm_packages,
     parseNpmOutdated JSON_parse output = Ok npm_packages
     /\ Forall2 (describes (fun _ => false)) props npm_packages
     /\ parsePnpmOutdated JSON_parse output = Ok pnpm_packages
     /\ Forall2 (describes declared_dev) props pnpm_packages)
  /\ (Exists (fun entry => versions_of (snd entry) = None) props ->
      parseNpmOutdated JSON_parse output = Ok []
      /\ parsePnpmOutdated JSON_parse output = Ok []).
Proof.
  intros Hblank Hparse. unfold parseNpmOutdated, parsePnpmOutdated.
  rewrite Hblank, Hparse. cbn [mbind result_bind entries]. split.
  - intros Hall.
    destruct (npm_entries_all props [] Hall) as (npm_packages & Hnpm & Hnpm_desc).
    destruct (pnpm_entries_all props [] Hall) as (pnpm_packages & Hpnpm & Hpnpm_desc).
    exists npm_packages, pnpm_packages. rewrite Hnpm, Hpnpm. repeat split; assumption.
  - intros Hex. rewrite (npm_entries_bad props [] Hex), (pnpm_entries_bad props [] Hex).
    split; reflexivity.
Qed.

End OutdatedEntries.

Lemma outdated_entries_all_or_nothing_witness :
  (exists npm_packages,
     Deps.parseNpmOutdated
       (Fixtures.reads "npm outdated" (Json.JObj Fixtures.outdated_report)) "npm outdated"
     = Ok npm_packages
     /\ Forall2 (Deps.describes (fun _ => false)) Fixtures.outdated_report npm_packages)
  /\ Deps.parseNpmOutdated
       (Fixtures.reads "npm outdated" (Json.JObj Fixtures.outdated_report_not_installed))
       "npm outdated" = Ok [].
Proof.
  split.
  - destruct (outdated_entries_all_or_nothing
                (Fixtures.reads "npm outdated" (Json.JObj Fixtures.outdated_report))
                "npm outdated" Fixtures.outdated_report eq_refl eq_refl) as [Hall _].
    destruct Hall as (npm_packages & pnpm_packages & Hnpm & Hdesc & _).
    + repeat constructor; discriminate.
    + now exists npm_packages.
  - destruct (outdated_entries_all_or_nothing
                (Fixtures.reads "npm outdated"
                   (Json.JObj Fixtures.outdated_report_not_installed))
                "npm outdated" Fixtures.outdated_report_not_installed eq_refl eq_refl)
      as [_ Hbad].
    apply Hbad. apply Exists_cons_tl, Exists_cons_hd. reflexivity.
Defined.

Section OutdatedInvariant.
Import Json Deps.

Variable JSON_parse : string -> result json.

Lemma outdated_entry_inv (P : OutdatedPackage -> Prop) n c l dev p :
  (forall cs ls, P {| name := n; current := cs; latest := ls;
                      updateType := Semver.getUpdateType cs ls; isDevDep := dev |}) ->
  outdated_entry n c l dev = Ok p -> P p.
Proof.
  intros HP. unfold outdated_entry.
  destruct c as [[| | | cs | |] |]; try discriminate.
  destruct l as [[| | | ls | |] |]; try discriminate.
  intros [= <-]. apply HP.
Qed.

Lemma npm_entries_inv (P : OutdatedPackage -> Prop) :
  (forall n cs ls, P {| name := n; current := cs; latest := ls;
                        updateType := Semver.getUpdateType cs ls; isDevDep := false |}) ->
  forall ents packages l,
    Forall P packages -> npm_entries ents packages = Ok l -> Forall P l.
Proof.
  intros HP. induction ents as [| [n info] rest IH]; intros packages l Hacc.
  - cbn. now intros [= <-].
  - rewrite npm_entries_cons. destruct (versions_of info) as [[c v] |]; [| discriminate].
    apply IH. apply Forall_app. split; [exact Hacc |]. constructor; [apply HP | constructor].
Qed.

Lemma pnpm_entries_inv (P : OutdatedPackage -> Prop) :
  (forall n cs ls dev, P {| name := n; current := cs; latest := ls;
                            updateType := Semver.getUpdateType cs ls; isDevDep := dev |}) ->
  forall ents packages l,
    Forall P packages -> pnpm_entries ents packages = Ok l -> Forall P l.
Proof.
  intros HP. induction ents as [| [n info] rest IH]; intros packages l Hacc.
  - cbn. now intros [= <-].
  - rewrite pnpm_entries_cons. destruct (versions_of info) as [[c v] |]; [| discriminate].
    apply IH. apply Forall_app. split; [exact Hacc |]. constructor; [apply HP | constructor].
Qed.

Lemma yarn_rows_inv (P : OutdatedPackage -> Prop) a b c d :
  (forall n cs ls dev, P {| name := n; current := cs; latest := ls;
                            updateType := Semver.getUpdateType cs ls; isDevDep := dev |}) ->
  forall rows packages,
    Forall P packages -> Forall P (yarn_rows a b c d rows packages).
Proof.
  intros HP. induction rows as [| row rest IH]; intros packages Hacc; [exact Hacc |].
  cbn [yarn_rows]. destruct (yarn_row a b c d row) as [[pkg |] |] eqn:E.
  - apply IH. apply Forall_app. split; [exact Hacc |]. constructor; [| constructor].
    unfold yarn_row in E.
    destruct (at_index (Some row) (Z.to_nat a)) as [n |];
      cbn [mbind result_bind] in E; [| discriminate].
    destruct (at_index (Some row) (Z.to_nat b)) as [cur |];
      cbn [mbind result_bind] in E; [| discriminate].
    destruct (at_index (Some row) (Z.to_nat c)) as [lat |];
      cbn [mbind result_bind] in E; [| discriminate].
    destruct (if (d =? -1)%Z then _ else _) as [ty |];
      cbn [mbind result_bind] in E; [| discriminate].
    destruct n as [n |]; [| discriminate].
    destruct (truthy (Some n) && truthy cur && truthy lat); [| discriminate].
    destruct (outdated_entry n cur lat _) as [p |] eqn:Ep;
      cbn [mbind result_bind] in E; [| discriminate].
    injection E as <-. eapply outdated_entry_inv; [| exact Ep].
    intros cs ls. apply HP.
  - now apply IH.
  - exact Hacc.
Qed.

Lemma yarn_line_inv (P : OutdatedPackage -> Prop) line packages :
  (forall n cs ls dev, P {| name := n; current := cs; latest := ls;
                            updateType := Semver.getUpdateType cs ls; isDevDep := dev |}) ->
  Forall P packages -> Forall P (yarn_line JSON_parse line packages).
Proof.
  intros HP Hacc. unfold yarn_line.
  destruct (JSON_parse line) as [parsed |]; [| exact Hacc].
  destruct (get (Some parsed) "type") as [type |]; [| exact Hacc].
  destruct (is_string type "table"); [| exact Hacc].
  destruct (yarn_table parsed) as [[[[[[a b] c] d] rows] |] |]; try exact Hacc.
  now apply yarn_rows_inv.
Qed.

Lemma bun_line_inv (P : OutdatedPackage -> Prop) line packages :
  (forall n cs ls dev, P {| name := n; current := cs; latest := ls;
                            updateType := Semver.getUpdateType cs ls; isDevDep := dev |}) ->
  Forall P packages -> Forall P (bun_line line packages).
Proof.
  intros HP Hacc. unfold bun_line.
  destruct (_ || _); [exact Hacc |].
  destruct (bun_cells line) as [| nameCell [| currentCell [| u [| latestCell rest]]]];
    try exact Hacc.
  destruct (_ || _); [exact Hacc |].
  destruct (_ && _); [| exact Hacc].
  apply Forall_app. split; [exact Hacc |]. constructor; [apply HP | constructor].
Qed.

Lemma fold_inv {A B} (P : A -> Prop) (step : B -> A -> A) (l : list B) :
  (forall x acc, P acc -> P (step x acc)) ->
  forall start, P start -> P (fold_left (fun acc x => step x acc) l start).
Proof.
  intros Hstep. induction l as [| x rest IH]; intros start Hstart; [exact Hstart |].
  cbn [fold_left]. apply IH. now apply Hstep.
Qed.

Lemma parseNpmOutdated_inv (P : OutdatedPackage -> Prop) output :
  (forall n cs ls, P {| name := n; current := cs; latest := ls;
                        updateType := Semver.getUpdateType cs ls; isDevDep := false |}) ->
  exists l, parseNpmOutdated JSON_parse output = Ok l /\ Forall P l.
Proof.
  intros HP. unfold parseNpmOutdated.
  destruct (JS.is_empty _); [exists []; split; [reflexivity | constructor] |].
  eexists. split; [reflexivity |].
  destruct (JSON_parse output) as [data |];
    cbn [mbind result_bind try_catch]; [| constructor].
  destruct (entries (Some data)) as [ents |];
    cbn [mbind result_bind try_catch]; [| constructor].
  destruct (npm_entries ents []) as [l |] eqn:E; cbn [try_catch]; [| constructor].
  eapply npm_entries_inv; [exact HP | constructor | exact E].
Qed.

Lemma parsePnpmOutdated_inv (P : OutdatedPackage -> Prop) output :
  (forall n cs ls dev, P {| name := n; current := cs; latest := ls;
                            updateType := Semver.getUpdateType cs ls; isDevDep := dev |}) ->
  exists l, parsePnpmOutdated JSON_parse output = Ok l /\ Forall P l.
Proof.
  intros HP. unfold parsePnpmOutdated.
  destruct (JS.is_empty _); [exists []; split; [reflexivity | constructor] |].
  eexists. split; [reflexivity |].
  destruct (JSON_parse output) as [data |];
    cbn [mbind result_bind try_catch]; [| constructor].
  destruct (entries (Some data)) as [ents |];
    cbn [mbind result_bind try_catch]; [| constructor].
  destruct (pnpm_entries ents []) as [l |] eqn:E; cbn [try_catch]; [| constructor].
  eapply pnpm_entries_inv; [exact HP | constructor | exact E].
Qed.

Lemma parseYarnOutdated_inv (P : OutdatedPackage -> Prop) output :
  (forall n cs ls dev, P {| name := n; current := cs; latest := ls;
                            updateType := Semver.getUpdateType cs ls; isDevDep := dev |}) ->
  exists l, parseYarnOutdated JSON_parse output = Ok l /\ Forall P l.
Proof.
  intros HP. unfold parseYarnOutdated.
  destruct (JS.is_empty _); [exists []; split; [reflexivity | constructor] |].
  eexists. split; [reflexivity |].
  apply (fold_inv (Forall P) (yarn_line JSON_parse)); [| constructor].
  intros line acc Hacc. now apply yarn_line_inv.
Qed.

Lemma parseBunOutdated_inv (P : OutdatedPackage -> Prop) output :
  (forall n cs ls dev, P {| name := n; current := cs; latest := ls;
                            updateType := Semver.getUpdateType cs ls; isDevDep := dev |}) ->
  exists l, parseBunOutdated output = Ok l /\ Forall P l.
Proof.
  intros HP. unfold parseBunOutdated. eexists. split; [reflexivity |].
  apply (fold_inv (Forall P) bun_line); [| constructor].
  intros line acc Hacc. now apply bun_line_inv.
Qed.

(** X6: whatever the text, every package that one of the four outdated
    parsers returns carries the update type of its own two versions,
    [getUpdateType current latest]; and the npm parser never marks a
    package as a development dependency. *)
Theorem outdated_update_types_consistent (output : string) :
  exists npm_packages pnpm_packages yarn_packages bun_packages,
    parseNpmOutdated JSON_parse output = Ok npm_packages
    /\ parsePnpmOutdated JSON_parse output = Ok pnpm_packages
    /\ parseYarnOutdated JSON_parse output = Ok yarn_packages
    /\ parseBunOutdated output = Ok bun_packages
    /\ Forall (fun p => updateType p = Semver.getUpdateType (current p) (latest p)
                        /\ isDevDep p = false) npm_packages
    /\ Forall (fun p => updateType p = Semver.getUpdateType (current p) (latest p))
         (pnpm_packages ++ yarn_packages ++ bun_packages).
Proof.
  destruct (parseNpmOutdated_inv
              (fun p => updateType p = Semver.getUpdateType (current p) (latest p)
                        /\ isDevDep p = false) output) as (npm_packages & Hnpm & Pnpm);
    [intros; split; reflexivity |].
  destruct (parsePnpmOutdated_inv
              (fun p => updateType p = Semver.getUpdateType (current p) (latest p)) output)
    as (pnpm_packages & Hpnpm & Ppnpm); [reflexivity |].
  destruct (parseYarnOutdated_inv
              (fun p => updateType p = Semver.getUpdateType (current p) (latest p)) output)
    as (yarn_packages & Hyarn & Pyarn); [reflexivity |].
  destruct (parseBunOutdated_inv
              (fun p => updateType p = Semver.getUpdateType (current p) (latest p)) output)
    as (bun_packages & Hbun & Pbun); [reflexivity |].
  exists npm_packages, pnpm_packages, yarn_packages, bun_packages.
  rewrite !Forall_app. auto 10.
Qed.

End OutdatedInvariant.

(** ** Dependency analyzer *)

Section DepsSecurity.

(** The text of a report as audit.ts reads it and as deps.ts reads it,
    each at the types it declares. *)
Variable JSON_parse_npm : string -> result Audit.NpmAuditOutput.
Variable JSON_parse_pnpm : string -> result Audit.PnpmAuditOutput.
Variable deps_parse_npm : string -> result DepsAnalysis.NpmAuditOutput.
Variable deps_parse_pnpm : string -> result DepsAnalysis.PnpmAuditOutput.
Variable JSON_parse_yarn : string -> result Audit.YarnLine.

Lemma deps_npm_counts output data :
  JS.is_empty (JS.trim output) = false ->
  deps_parse_npm output = Ok (DepsAnalysis.npm_counts data) ->
  DepsAnalysis.parseNpmAudit deps_parse_npm output
  = option_map DepsAnalysis.summary_of
      (Audit.npm_metadata data ≫= Audit.meta_vulnerabilities).
Proof.
  intros Hblank Hdeps. unfold DepsAnalysis.parseNpmAudit. rewrite Hblank, Hdeps.
  cbn [mbind result_bind DepsAnalysis.npm_metadata DepsAnalysis.npm_counts].
  now destruct (Audit.npm_metadata data ≫= Audit.meta_vulnerabilities).
Qed.

Lemma audit_npm_report output data :
  JS.is_empty (JS.trim output) = false ->
  JSON_parse_npm output = Ok data ->
  Audit.parseNpmAudit JSON_parse_npm output = try_catch (Audit.npm_report data) None.
Proof.
  intros Hblank Hparse. unfold Audit.parseNpmAudit. now rewrite Hblank, Hparse.
Qed.

Lemma npm_report_counts data :
  match Audit.npm_report data with
  | Ok res =>
      option_map DepsAnalysis.buckets res
      = option_map DepsAnalysis.summary_of
          (Audit.npm_metadata data ≫= Audit.meta_vulnerabilities)
  | Throw => Audit.npm_metadata data ≫= Audit.meta_vulnerabilities <> None
  end.
Proof.
  unfold Audit.npm_report.
  destruct (Audit.npm_metadata data ≫= Audit.meta_vulnerabilities) as [meta |];
    [| reflexivity].
  destruct (Audit.npm_loop _ _ _); cbn [mbind result_bind]; [reflexivity | discriminate].
Qed.

(** X7: the security summary that the dependency analyzer reads from an
    npm or pnpm audit report, against the one of the audit normaliser on
    the same report.  Both answer nothing for a blank text and for a text
    that is not JSON.  For an npm report, whenever the normaliser returns
    a result the analyzer returns its four severity counts; the analyzer,
    which reads the counts alone, also returns them where the normaliser
    answers nothing because building a path raised, and nowhere else do
    the two differ.  For a pnpm report the two agree: nothing for the
    same reports, and otherwise the same four counts. *)
Theorem deps_security_agrees_with_audit (output : string) :
  (JS.is_empty (JS.trim output) = true
   \/ (JSON_parse_npm output = Throw /\ deps_parse_npm output = Throw) ->
   Audit.parseNpmAudit JSON_parse_npm output = None
   /\ DepsAnalysis.parseNpmAudit deps_parse_npm output = None)
  /\ (JS.is_empty (JS.trim output) = true
      \/ (JSON_parse_pnpm output = Throw /\ deps_parse_pnpm output = Throw) ->
      Audit.parsePnpmAudit JSON_parse_pnpm output = None
      /\ DepsAnalysis.parsePnpmAudit deps_parse_pnpm output = None)
  /\ (forall data,
        JS.is_empty (JS.trim output) = false ->
        JSON_parse_npm output = Ok data ->
        deps_parse_npm output = Ok (DepsAnalysis.npm_counts data) ->
        (forall r, Audit.parseNpmAudit JSON_parse_npm output = Some r ->
           DepsAnalysis.parseNpmAudit deps_parse_npm output
           = Some (DepsAnalysis.buckets r))
        /\ (Audit.npm_report data = Throw ->
            Audit.parseNpmAudit JSON_parse_npm output = None
            /\ exists meta,
                 Audit.npm_metadata data ≫= Audit.meta_vulnerabilities = Some meta
                 /\ DepsAnalysis.parseNpmAudit deps_parse_npm output
                    = Some (DepsAnalysis.summary_of meta))
        /\ (Audit.npm_report data <> Throw ->
            DepsAnalysis.parseNpmAudit deps_parse_npm output
            = option_map DepsAnalysis.buckets
                (Audit.parseNpmAudit JSON_parse_npm output)))
  /\ (forall data,
        JSON_parse_pnpm output = Ok data ->
        deps_parse_pnpm output = Ok (DepsAnalysis.pnpm_counts data) ->
        DepsAnalysis.parsePnpmAudit deps_parse_pnpm output
        = option_map DepsAnalysis.buckets
            (Audit.parsePnpmAudit JSON_parse_pnpm output)).
Proof.
  split; [| split; [| split]].
  - unfold Audit.parseNpmAudit, DepsAnalysis.parseNpmAudit.
    intros [-> | [-> ->]]; [split; reflexivity |].
    destruct (JS.is_empty _); split; reflexivity.
  - unfold Audit.parsePnpmAudit, DepsAnalysis.parsePnpmAudit.
    intros [-> | [-> ->]]; [split; reflexivity |].
    destruct (JS.is_empty _); split; reflexivity.
  - intros data Hblank Hparse Hdeps.
    rewrite (deps_npm_counts _ _ Hblank Hdeps), (audit_npm_report _ _ Hblank Hparse).
    pose proof (npm_report_counts data) as Hcounts.
    destruct (Audit.npm_report data) as [res |]; cbn [try_catch]; split; [| split | | split].
    + intros r ->. now rewrite <- Hcounts.
    + discriminate.
    + intros _. now rewrite <- Hcounts.
    + discriminate.
    + intros _. split; [reflexivity |].
      destruct (Audit.npm_metadata data ≫= Audit.meta_vulnerabilities) as [meta |];
        [| congruence].
      now exists meta.
    + congruence.
  - intros data Hparse Hdeps.
    unfold DepsAnalysis.parsePnpmAudit, Audit.parsePnpmAudit.
    destruct (JS.is_empty _); [reflexivity |]. rewrite Hparse, Hdeps.
    cbn [mbind result_bind try_catch DepsAnalysis.pnpm_error
         DepsAnalysis.pnpm_metadata DepsAnalysis.pnpm_counts].
    unfold Audit.pnpm_report.
    destruct (Audit.pnpm_error data); [reflexivity |].
    destruct (Audit.pnpm_metadata data ≫= Audit.meta_vulnerabilities); reflexivity.
Qed.

Lemma yarn_summary_first lines :
  DepsAnalysis.yarn_summary JSON_parse_yarn lines
  = option_map DepsAnalysis.summary_of
      (head (Audit.summary_counts JSON_parse_yarn lines)).
Proof.
  induction lines as [| line rest IH]; [reflexivity |].
  cbn [DepsAnalysis.yarn_summary]. unfold Audit.summary_counts. cbn [omap list_omap].
  destruct (JSON_parse_yarn line) as [[data | vulns |] |]; try exact IH. reflexivity.
Qed.

Lemma yarn_audit_last lines : forall vulns summary,
  snd (fold_left (fun state line => Audit.yarn_audit_line JSON_parse_yarn line state)
         lines (vulns, summary))
  = match last (Audit.summary_counts JSON_parse_yarn lines) with
    | Some counts => Some (Audit.summed_summary counts)
    | None => summary
    end.
Proof.
  induction lines as [| line rest IH]; intros vulns summary; [reflexivity |].
  cbn [fold_left]. unfold Audit.summary_counts. cbn [omap list_omap].
  unfold Audit.yarn_audit_line at 2.
  destruct (JSON_parse_yarn line) as [[data | counts |] |]; rewrite IH; try reflexivity.
  fold (Audit.summary_counts JSON_parse_yarn rest).
  rewrite last_cons. now destruct (last _).
Qed.

(** X8: of a yarn audit report with several summary lines, the
    dependency analyzer reads the first one and the audit normaliser the
    last one; the two agree when the report has one summary line, as
    yarn prints it. *)
Theorem yarn_summary_first_and_last (output : string) :
  JS.is_empty (JS.trim output) = false ->
  let counts :=
    Audit.summary_counts JSON_parse_yarn (JS.split Deps.newline (JS.trim output)) in
  DepsAnalysis.parseYarnAudit JSON_parse_yarn output
  = option_map DepsAnalysis.summary_of (head counts)
  /\ (forall c, last counts = Some c ->
       exists r, Audit.parseYarnAudit JSON_parse_yarn output = Some r
                 /\ Audit.summary r = Audit.summed_summary c)
  /\ (forall c, counts = [c] ->
       DepsAnalysis.parseYarnAudit JSON_parse_yarn output
       = option_map DepsAnalysis.buckets (Audit.parseYarnAudit JSON_parse_yarn output)).
Proof.
  intros Hblank counts.
  assert (Hlast : forall c, last counts = Some c ->
            exists r, Audit.parseYarnAudit JSON_parse_yarn output = Some r
                      /\ Audit.summary r = Audit.summed_summary c).
  { intros c Hc. unfold Audit.parseYarnAudit. rewrite Hblank.
    pose proof (yarn_audit_last (JS.split Deps.newline (JS.trim output)) [] None) as H.
    fold counts in H. rewrite Hc in H.
    destruct (fold_left _ _ _) as [vulns summary]. cbn [snd] in H. subst summary.
    eexists. split; reflexivity. }
  assert (Hfirst : DepsAnalysis.parseYarnAudit JSON_parse_yarn output
                   = option_map DepsAnalysis.summary_of (head counts)).
  { unfold DepsAnalysis.parseYarnAudit. rewrite Hblank. apply yarn_summary_first. }
  split; [exact Hfirst |]. split; [exact Hlast |].
  intros c Hc. rewrite Hfirst. destruct (Hlast c) as (r & Hr & Hs); [now rewrite Hc |].
  rewrite Hr, Hc. cbn. unfold DepsAnalysis.buckets. now rewrite Hs.
Qed.

End DepsSecurity.

Lemma deps_security_agrees_with_audit_witness :
  Audit.parseNpmAudit (Fixtures.reads "npm audit" Fixtures.left_pad_report) "npm audit"
  = None
  /\ DepsAnalysis.parseNpmAudit
       (Fixtures.reads "npm audit" (DepsAnalysis.npm_counts Fixtures.left_pad_report))
       "npm audit"
     = Some {| DepsAnalysis.critical := 0; DepsAnalysis.high := 2;
               DepsAnalysis.moderate := 0; DepsAnalysis.low := 0 |}
  /\ exists r,
       Audit.parseNpmAudit (Fixtures.reads "npm audit" Fixtures.nth_check_report)
         "npm audit" = Some r
       /\ DepsAnalysis.parseNpmAudit
            (Fixtures.reads "npm audit" (DepsAnalysis.npm_counts Fixtures.nth_check_report))
            "npm audit"
          = Some (DepsAnalysis.buckets r).
Proof.
  destruct (deps_security_agrees_with_audit
              (Fixtures.reads "npm audit" Fixtures.left_pad_report) (fun _ => Throw)
              (Fixtures.reads "npm audit" (DepsAnalysis.npm_counts Fixtures.left_pad_report))
              (fun _ => Throw) "npm audit")
    as (_ & _ & Hraises & _).
  destruct (Hraises Fixtures.left_pad_report eq_refl eq_refl eq_refl)
    as (_ & Hthrow & _).
  destruct (Hthrow eq_refl) as (Hnone & meta & Hmeta & Hcounts).
  split; [exact Hnone |]. split.
  - rewrite Hcounts. injection Hmeta as <-. reflexivity.
  - destruct (deps_security_agrees_with_audit
                (Fixtures.reads "npm audit" Fixtures.nth_check_report) (fun _ => Throw)
                (Fixtures.reads "npm audit"
                   (DepsAnalysis.npm_counts Fixtures.nth_check_report))
                (fun _ => Throw) "npm audit")
      as (_ & _ & Hagrees & _).
    destruct (Hagrees Fixtures.nth_check_report eq_refl eq_refl eq_refl)
      as (Hsome & _).
    eexists. split; [reflexivity |]. apply Hsome. reflexivity.
Defined.

Lemma yarn_summary_first_and_last_witness :
  DepsAnalysis.parseYarnAudit Fixtures.two_summaries
    ("first summary" +:+ String Deps.newline "second summary")
  = Some {| DepsAnalysis.critical := 0; DepsAnalysis.high := 1;
            DepsAnalysis.moderate := 0; DepsAnalysis.low := 0 |}
  /\ exists r,
       Audit.parseYarnAudit Fixtures.two_summaries
         ("first summary" +:+ String Deps.newline "second summary") = Some r
       /\ Audit.critical (Audit.summary r) = 2%Z /\ Audit.high (Audit.summary r) = 0%Z.
Proof.
  destruct (yarn_summary_first_and_last Fixtures.two_summaries
              ("first summary" +:+ String Deps.newline "second summary") eq_refl)
    as (Hfirst & Hlast & _).
  split; [exact Hfirst |].
  destruct (Hlast (Fixtures.counts 0 0 0 0 2 None) eq_refl) as (r & Hr & Hs).
  exists r. split; [exact Hr |]. rewrite Hs. split; reflexivity.
Defined.

Section DepsCounts.
Import DepsAnalysis.

Variable JSON_parse : string -> result Json.json.
Variable JSON_parse_npm : string -> result NpmAuditOutput.
Variable JSON_parse_pnpm : string -> result PnpmAuditOutput.
Variable JSON_parse_yarn : string -> result Audit.YarnLine.
Variable existsSync : string -> bool.
Variable join : string -> string -> string.
Variable readPackageJson : string -> option PackageManager.PackageJson.
Variable exec : string -> list string -> string -> result Exec.ExecResult.
Variable countTotalDependencies : string -> nat.

Lemma count_updates_partition packages :
  (count_updates Semver.major_update packages + count_updates Semver.minor_update packages
   + count_updates Semver.patch_update packages + count_updates Semver.none packages
   = Z.of_nat (length packages))%Z.
Proof.
  unfold count_updates. induction packages as [| p rest IH]; [reflexivity |].
  cbn [List.filter length]. destruct (Deps.updateType p); cbn [updateType_eqb length]; lia.
Qed.

(** X9: a dependency analysis that completes reports as [outdated] the
    number of packages it lists; its [major], [minor] and [patch] counts
    and the packages with no update between their versions add up to
    that number; and it carries no security summary unless one was asked
    for. *)
Theorem analyzeDeps_counts (cwd : string) (includeSecurity : bool) (r : DepsAnalysis) :
  analyzeDeps JSON_parse JSON_parse_npm JSON_parse_pnpm JSON_parse_yarn
    existsSync join readPackageJson exec countTotalDependencies cwd includeSecurity = Ok r ->
  outdated r = Z.of_nat (length (packages r))
  /\ (major r + minor r + patch r + count_updates Semver.none (packages r) = outdated r)%Z
  /\ (0 <= major r /\ 0 <= minor r /\ 0 <= patch r /\ 0 <= total r)%Z
  /\ (includeSecurity = false -> security r = None).
Proof.
  unfold analyzeDeps.
  destruct (runOutdatedCheck _ _ _) as [outdatedResult |];
    cbn [mbind result_bind]; [| discriminate].
  destruct (parseOutdatedOutput _ _ _) as [pkgs |];
    cbn [mbind result_bind]; [| discriminate].
  destruct includeSecurity.
  - destruct (runAuditCheck _ _ _) as [auditResult |];
      cbn [mbind result_bind]; [| discriminate].
    intros [= <-]. cbn [outdated packages major minor patch total security].
    split; [reflexivity |]. split; [apply count_updates_partition |].
    split; [unfold count_updates; lia | discriminate].
  - cbn [mbind result_bind]. intros [= <-].
    cbn [outdated packages major minor patch total security].
    split; [reflexivity |]. split; [apply count_updates_partition |].
    split; [unfold count_updates; lia | reflexivity].
Qed.

End DepsCounts.

Lemma analyzeDeps_counts_witness :
  exists r,
    DepsAnalysis.analyzeDeps
      (Fixtures.reads "npm outdated" (Json.JObj Fixtures.outdated_report))
      (Fixtures.reads "npm audit" (DepsAnalysis.npm_counts Fixtures.nth_check_report))
      (Fixtures.reads "pnpm audit"
         (DepsAnalysis.pnpm_counts (Fixtures.pnpm_report_of ">=2.0.0")))
      Fixtures.two_summaries
      Fixtures.no_files Fixtures.join_paths Fixtures.no_manifest
      (Fixtures.prints "npm outdated") (fun _ => 7) "/repo" false = Ok r
    /\ DepsAnalysis.outdated r = 2%Z /\ DepsAnalysis.major r = 1%Z
    /\ DepsAnalysis.patch r = 1%Z /\ DepsAnalysis.security r = None.
Proof.
  eexists. split; [reflexivity |].
  pose proof (analyzeDeps_counts
                (Fixtures.reads "npm outdated" (Json.JObj Fixtures.outdated_report))
                (Fixtures.reads "npm audit"
                   (DepsAnalysis.npm_counts Fixtures.nth_check_report))
                (Fixtures.reads "pnpm audit"
                   (DepsAnalysis.pnpm_counts (Fixtures.pnpm_report_of ">=2.0.0")))
                Fixtures.two_summaries
                Fixtures.no_files Fixtures.join_paths Fixtures.no_manifest
                (Fixtures.prints "npm outdated") (fun _ => 7) "/repo" false _ eq_refl)
    as (Hout & _ & _ & Hsec).
  split; [exact Hout |]. split; [reflexivity |]. split; [reflexivity |].
  exact (Hsec eq_refl).
Defined.

(** ** Package-manager detector: the record returned *)

Section DetectRecord.
Import PackageManager.

Variable existsSync : string -> bool.
Variable join : string -> string -> string.
Variable readPackageJson : string -> option PackageJson.

(** X10: the lockfile scan lists a file only if it exists, lists each
    of [pnpm-lock.yaml], [yarn.lock] and [package-lock.json] whenever it
    exists, lists [bun.lock] whenever it exists and [bun.lockb] exactly
    when it exists and [bun.lock] does not, keeps the priority order and
    never returns more than four names. *)
Theorem detectLockfiles_sound_and_complete (projectPath : string) :
  let detected := detectLockfiles existsSync join projectPath in
  let found file := existsSync (join projectPath file) in
  (forall file, In file detected -> found file = true)
  /\ (forall file, In file ["bun.lock"; "pnpm-lock.yaml"; "yarn.lock"; "package-lock.json"] ->
        (In file detected <-> found file = true))
  /\ (In "bun.lockb" detected <-> found "bun.lockb" = true /\ found "bun.lock" = false)
  /\ sublist detected
       ["bun.lock"; "bun.lockb"; "pnpm-lock.yaml"; "yarn.lock"; "package-lock.json"]
  /\ length detected <= 4.
Proof.
  cbv zeta. rewrite (detectLockfiles_unfolded existsSync join projectPath).
  destruct (existsSync (join projectPath "bun.lock")) eqn:Hbun,
           (existsSync (join projectPath "bun.lockb")) eqn:Hbunb,
           (existsSync (join projectPath "pnpm-lock.yaml")) eqn:Hpnpm,
           (existsSync (join projectPath "yarn.lock")) eqn:Hyarn,
           (existsSync (join projectPath "package-lock.json")) eqn:Hnpm;
    cbn [app].
  all: split; [intros file Hin; cbn in Hin; intuition (subst; congruence) |].
  all: split; [intros file Hin; cbn in Hin |- *;
               intuition (subst; try congruence; auto 6) |].
  all: split; [cbn; intuition congruence |].
  all: split; [repeat constructor | cbn; lia].
Qed.


Ltac by_files projectPath :=
  unfold detectPackageManager;
  rewrite (detectLockfiles_unfolded existsSync join projectPath);
  destruct (existsSync (join projectPath "bun.lock")),
           (existsSync (join projectPath "bun.lockb")),
           (existsSync (join projectPath "pnpm-lock.yaml")),
           (existsSync (join projectPath "yarn.lock")),
           (existsSync (join projectPath "package-lock.json")).

(** X11: whatever the directory holds, the record that the detector
    returns is coherent: its commands are those of the manager it names,
    its lockfile is the first of the lockfiles it lists and belongs to
    that manager, [hasMultipleLockfiles] is set exactly when it lists
    more than one, the list is the result of the scan, and
    [corepackSpec] is the [packageManager] field of the manifest. *)
Theorem detectPackageManager_coherent (projectPath : string) :
  let info := detectPackageManager existsSync join readPackageJson projectPath in
  installCommand info = name_text (name info) +:+ " install"
  /\ upgradeCommand info
     = name_text (name info) +:+ (if name_eqb (name info) yarn then " upgrade" else " update")
  /\ lockfile info = head (detectedLockfiles info)
  /\ (forall file, lockfile info = Some file ->
        match name info with
        | bun => file = "bun.lock" \/ file = "bun.lockb"
        | pnpm => file = "pnpm-lock.yaml"
        | yarn => file = "yarn.lock"
        | npm => file = "package-lock.json"
        end)
  /\ (hasMultipleLockfiles info = true <-> 2 <= length (detectedLockfiles info))
  /\ detectedLockfiles info = detectLockfiles existsSync join projectPath
  /\ corepackSpec info = readPackageJson projectPath ≫= packageManager.
Proof.
  cbv zeta.
  by_files projectPath; cbn [app];
    try (repeat split; try reflexivity; cbn; try lia; try discriminate;
         try (intros file [= <-]; auto); fail).
  destruct (readPackageJson projectPath ≫= packageManager) as [spec |];
    [ destruct (JS.is_empty spec);
      [| destruct (parseCorepackSpec spec) as [[] |] ] |];
    repeat split; try reflexivity; cbn; try lia; try discriminate.
Qed.


(** X12: a lockfile always wins over the manifest: in a directory where
    the scan finds a lockfile, two manifests with different
    [packageManager] fields lead to the same manager, lockfile and
    commands. *)
Theorem lockfile_overrides_manifest
    (projectPath : string) (manifest manifest' : string -> option PackageJson) :
  detectLockfiles existsSync join projectPath <> [] ->
  let info := detectPackageManager existsSync join manifest projectPath in
  let info' := detectPackageManager existsSync join manifest' projectPath in
  name info = name info' /\ lockfile info = lockfile info'
  /\ installCommand info = installCommand info'
  /\ upgradeCommand info = upgradeCommand info'
  /\ hasMultipleLockfiles info = hasMultipleLockfiles info'
  /\ detectedLockfiles info = detectedLockfiles info'.
Proof.
  cbv zeta. unfold detectPackageManager.
  rewrite (detectLockfiles_unfolded existsSync join projectPath).
  destruct (existsSync (join projectPath "bun.lock")),
           (existsSync (join projectPath "bun.lockb")),
           (existsSync (join projectPath "pnpm-lock.yaml")),
           (existsSync (join projectPath "yarn.lock")),
           (existsSync (join projectPath "package-lock.json"));
    cbn [app]; intros Hfound; try congruence; repeat split; reflexivity.
Qed.

Lemma startsWith_iff (p s : string) :
  JS.startsWith p s = true <-> exists r, s = p +:+ r.
Proof.
  revert s. induction p as [| a p IH]; intros s.
  - split; [intros _; now exists s | reflexivity].
  - destruct s as [| b s]; cbn [JS.startsWith].
    + split; [discriminate | intros [r Hr]; discriminate].
    + rewrite andb_true_iff, IH. split.
      * intros [Hab [r ->]]. apply Ascii.eqb_eq in Hab as ->. now exists r.
      * intros [r Hr]. cbn in Hr. injection Hr as -> ->.
        split; [apply Ascii.eqb_refl | now exists r].
Qed.

(** X13: [parseCorepackSpec] names a manager exactly for the fields that
    start with its lower-case name and an [@]; what follows the [@] is
    not looked at. *)
Theorem parseCorepackSpec_iff (packageManagerField : string) (pm : PackageManagerName) :
  parseCorepackSpec packageManagerField = Some pm
  <-> exists version, packageManagerField = name_text pm +:+ "@" +:+ version.
Proof.
  split.
  - unfold parseCorepackSpec.
    destruct (JS.startsWith "bun@" _) eqn:Hbun;
      [intros [= <-]; now apply startsWith_iff in Hbun |].
    destruct (JS.startsWith "pnpm@" _) eqn:Hpnpm;
      [intros [= <-]; now apply startsWith_iff in Hpnpm |].
    destruct (JS.startsWith "yarn@" _) eqn:Hyarn;
      [intros [= <-]; now apply startsWith_iff in Hyarn |].
    destruct (JS.startsWith "npm@" _) eqn:Hnpm;
      [intros [= <-]; now apply startsWith_iff in Hnpm | discriminate].
  - intros [version ->]. apply parseCorepackSpec_names.
Qed.

End DetectRecord.

Lemma lockfile_overrides_manifest_witness :
  PackageManager.name
    (PackageManager.detectPackageManager Fixtures.bun_and_yarn Fixtures.join_paths
       (fun _ => Some {| PackageManager.packageManager := Some "pnpm@9.1.0" |}) "/repo")
  = PackageManager.name
      (PackageManager.detectPackageManager Fixtures.bun_and_yarn Fixtures.join_paths
         Fixtures.no_manifest "/repo")
  /\ PackageManager.name
       (PackageManager.detectPackageManager Fixtures.bun_and_yarn Fixtures.join_paths
          Fixtures.no_manifest "/repo") = PackageManager.bun.
Proof.
  split; [| reflexivity].
  apply (lockfile_overrides_manifest Fixtures.bun_and_yarn Fixtures.join_paths "/repo"
           (fun _ => Some {| PackageManager.packageManager := Some "pnpm@9.1.0" |})
           Fixtures.no_manifest).
  discriminate.
Defined.

(** ** Audit-output normaliser: the records returned *)

Section AuditRecords.
Import Audit.

Variable JSON_parse_npm : string -> result NpmAuditOutput.
Variable JSON_parse_pnpm : string -> result PnpmAuditOutput.
Variable JSON_parse_yarn : string -> result YarnLine.

Lemma extractNpmTitle_not_empty via : extractNpmTitle via <> EmptyString.
Proof.
  induction via as [| [v | s] rest IH]; cbn [extractNpmTitle]; [discriminate | | exact IH].
  destruct (via_title v) as [[| c t] |]; cbn [JS.is_empty]; [exact IH | discriminate | exact IH].
Qed.

(** X14: every vulnerability that the npm parser returns has a title
    that is not empty, and has [fixAvailable] set whenever it has a
    [fixVersion]; a [fixVersion] is never the empty string. *)
Theorem npm_vulnerability_records (output : string) (r : AuditResult) :
  parseNpmAudit JSON_parse_npm output = Some r ->
  Forall (fun v => title v <> EmptyString
                   /\ (fixVersion v <> None -> fixAvailable v = true)
                   /\ fixVersion v <> Some EmptyString)
         (vulnerabilities r).
Proof.
  intros H. destruct (parseNpmAudit_read _ _ _ H) as (data & _ & Hreport).
  destruct (npm_report_some _ _ Hreport) as (meta & _ & Hrecords & _).
  apply npm_records_each in Hrecords.
  induction Hrecords as [| vuln v l vs Hv _ IH]; constructor; [| exact IH].
  unfold npm_vulnerability in Hv.
  destruct (buildNpmPath vuln _) as [p |]; cbn [mbind result_bind] in Hv;
    [| discriminate].
  injection Hv as <-. cbn [title fixVersion fixAvailable].
  split; [apply extractNpmTitle_not_empty |].
  destruct (npm_fixAvailable vuln) as [[] | info]; cbn [extractNpmFixVersion];
    try (split; congruence).
  destruct (fix_version info) as [| c t] eqn:E; cbn [JS.is_empty]; split; congruence.
Qed.

Lemma spaceArrows_app (a b : string) :
  spaceArrows (a +:+ b) = spaceArrows a +:+ spaceArrows b.
Proof.
  induction a as [| c a IH]; [reflexivity |].
  rewrite append_cons. cbn [spaceArrows]. rewrite IH.
  destruct (Ascii.eqb c ">"); [now rewrite append_assoc | now rewrite append_cons].
Qed.

Lemma spaceArrows_plain (s : string) :
  JS.includes ">" s = false -> spaceArrows s = s.
Proof.
  induction s as [| c s IH]; [reflexivity |].
  cbn [JS.includes JS.startsWith spaceArrows].
  rewrite andb_true_r. destruct (Ascii.eqb ">" c) eqn:E.
  - discriminate.
  - cbn [orb]. intros H. rewrite Ascii.eqb_sym, E. now rewrite IH.
Qed.

Lemma spaceArrows_join (parts : list string) :
  Forall (fun p => JS.includes ">" p = false) parts ->
  spaceArrows (JS.join ">" parts) = JS.join " > " parts.
Proof.
  induction 1 as [| p rest Hp Hrest IH]; [reflexivity |].
  destruct rest as [| q rest]; [now apply spaceArrows_plain |].
  change (JS.join ">" (p :: q :: rest)) with (p +:+ ">" +:+ JS.join ">" (q :: rest)).
  change (JS.join " > " (p :: q :: rest)) with (p +:+ " > " +:+ JS.join " > " (q :: rest)).
  rewrite !spaceArrows_app, IH, (spaceArrows_plain p Hp). reflexivity.
Qed.

Lemma pnpm_paths_first (skipped : list PnpmFinding) finding more p others :
  Forall (fun f => default [] (finding_paths f) = []) skipped ->
  finding_paths finding = Some (p :: others) ->
  head (concat (map (fun f => default [] (finding_paths f))
                    (skipped ++ finding :: more)))
  = Some p.
Proof.
  intros Hskipped Hpaths.
  induction Hskipped as [| f skipped Hf _ IH]; cbn [app map concat].
  - now rewrite Hpaths.
  - now rewrite Hf.
Qed.

Lemma pnpm_paths_none (l : list PnpmFinding) :
  Forall (fun f => default [] (finding_paths f) = []) l ->
  concat (map (fun f => default [] (finding_paths f)) l) = [].
Proof.
  induction 1 as [| f l Hf _ IH]; cbn [map concat]; [reflexivity |].
  now rewrite Hf.
Qed.

(** X15: the pnpm and the yarn parser turn a dependency path written
    with bare [>] between the package names into the same names, in the
    same order, separated by [" > "].  For pnpm the path is the first
    one of the first finding that has a path, whatever paths follow it,
    and the name of the module when no finding has one. *)
Theorem audit_paths_are_spaced (parts : list string) :
  Forall (fun p => JS.includes ">" p = false) parts ->
  (forall data, resolution_path (resolution data) = JS.join ">" parts ->
     path (yarn_vulnerability data) = JS.join " > " parts)
  /\ (forall advisory skipped finding more others,
        findings advisory = Some (skipped ++ finding :: more)%list ->
        Forall (fun f => default [] (finding_paths f) = []) skipped ->
        finding_paths finding = Some (JS.join ">" parts :: others) ->
        path (pnpm_vulnerability advisory) = JS.join " > " parts)
  /\ (forall advisory,
        Forall (fun f => default [] (finding_paths f) = [])
               (default [] (findings advisory)) ->
        module_name advisory = JS.join ">" parts ->
        path (pnpm_vulnerability advisory) = JS.join " > " parts).
Proof.
  intros Hparts. split; [| split].
  - intros data Hpath. unfold yarn_vulnerability. cbn [path]. rewrite Hpath.
    now apply spaceArrows_join.
  - intros advisory skipped finding more others Hfind Hskipped Hpaths.
    unfold pnpm_vulnerability, pnpm_paths. cbn [path]. rewrite Hfind.
    cbn [from_option id].
    rewrite (pnpm_paths_first _ _ _ _ _ Hskipped Hpaths). cbn [from_option id].
    now apply spaceArrows_join.
  - intros advisory Hnone Hname.
    unfold pnpm_vulnerability, pnpm_paths. cbn [path].
    rewrite (pnpm_paths_none _ Hnone). cbn [head from_option id]. rewrite Hname.
    now apply spaceArrows_join.
Qed.

Lemma yarn_audit_lines lines : forall vulns summary,
  fold_left (fun state line => yarn_audit_line JSON_parse_yarn line state)
    lines (vulns, summary)
  = ((vulns ++ map yarn_vulnerability (advisory_lines JSON_parse_yarn lines))%list,
     match last (summary_counts JSON_parse_yarn lines) with
     | Some counts => Some (summed_summary counts)
     | None => summary
     end).
Proof.
  induction lines as [| line rest IH]; intros vulns summary.
  - cbn. now rewrite app_nil_r.
  - cbn [fold_left]. unfold advisory_lines, summary_counts. cbn [omap list_omap].
    unfold yarn_audit_line at 2.
    destruct (JSON_parse_yarn line) as [[data | counts |] |]; rewrite IH; try reflexivity.
    + cbn [map]. now rewrite <- app_assoc.
    + fold (summary_counts JSON_parse_yarn rest). rewrite last_cons.
      now destruct (last _).
Qed.

(** X16: on a text that is not blank, the yarn audit parser gives
    nothing exactly when no line is an advisory and no line is a summary;
    otherwise its list has one vulnerability per advisory line, in the
    order of the lines, and without a summary line its summary counts
    those vulnerabilities. *)
Theorem parseYarnAudit_lines (output : string) :
  JS.is_empty (JS.trim output) = false ->
  let lines := JS.split Deps.newline (JS.trim output) in
  (parseYarnAudit JSON_parse_yarn output = None
   <-> advisory_lines JSON_parse_yarn lines = []
       /\ summary_counts JSON_parse_yarn lines = [])
  /\ (forall r, parseYarnAudit JSON_parse_yarn output = Some r ->
        vulnerabilities r = map yarn_vulnerability (advisory_lines JSON_parse_yarn lines)
        /\ (summary_counts JSON_parse_yarn lines = [] ->
            summary r = counted_summary (vulnerabilities r)
            /\ total (summary r) = Z.of_nat (length (advisory_lines JSON_parse_yarn lines)))).
Proof.
  intros Hblank lines. unfold parseYarnAudit. rewrite Hblank. fold lines.
  rewrite yarn_audit_lines. cbn [app].
  destruct (last (summary_counts JSON_parse_yarn lines)) as [counts |] eqn:Elast.
  - split.
    + split; [discriminate |]. intros [_ Hnone]. rewrite Hnone in Elast. discriminate.
    + intros r [= <-]. split; [reflexivity |].
      intros Hnone. rewrite Hnone in Elast. discriminate.
  - apply last_None in Elast. rewrite length_map.
    destruct (Nat.eqb_spec (length (advisory_lines JSON_parse_yarn lines)) 0) as [Hlen | Hlen].
    + apply length_zero_iff_nil in Hlen.
      split; [split; [intros _; now split | reflexivity] | discriminate].
    + split.
      * split; [discriminate |]. intros [Hadv _]. rewrite Hadv in Hlen. now elim Hlen.
      * intros r [= <-]. split; [reflexivity |]. intros _.
        cbn [vulnerabilities summary counted_summary total].
        split; [reflexivity |]. now rewrite length_map.
Qed.

End AuditRecords.

Lemma npm_vulnerability_records_witness :
  exists r,
    Audit.parseNpmAudit (Fixtures.reads "npm audit" Fixtures.nth_check_report) "npm audit"
    = Some r
    /\ Forall (fun v => Audit.title v <> EmptyString
                        /\ (Audit.fixVersion v <> None -> Audit.fixAvailable v = true)
                        /\ Audit.fixVersion v <> Some EmptyString)
         (Audit.vulnerabilities r).
Proof.
  eexists. split; [reflexivity |].
  apply (npm_vulnerability_records
           (Fixtures.reads "npm audit" Fixtures.nth_check_report) "npm audit").
  reflexivity.
Defined.

Lemma audit_paths_are_spaced_witness :
  Audit.path (Audit.pnpm_vulnerability (Fixtures.pnpm_advisory ">=2.0.0"))
  = "some-dep > vulnerable-pkg".
Proof.
  destruct (audit_paths_are_spaced ["some-dep"; "vulnerable-pkg"]) as (_ & Hpnpm & _).
  - repeat constructor.
  - apply (Hpnpm (Fixtures.pnpm_advisory ">=2.0.0") []
             {| Audit.finding_version := "1.0.0";
                Audit.finding_paths := Some ["some-dep>vulnerable-pkg"] |} [] []);
      [reflexivity | constructor | reflexivity].
Defined.

Lemma parseYarnAudit_lines_witness :
  Audit.parseYarnAudit Fixtures.two_summaries "yarn audit v1.22.19" = None
  /\ Audit.parseYarnAudit Fixtures.two_summaries "first summary" <> None.
Proof.
  split.
  - apply (parseYarnAudit_lines Fixtures.two_summaries "yarn audit v1.22.19" eq_refl).
    split; reflexivity.
  - intros H.
    apply (parseYarnAudit_lines Fixtures.two_summaries "first summary" eq_refl) in H.
    destruct H as [_ H]. discriminate H.
Defined.

Section AuditFallback.
Import Exec Audit AuditRunner.

Variable JSON_parse_npm : string -> result NpmAuditOutput.
Variable JSON_parse_pnpm : string -> result PnpmAuditOutput.
Variable JSON_parse_yarn : string -> result YarnLine.
Variable existsSync : string -> bool.
Variable join : string -> string -> string.
Variable readPackageJson : string -> option PackageManager.PackageJson.
Variable exec : string -> list string -> string -> result ExecResult.

(** X17: when the audit command runs, [analyzeAudit] returns a result;
    when what the command printed cannot be read as a report (a blank
    text among others), the result has no vulnerability and a summary of
    zeros, which the quality scorer rates 100, as it rates a project
    without vulnerabilities. *)
Theorem analyzeAudit_unreadable_report (cwd : string) (printed : ExecResult) :
  let pm := PackageManager.name
              (PackageManager.detectPackageManager existsSync join readPackageJson cwd) in
  let output := or_else (stdout printed) (stderr printed) in
  runAuditCheck exec pm cwd = Ok printed ->
  (exists r, analyzeAudit JSON_parse_npm JSON_parse_pnpm JSON_parse_yarn
               existsSync join readPackageJson exec cwd = Ok r)
  /\ (JS.is_empty (JS.trim output) = true
      \/ parseAuditOutput JSON_parse_npm JSON_parse_pnpm JSON_parse_yarn pm output = None ->
      exists r, analyzeAudit JSON_parse_npm JSON_parse_pnpm JSON_parse_yarn
                  existsSync join readPackageJson exec cwd = Ok r
                /\ vulnerabilities r = []
                /\ summary r = {| critical := 0; high := 0; moderate := 0;
                                  low := 0; total := 0 |}
                /\ Quality.calculateSecurityScore
                     (critical (summary r)) (high (summary r))
                     (moderate (summary r)) (low (summary r))
                   = {| Quality.score := 100; Quality.weight := 25;
                        Quality.details := "No vulnerabilities found" |}).
Proof.
  intros pm output Hrun. unfold analyzeAudit. fold pm. rewrite Hrun.
  cbn [mbind result_bind]. fold output. split.
  - destruct (parseAuditOutput _ _ _ pm output) as [r |]; eauto.
  - intros Hnone.
    assert (H : parseAuditOutput JSON_parse_npm JSON_parse_pnpm JSON_parse_yarn pm output
                = None).
    { destruct Hnone as [Hblank | H]; [| exact H].
      unfold parseAuditOutput, parseNpmAudit, parsePnpmAudit, parseYarnAudit.
      rewrite Hblank. now destruct pm. }
    rewrite H. exists no_vulnerabilities. repeat split.
Qed.

End AuditFallback.

Lemma analyzeAudit_unreadable_report_witness :
  exists r,
    AuditRunner.analyzeAudit
      (Fixtures.reads "npm audit" Fixtures.nth_check_report)
      (Fixtures.reads "pnpm audit" (Fixtures.pnpm_report_of ">=2.0.0"))
      Fixtures.two_summaries Fixtures.bun_and_yarn Fixtures.join_paths Fixtures.no_manifest
      (Fixtures.prints "  ") "/repo" = Ok r
    /\ Audit.vulnerabilities r = [] /\ Audit.total (Audit.summary r) = 0%Z.
Proof.
  destruct (analyzeAudit_unreadable_report
              (Fixtures.reads "npm audit" Fixtures.nth_check_report)
              (Fixtures.reads "pnpm audit" (Fixtures.pnpm_report_of ">=2.0.0"))
              Fixtures.two_summaries Fixtures.bun_and_yarn Fixtures.join_paths
              Fixtures.no_manifest (Fixtures.prints "  ") "/repo"
              {| Exec.stdout := "  "; Exec.stderr := EmptyString; Exec.exitCode := 1%Z |}
              eq_refl) as [_ Hzero].
  destruct Hzero as (r & Hr & Hv & Hs & _); [left; reflexivity |].
  exists r. rewrite Hs. auto.
Defined.

(** ** Linting and TypeScript configuration analyzers *)

Section LintingProperties.
Import Linting.

Variable file_exists : string -> result bool.
Variable file_text : string -> result string.
Variable JSON_parse : string -> result Json.json.

(** X18: the linting analysis scores 100 exactly when a Biome
    configuration exists, whatever else is configured, and then reports
    no Prettier; without Biome it scores 80 for ESLint with Prettier, 50
    for ESLint alone, 20 for Prettier alone and 0 for nothing. *)
Theorem analyzeLinting_scores (cwd : string) :
  let a := analyzeLinting file_exists file_text JSON_parse cwd in
  let hasBiome := detectBiome file_exists cwd in
  let hasEslint := detectEslint file_exists file_text JSON_parse cwd in
  let hasPrettier := detectPrettier file_exists file_text JSON_parse cwd in
  (score a = 100%Z <-> hasBiome = true)
  /\ (hasBiome = true -> linter a = biome /\ prettier a = false)
  /\ (hasBiome = false ->
      prettier a = hasPrettier
      /\ score a = (if hasEslint then if hasPrettier then 80 else 50
                    else if hasPrettier then 20 else 0)%Z)
  /\ (score a = 0%Z <-> hasBiome = false /\ hasEslint = false /\ hasPrettier = false).
Proof.
  cbv zeta. unfold analyzeLinting.
  destruct (detectBiome file_exists cwd),
           (detectEslint file_exists file_text JSON_parse cwd),
           (detectPrettier file_exists file_text JSON_parse cwd);
    cbn; intuition (try discriminate; try lia).
Qed.

End LintingProperties.

Section TsConfigProperties.
Import TsConfig.

(** X19: the strictness score of a configuration is a multiple of ten
    from 0 to 100; it is 100 exactly when the six strictness flags are
    all on and 0 exactly when they are all off; it is below 40 only when
    [strict] is off; and it does not depend on [noUnusedLocals] and
    [noUnusedParameters]. *)
Theorem tsconfig_score_range (flags : TsConfigStrictFlags) :
  (0 <= calculateScore flags <= 100)%Z
  /\ (exists k, calculateScore flags = 10 * k)%Z
  /\ (calculateScore flags = 100%Z
      <-> strict flags = true /\ noUncheckedIndexedAccess flags = true
          /\ noImplicitReturns flags = true /\ noFallthroughCasesInSwitch flags = true
          /\ exactOptionalPropertyTypes flags = true /\ noImplicitOverride flags = true)
  /\ (calculateScore flags = 0%Z
      <-> strict flags = false /\ noUncheckedIndexedAccess flags = false
          /\ noImplicitReturns flags = false /\ noFallthroughCasesInSwitch flags = false
          /\ exactOptionalPropertyTypes flags = false /\ noImplicitOverride flags = false)
  /\ ((calculateScore flags < 40)%Z -> strict flags = false)
  /\ (forall locals parameters,
        calculateScore
          {| strict := strict flags;
             noUncheckedIndexedAccess := noUncheckedIndexedAccess flags;
             noImplicitReturns := noImplicitReturns flags;
             noFallthroughCasesInSwitch := noFallthroughCasesInSwitch flags;
             exactOptionalPropertyTypes := exactOptionalPropertyTypes flags;
             noImplicitOverride := noImplicitOverride flags;
             noUnusedLocals := locals; noUnusedParameters := parameters |}
        = calculateScore flags).
Proof.
  destruct flags as [[] [] [] [] [] [] locals parameters];
    unfold calculateScore, FLAG_SCORES.strict, FLAG_SCORES.noUncheckedIndexedAccess,
      FLAG_SCORES.noImplicitReturns, FLAG_SCORES.noFallthroughCasesInSwitch,
      FLAG_SCORES.exactOptionalPropertyTypes, FLAG_SCORES.noImplicitOverride;
    cbn [strict noUncheckedIndexedAccess noImplicitReturns noFallthroughCasesInSwitch
         exactOptionalPropertyTypes noImplicitOverride];
    (split; [lia |]);
    (split; [eexists; match goal with |- ?n = _ => instantiate (1 := (n / 10)%Z) end; reflexivity |]);
    (split; [intuition (try discriminate; try lia) |]);
    (split; [intuition (try discriminate; try lia) |]);
    (split; [intros; try reflexivity; lia | reflexivity]).
Qed.

End TsConfigProperties.

(** ** Quality scorer: recommendations *)

Section AdviceProperties.
Import Double Quality.

Lemma generateRecommendations_by_metric (b : QualityBreakdown) :
  generateRecommendations b
  = (security_advice (security b) ++ freshness_advice (dependencyFreshness b)
     ++ coverage_advice (testCoverage b) ++ typescript_advice (typescriptStrictness b)
     ++ linting_advice (linting b))%list.
Proof. reflexivity. Qed.

(** The actions that each metric may add. *)
Lemma security_advice_actions m r :
  In r (security_advice m) ->
  In (action r) ["Fix critical severity vulnerabilities immediately";
                 "Fix high severity vulnerabilities";
                 "Address moderate severity vulnerabilities"].
Proof.
  unfold security_advice.
  destruct (Qlt_bool _ _); [| intros []].
  destruct (JS.includes "critical" _), (JS.includes "high" _), (JS.includes "moderate" _);
    cbn; intuition (subst; cbn; auto).
Qed.

Lemma freshness_advice_actions m r :
  In r (freshness_advice m) ->
  In (action r) ["Update outdated dependencies";
                 "Consider updating remaining outdated packages"].
Proof.
  unfold freshness_advice.
  repeat (destruct (Qlt_bool _ _)); cbn; intuition (subst; cbn; auto).
Qed.

Lemma coverage_advice_actions m r :
  In r (coverage_advice m) ->
  In (action r) ["Set up test coverage reporting";
                 "Increase test coverage (currently below 50%)";
                 "Improve test coverage to 80%+"].
Proof.
  unfold coverage_advice.
  destruct (_ && _); [cbn; intuition (subst; cbn; auto) |].
  repeat (destruct (Qlt_bool _ _)); cbn; intuition (subst; cbn; auto).
Qed.

Lemma typescript_advice_actions m r :
  In r (typescript_advice m) ->
  In (action r) ["Add TypeScript to the project";
                 "Enable " +:+ quote +:+ "strict" +:+ quote +:+ ": true in tsconfig.json";
                 "Enable noUncheckedIndexedAccess in tsconfig"].
Proof.
  unfold typescript_advice.
  destruct (Qeq_bool _ _).
  - destruct (JS.includes _ _); cbn; intuition (subst; cbn; auto).
  - repeat (destruct (Qlt_bool _ _)); try destruct (JS.includes _ _);
      cbn; intuition (subst; cbn; auto).
Qed.

Lemma linting_advice_actions m r :
  In r (linting_advice m) ->
  In (action r) ["Set up a linter (Biome or ESLint)";
                 "Add Prettier for consistent code formatting"].
Proof.
  unfold linting_advice.
  destruct (Qeq_bool _ _); [cbn; intuition (subst; cbn; auto) |].
  destruct (_ && _); cbn; intuition (subst; cbn; auto).
Qed.

Lemma no_common_action (l1 l2 : list string) (a : string) :
  forallb (fun x => negb (existsb (String.eqb x) l2)) l1 = true ->
  In a l1 -> In a l2 -> False.
Proof.
  intros Hd H1 H2. rewrite forallb_forall in Hd. specialize (Hd a H1).
  apply negb_true_iff in Hd.
  assert (existsb (String.eqb a) l2 = true) as Hex
    by (apply existsb_exists; exists a; split; [exact H2 | apply String.eqb_refl]).
  congruence.
Qed.

Lemma linting_advice_only (b : QualityBreakdown) (r : Recommendation) :
  In (action r) ["Set up a linter (Biome or ESLint)";
                 "Add Prettier for consistent code formatting"] ->
  In r (generateRecommendations b) <-> In r (linting_advice (linting b)).
Proof.
  intros Hr. rewrite generateRecommendations_by_metric, !in_app_iff. split; [| tauto].
  intros [H | [H | [H | [H | H]]]]; [| | | | exact H]; exfalso.
  - apply security_advice_actions in H. eapply no_common_action; [| exact H | exact Hr]; reflexivity.
  - apply freshness_advice_actions in H. eapply no_common_action; [| exact H | exact Hr]; reflexivity.
  - apply coverage_advice_actions in H. eapply no_common_action; [| exact H | exact Hr]; reflexivity.
  - apply typescript_advice_actions in H. eapply no_common_action; [| exact H | exact Hr]; reflexivity.
Qed.

Lemma typescript_advice_only (b : QualityBreakdown) (r : Recommendation) :
  In (action r) ["Add TypeScript to the project";
                 "Enable " +:+ quote +:+ "strict" +:+ quote +:+ ": true in tsconfig.json";
                 "Enable noUncheckedIndexedAccess in tsconfig"] ->
  In r (generateRecommendations b) <-> In r (typescript_advice (typescriptStrictness b)).
Proof.
  intros Hr. rewrite generateRecommendations_by_metric, !in_app_iff. split; [| tauto].
  intros [H | [H | [H | [H | H]]]]; [| | | exact H |]; exfalso.
  - apply security_advice_actions in H. eapply no_common_action; [| exact H | exact Hr]; reflexivity.
  - apply freshness_advice_actions in H. eapply no_common_action; [| exact H | exact Hr]; reflexivity.
  - apply coverage_advice_actions in H. eapply no_common_action; [| exact H | exact Hr]; reflexivity.
  - apply linting_advice_actions in H. eapply no_common_action; [| exact H | exact Hr]; reflexivity.
Qed.

Lemma security_advice_only (b : QualityBreakdown) (r : Recommendation) :
  In (action r) ["Fix critical severity vulnerabilities immediately";
                 "Fix high severity vulnerabilities";
                 "Address moderate severity vulnerabilities"] ->
  In r (generateRecommendations b) <-> In r (security_advice (security b)).
Proof.
  intros Hr. rewrite generateRecommendations_by_metric, !in_app_iff. split; [| tauto].
  intros [H | [H | [H | [H | H]]]]; [exact H | | | |]; exfalso.
  - apply freshness_advice_actions in H. eapply no_common_action; [| exact H | exact Hr]; reflexivity.
  - apply coverage_advice_actions in H. eapply no_common_action; [| exact H | exact Hr]; reflexivity.
  - apply typescript_advice_actions in H. eapply no_common_action; [| exact H | exact Hr]; reflexivity.
  - apply linting_advice_actions in H. eapply no_common_action; [| exact H | exact Hr]; reflexivity.
Qed.

(** X20: for a project with a [tsconfig.json], the advice to enable
    [noUncheckedIndexedAccess] is given exactly when the strictness score
    is from 40 to 99 and the details name the flag: with at most two of
    the six flags off the details list the missing flags, and the advice
    is given when the flag is off; with three flags or more off the
    details list the enabled flags, and the advice is given when the
    flag is already on, and not when it is off. *)
Theorem unchecked_access_advice (flags : TsConfig.TsConfigStrictFlags) (b : QualityBreakdown) :
  let score := TsConfig.calculateScore flags in
  let off := length (List.filter (fun f => negb (snd f)) (TsConfig.named_flags flags)) in
  typescriptStrictness b
  = calculateTypescriptStrictnessScore true (inject_Z score)
      (TsConfig.generateDetails flags score) ->
  In {| priority := low; action := "Enable noUncheckedIndexedAccess in tsconfig" |}
     (generateRecommendations b)
  <-> (40 <= score < 100)%Z
      /\ TsConfig.noUncheckedIndexedAccess flags = (if (off <=? 2)%nat then false else true).
Proof.
  intros score off Hb. rewrite typescript_advice_only by (cbn; auto). rewrite Hb.
  subst score off.
  destruct flags as [[] [] [] [] [] [] locals parameters]; vm_compute;
    intuition (try discriminate; try congruence).
Qed.

End AdviceProperties.

Section LintingAdvice.
Import Quality.

Variable file_exists : string -> result bool.
Variable file_text : string -> result string.
Variable JSON_parse : string -> result Json.json.

(** X21: of the linting setups, only two lead to advice: setting up a
    linter is advised exactly when neither a linter nor Prettier is
    configured, and adding Prettier exactly when ESLint is configured
    without it; a project with Prettier and no linter gets no linting
    advice. *)
Theorem linting_advice_by_setup (cwd : string) (b : QualityBreakdown) :
  let a := Linting.analyzeLinting file_exists file_text JSON_parse cwd in
  linting b = calculateLintingScore (inject_Z (Linting.score a)) (Linting.details a) ->
  (In {| priority := medium; action := "Set up a linter (Biome or ESLint)" |}
      (generateRecommendations b)
   <-> Linting.linter a = Linting.none /\ Linting.prettier a = false)
  /\ (In {| priority := low; action := "Add Prettier for consistent code formatting" |}
         (generateRecommendations b)
      <-> Linting.linter a = Linting.eslint /\ Linting.prettier a = false)
  /\ (Linting.linter a = Linting.none -> Linting.prettier a = true ->
      linting_advice (linting b) = []).
Proof.
  intros a Hb. rewrite !linting_advice_only by (cbn; auto). rewrite Hb.
  subst a. unfold Linting.analyzeLinting.
  destruct (Linting.detectBiome file_exists cwd),
           (Linting.detectEslint file_exists file_text JSON_parse cwd),
           (Linting.detectPrettier file_exists file_text JSON_parse cwd);
    vm_compute; intuition (try discriminate; try congruence).
Qed.

End LintingAdvice.

Lemma unchecked_access_advice_witness :
  In {| Quality.priority := Quality.low;
        Quality.action := "Enable noUncheckedIndexedAccess in tsconfig" |}
     (Quality.generateRecommendations
        (Fixtures.with_metrics
           (Quality.security Fixtures.perfect_breakdown)
           (Quality.calculateTypescriptStrictnessScore true
              (inject_Z (TsConfig.calculateScore Fixtures.strict_and_unchecked))
              (TsConfig.generateDetails Fixtures.strict_and_unchecked
                 (TsConfig.calculateScore Fixtures.strict_and_unchecked)))
           (Quality.linting Fixtures.perfect_breakdown)))
  /\ TsConfig.noUncheckedIndexedAccess Fixtures.strict_and_unchecked = true.
Proof.
  split; [| reflexivity].
  apply (unchecked_access_advice Fixtures.strict_and_unchecked
           (Fixtures.with_metrics
              (Quality.security Fixtures.perfect_breakdown)
              (Quality.calculateTypescriptStrictnessScore true
                 (inject_Z (TsConfig.calculateScore Fixtures.strict_and_unchecked))
                 (TsConfig.generateDetails Fixtures.strict_and_unchecked
                    (TsConfig.calculateScore Fixtures.strict_and_unchecked)))
              (Quality.linting Fixtures.perfect_breakdown))
           eq_refl).
  split; [vm_compute; split; [discriminate | reflexivity] | reflexivity].
Defined.

Lemma linting_advice_by_setup_witness :
  Linting.score
    (Linting.analyzeLinting Fixtures.prettier_only Fixtures.unreadable
       Fixtures.empty_object_only "/repo") = 20%Z
  /\ Quality.linting_advice
       (Quality.calculateLintingScore
          (inject_Z (Linting.score
                       (Linting.analyzeLinting Fixtures.prettier_only Fixtures.unreadable
                          Fixtures.empty_object_only "/repo")))
          (Linting.details
             (Linting.analyzeLinting Fixtures.prettier_only Fixtures.unreadable
                Fixtures.empty_object_only "/repo"))) = [].
Proof.
  split; [reflexivity |].
  destruct (linting_advice_by_setup Fixtures.prettier_only Fixtures.unreadable
              Fixtures.empty_object_only "/repo"
              (Fixtures.with_metrics
                 (Quality.security Fixtures.perfect_breakdown)
                 (Quality.typescriptStrictness Fixtures.perfect_breakdown)
                 (Quality.calculateLintingScore
                    (inject_Z (Linting.score
                                 (Linting.analyzeLinting Fixtures.prettier_only
                                    Fixtures.unreadable Fixtures.empty_object_only "/repo")))
                    (Linting.details
                       (Linting.analyzeLinting Fixtures.prettier_only Fixtures.unreadable
                          Fixtures.empty_object_only "/repo"))))
              eq_refl) as (_ & _ & Hnone).
  apply Hnone; reflexivity.
Defined.

Section Occurrences.

(** [c] occurs in [s]: [s.includes(c)] for a single character. *)
Lemma occurs_cons (c d : ascii) (s : string) :
  JS.includes (String c EmptyString) (String d s)
  = Ascii.eqb c d || JS.includes (String c EmptyString) s.
Proof. cbn [JS.includes JS.startsWith]. now rewrite andb_true_r. Qed.

Lemma occurs_app (c : ascii) (a b : string) :
  JS.includes (String c EmptyString) (a +:+ b)
  = JS.includes (String c EmptyString) a || JS.includes (String c EmptyString) b.
Proof.
  induction a as [| d a IH].
  - rewrite append_empty. now destruct b.
  - rewrite append_cons, !occurs_cons, IH. now rewrite orb_assoc.
Qed.

Lemma includes_absent (c : ascii) (sub s : string) :
  JS.includes (String c EmptyString) s = false -> JS.includes (String c sub) s = false.
Proof.
  induction s as [| d s IH]; [reflexivity |].
  rewrite occurs_cons. intros H. apply orb_false_iff in H as [Hcd Hs].
  cbn [JS.includes JS.startsWith]. rewrite Hcd. cbn [andb orb]. now apply IH.
Qed.

Lemma includes_app_r (sub a b : string) :
  JS.includes sub b = true -> JS.includes sub (a +:+ b) = true.
Proof.
  intros H. induction a as [| d a IH]; [now rewrite append_empty |].
  rewrite append_cons. cbn [JS.includes]. rewrite IH. apply orb_true_r.
Qed.

Lemma occurs_uint (c : ascii) (u : Decimal.uint) :
  JS.is_digit c = false ->
  JS.includes (String c EmptyString) (NilEmpty.string_of_uint u) = false.
Proof.
  intros Hc.
  assert (Hd : forall d, JS.is_digit d = true -> Ascii.eqb c d = false).
  { intros d Hd. destruct (Ascii.eqb_spec c d); [congruence | reflexivity]. }
  induction u; cbn [NilEmpty.string_of_uint]; [reflexivity | ..];
    rewrite occurs_cons, IHu, Hd by reflexivity; reflexivity.
Qed.

Lemma occurs_number (c : ascii) (z : Z) :
  JS.is_digit c = false -> Ascii.eqb c "-" = false ->
  JS.includes (String c EmptyString) (JS.string_of_Z z) = false.
Proof.
  intros Hc Hminus. unfold JS.string_of_Z.
  destruct (Z.to_int z) as [u | u]; cbn [NilEmpty.string_of_int].
  - now apply occurs_uint.
  - rewrite occurs_cons, Hminus. now apply occurs_uint.
Qed.

End Occurrences.

Section SecurityAdvice.
Import Quality.
Local Open Scope Z_scope.

Ltac absent :=
  apply includes_absent;
  repeat rewrite occurs_app;
  repeat rewrite occurs_number by reflexivity;
  reflexivity.

Ltac present :=
  repeat first [ solve [vm_compute; reflexivity] | apply includes_app_r ].

Lemma security_details_mention (critical high moderate low : Z) :
  critical + high + moderate + low <> 0 ->
  let d := details (calculateSecurityScore critical high moderate low) in
  JS.includes "critical" d = (0 <? critical)
  /\ JS.includes "high" d = (0 <? high)
  /\ JS.includes "moderate" d = (0 <? moderate).
Proof.
  intros Htotal. unfold calculateSecurityScore.
  destruct (Z.eqb_spec (critical + high + moderate + low) 0) as [E | _]; [contradiction |].
  cbn [details].
  destruct (0 <? critical), (0 <? high), (0 <? moderate), (0 <? low);
    cbn [app JS.join]; rewrite ?append_assoc.
  all: split; [| split].
  all: first [ absent | present ].
Qed.

Lemma Qlt_bool_inject_Z (a b : Z) : Qlt_bool (inject_Z a) (inject_Z b) = (a <? b).
Proof.
  unfold Qlt_bool, Qle_bool. cbn. rewrite !Z.mul_1_r.
  destruct (Z.leb_spec b a), (Z.ltb_spec a b); try reflexivity; lia.
Qed.

(** X22: for the security metric computed from non-negative counts,
    the recommendations name a severity exactly when its count is
    positive: fixing critical vulnerabilities is advised exactly when
    there is a critical one, likewise for high and for moderate; low
    vulnerabilities alone lead to no recommendation. *)
Theorem security_advice_by_counts (critical high moderate low : Z) (b : QualityBreakdown) :
  0 <= critical -> 0 <= high -> 0 <= moderate -> 0 <= low ->
  security b = calculateSecurityScore critical high moderate low ->
  (In {| priority := Quality.high;
         action := "Fix critical severity vulnerabilities immediately" |}
      (generateRecommendations b) <-> 0 < critical)
  /\ (In {| priority := Quality.high; action := "Fix high severity vulnerabilities" |}
         (generateRecommendations b) <-> 0 < high)
  /\ (In {| priority := Quality.medium;
            action := "Address moderate severity vulnerabilities" |}
         (generateRecommendations b) <-> 0 < moderate).
Proof.
  intros Hc Hh Hm Hl Hb. rewrite !security_advice_only by (cbn; auto). rewrite Hb.
  unfold security_advice.
  destruct (Z.eq_dec (critical + high + moderate + low) 0) as [Hzero | Hsome].
  - assert (critical = 0 /\ high = 0 /\ moderate = 0 /\ low = 0) as (-> & -> & -> & ->)
      by lia.
    vm_compute. intuition discriminate.
  - destruct (security_details_mention critical high moderate low Hsome)
      as (Hcrit & Hhigh & Hmod).
    cbv zeta in Hcrit, Hhigh, Hmod. rewrite Hcrit, Hhigh, Hmod.
    assert (Hscore : Qlt_bool (score (calculateSecurityScore critical high moderate low)) 100
                     = true).
    { unfold calculateSecurityScore.
      destruct (Z.eqb_spec (critical + high + moderate + low) 0); [contradiction |].
      cbn [score]. change 100%Q with (inject_Z 100). rewrite Qlt_bool_inject_Z.
      apply Z.ltb_lt. lia. }
    rewrite Hscore.
    destruct (Z.ltb_spec 0 critical), (Z.ltb_spec 0 high), (Z.ltb_spec 0 moderate);
      cbn [app In]; intuition (try discriminate; try lia).
Qed.

End SecurityAdvice.

Lemma security_advice_by_counts_witness :
  In {| Quality.priority := Quality.high;
        Quality.action := "Fix critical severity vulnerabilities immediately" |}
     (Quality.generateRecommendations
        (Fixtures.with_metrics (Quality.calculateSecurityScore 1 0 2 3)
           (Quality.typescriptStrictness Fixtures.perfect_breakdown)
           (Quality.linting Fixtures.perfect_breakdown)))
  /\ In {| Quality.priority := Quality.medium;
           Quality.action := "Address moderate severity vulnerabilities" |}
        (Quality.generateRecommendations
           (Fixtures.with_metrics (Quality.calculateSecurityScore 1 0 2 3)
              (Quality.typescriptStrictness Fixtures.perfect_breakdown)
              (Quality.linting Fixtures.perfect_breakdown))).
Proof.
  destruct (security_advice_by_counts 1 0 2 3
              (Fixtures.with_metrics (Quality.calculateSecurityScore 1 0 2 3)
                 (Quality.typescriptStrictness Fixtures.perfect_breakdown)
                 (Quality.linting Fixtures.perfect_breakdown)))
    as (Hcritical & _ & Hmoderate); try lia; [reflexivity |].
  split; [apply Hcritical | apply Hmoderate]; lia.
Defined.

(** ** Quality scorer: the overall score *)

Section OverallScore.
Import Double Quality.
Local Open Scope Q_scope.

Variable rnd : Q -> Q.
Hypothesis rnd_monotone : monotone rnd.
Hypothesis rnd_exact : exact_on_integers rnd.

Lemma weighted_totals_exact (lo hi : Z) (ms : list MetricBreakdown) :
  (0 <= lo <= hi)%Z -> (hi <= 100)%Z ->
  Forall (scored_within lo hi) ms ->
  forall (acc : Q) (S W : Z),
    acc == inject_Z S -> (lo * W <= S <= hi * W)%Z -> (0 <= W)%Z ->
    (W + 100 * Z.of_nat (length ms) <= 2 ^ 40)%Z ->
    let totals :=
      fold_left
        (fun totals metric =>
           (fadd rnd (fst totals) (fmul rnd (score metric) (inject_Z (weight metric))),
            (snd totals + weight metric)%Z))
        ms (acc, W) in
    exists T : Z,
      fst totals == inject_Z T
      /\ (lo * snd totals <= T <= hi * snd totals)%Z
      /\ (W + fold_right Z.add 0 (map weight ms) = snd totals)%Z
      /\ (0 <= snd totals <= 2 ^ 40)%Z.
Proof.
  intros Hlo Hhi. induction 1 as [| m rest [(z & Hz & Hzr) Hw] Hrest IH];
    intros acc S W Hacc HS HW Hbound.
  - cbn in *. exists S. repeat split; try tauto; try lia.
  - cbn [fold_left fst snd length map fold_right] in *.
    assert (Hprod : rnd (score m * inject_Z (weight m)) == inject_Z (z * weight m)).
    { rewrite <- (rnd_exact (z * weight m)%Z).
      - apply (rnd_proper rnd rnd_monotone). rewrite Hz, inject_Z_mult. reflexivity.
      - assert (Z.abs (z * weight m) <= 100 * 100)%Z by (rewrite Z.abs_mul; nia).
        assert (100 * 100 <= 2 ^ 53)%Z by (vm_compute; discriminate). lia. }
    assert (Hsum : fadd rnd acc (fmul rnd (score m) (inject_Z (weight m)))
                   == inject_Z (S + z * weight m)).
    { unfold fadd, fmul. rewrite <- (rnd_exact (S + z * weight m)%Z).
      - apply (rnd_proper rnd rnd_monotone). rewrite Hprod, Hacc, inject_Z_plus. reflexivity.
      - assert (Z.abs (S + z * weight m) <= 100 * (W + 100))%Z by nia.
        assert (100 * 2 ^ 40 <= 2 ^ 53)%Z by (vm_compute; discriminate). lia. }
    destruct (IH _ (S + z * weight m)%Z (W + weight m)%Z Hsum) as (T & HT & HTr & Hws & Hwb);
      [nia | lia | lia |].
    exists T. repeat split; try tauto; lia.
Qed.

Lemma weighted_score_within (ms : list MetricBreakdown) (lo hi : Z) :
  (0 <= lo <= hi)%Z -> (hi <= 100)%Z -> (Z.of_nat (length ms) <= 1000)%Z ->
  Forall (scored_within lo hi) ms ->
  Exists (fun m => 0 < weight m)%Z ms ->
  (lo <= Math_round (fdiv rnd (fst (weighted_totals rnd ms))
                       (inject_Z (snd (weighted_totals rnd ms)))) <= hi)%Z.
Proof.
  intros Hlo Hhi Hlen Hall Hex. unfold weighted_totals.
  destruct (weighted_totals_exact lo hi ms Hlo Hhi Hall 0 0%Z 0%Z)
    as (T & HT & HTr & Hws & Hwb); [reflexivity | lia | lia | |].
  { assert (100 * 1000 <= 2 ^ 40)%Z by (vm_compute; discriminate). lia. }
  destruct (fold_left _ _ _) as [t w]. cbn [fst snd] in *.
  assert (Hpos : (0 < w)%Z).
  { subst w. clear - Hall Hex.
    induction Hex as [m rest Hm | m rest Hex IH]; inversion Hall as [| ? ? [_ Hw] Hrest]; subst;
      cbn [map fold_right].
    - assert (0 <= fold_right Z.add 0 (map weight rest))%Z; [| lia].
      clear - Hrest. induction Hrest as [| m' rest' [_ Hw'] _ IH']; cbn; lia.
    - specialize (IH Hrest). lia. }
  apply Math_round_range. unfold fdiv.
  assert (Hl53 : (Z.abs lo <= 2 ^ 53)%Z).
  { assert (100 <= 2 ^ 53)%Z by (vm_compute; discriminate). lia. }
  assert (Hh53 : (Z.abs hi <= 2 ^ 53)%Z).
  { assert (100 <= 2 ^ 53)%Z by (vm_compute; discriminate). lia. }
  apply (rnd_between rnd rnd_monotone rnd_exact _ lo hi Hl53 Hh53).
  assert (Hw' : 0 < inject_Z w) by (change 0 with (inject_Z 0); now rewrite <- Zlt_Qlt).
  split.
  - apply Qle_shift_div_l; [exact Hw' |]. rewrite HT, <- inject_Z_mult, <- Zle_Qle. lia.
  - apply Qle_shift_div_r; [exact Hw' |]. rewrite HT, <- inject_Z_mult, <- Zle_Qle. lia.
Qed.

Lemma calculateOverallScore_totals (b : QualityBreakdown) :
  calculateOverallScore rnd b
  = Math_round (fdiv rnd (fst (weighted_totals rnd (metrics b)))
                  (inject_Z (snd (weighted_totals rnd (metrics b))))).
Proof. unfold calculateOverallScore. now destruct (weighted_totals rnd (metrics b)). Qed.

(** X23: when the six metrics carry integer scores from [lo] to [hi]
    (within 0 to 100) and weights from 0 to 100 that are not all zero,
    the overall score lies from [lo] to [hi] too; six metrics at the
    same score give that score. *)
Theorem overall_score_within (b : QualityBreakdown) (lo hi : Z) :
  (0 <= lo <= hi)%Z -> (hi <= 100)%Z ->
  Forall (scored_within lo hi) (metrics b) ->
  Exists (fun m => 0 < weight m)%Z (metrics b) ->
  (lo <= calculateOverallScore rnd b <= hi)%Z
  /\ (lo = hi -> calculateOverallScore rnd b = lo).
Proof.
  intros Hlo Hhi Hall Hex. rewrite calculateOverallScore_totals.
  assert (H : (lo <= Math_round (fdiv rnd (fst (weighted_totals rnd (metrics b)))
                                  (inject_Z (snd (weighted_totals rnd (metrics b))))) <= hi)%Z).
  { apply weighted_score_within; try assumption. cbn. lia. }
  split; [exact H | lia].
Qed.

End OverallScore.

Lemma overall_score_within_witness :
  Quality.calculateOverallScore Double.unrounded Fixtures.perfect_breakdown = 100%Z.
Proof.
  apply (overall_score_within Double.unrounded unrounded_monotone
           unrounded_exact_on_integers Fixtures.perfect_breakdown 100 100);
    [lia | lia | | | reflexivity].
  - repeat constructor; try (exists 100%Z; split; [reflexivity | lia]);
      try (vm_compute; discriminate).
  - constructor. reflexivity.
Defined.

Section QualityReport.
Import Double Quality.

Lemma Qle_bool_inject_Z (a b : Z) : Qle_bool (inject_Z a) (inject_Z b) = (a <=? b)%Z.
Proof. unfold Qle_bool. cbn. now rewrite !Z.mul_1_r. Qed.

Lemma getGrade_thresholds (z : Z) :
  (getGrade (inject_Z z) = A <-> (90 <= z)%Z)
  /\ (getGrade (inject_Z z) = B <-> (80 <= z <= 89)%Z)
  /\ (getGrade (inject_Z z) = C <-> (70 <= z <= 79)%Z)
  /\ (getGrade (inject_Z z) = D <-> (60 <= z <= 69)%Z)
  /\ (getGrade (inject_Z z) = F <-> (z <= 59)%Z).
Proof.
  unfold getGrade.
  change 90%Q with (inject_Z 90). change 80%Q with (inject_Z 80).
  change 70%Q with (inject_Z 70). change 60%Q with (inject_Z 60).
  rewrite !Qle_bool_inject_Z.
  destruct (Z.leb_spec 90 z); [| destruct (Z.leb_spec 80 z);
    [| destruct (Z.leb_spec 70 z); [| destruct (Z.leb_spec 60 z)]]];
    repeat split; intros; try discriminate; try lia.
Qed.

Lemma tsconfig_score_bounds (flags : TsConfig.TsConfigStrictFlags) :
  (0 <= TsConfig.calculateScore flags <= 100)%Z.
Proof.
  unfold TsConfig.calculateScore, TsConfig.FLAG_SCORES.strict,
    TsConfig.FLAG_SCORES.noUncheckedIndexedAccess, TsConfig.FLAG_SCORES.noImplicitReturns,
    TsConfig.FLAG_SCORES.noFallthroughCasesInSwitch,
    TsConfig.FLAG_SCORES.exactOptionalPropertyTypes, TsConfig.FLAG_SCORES.noImplicitOverride.
  destruct (TsConfig.strict flags), (TsConfig.noUncheckedIndexedAccess flags),
    (TsConfig.noImplicitReturns flags), (TsConfig.noFallthroughCasesInSwitch flags),
    (TsConfig.exactOptionalPropertyTypes flags), (TsConfig.noImplicitOverride flags); lia.
Qed.

Lemma linting_score_bounds (linter : Linting.LinterType) (prettier : bool) :
  (0 <= Linting.calculateScore linter prettier <= 100)%Z.
Proof. destruct linter, prettier; cbn; lia. Qed.

Section Report.

Variable rnd : Q -> Q.
Hypothesis rnd_monotone : monotone rnd.
Hypothesis rnd_exact : exact_on_integers rnd.
Variable number_toString : Q -> string.
Variable analyzeDeps : string -> result DepsAnalysis.DepsAnalysis.
Variable analyzeAudit : string -> result Audit.AuditResult.
Variable analyzeCoverage : string -> result CoverageAnalysis.
Variable parseTsConfig : string -> option TsConfig.TsConfigJson.
Variable file_exists : string -> result bool.
Variable file_text : string -> result string.
Variable JSON_parse : string -> result Json.json.

Lemma freshness_score_range (total outdated : Z) :
  (0 <= outdated <= total)%Z ->
  is_score (score (calculateDependencyFreshnessScore rnd total outdated)).
Proof.
  intros H. unfold calculateDependencyFreshnessScore.
  destruct (Z.eqb_spec total 0) as [-> | Hne].
  - exists 100%Z. split; [reflexivity | lia].
  - apply is_score_Z. apply (percent_range rnd rnd_monotone rnd_exact); lia.
Qed.

(** X24: a quality assessment over a dependency analysis with no more
    outdated packages than packages, an audit summary without negative
    counts and a coverage percentage that is an integer from 0 to 100
    (or none), with the TypeScript and linting analyzers above,
    completes with an overall score from 0 to 100 and
    with the grade of that score: A from 90, B from 80, C from 70, D
    from 60, F below; its recommendations are those of its breakdown. *)
Theorem assessQuality_score_and_grade (cwd : string)
    (deps : DepsAnalysis.DepsAnalysis) (audit : Audit.AuditResult) (cov : CoverageAnalysis) :
  analyzeDeps cwd = Ok deps -> analyzeAudit cwd = Ok audit -> analyzeCoverage cwd = Ok cov ->
  (0 <= DepsAnalysis.outdated deps <= DepsAnalysis.total deps)%Z ->
  (0 <= Audit.critical (Audit.summary audit) /\ 0 <= Audit.high (Audit.summary audit)
   /\ 0 <= Audit.moderate (Audit.summary audit) /\ 0 <= Audit.low (Audit.summary audit))%Z ->
  (found cov = true -> forall p, percentage cov = Some p -> is_score p) ->
  exists r,
    assessQuality rnd number_toString analyzeDeps analyzeAudit analyzeCoverage
      (fun cwd => Ok (TsConfig.analyzeTsConfig parseTsConfig cwd))
      (fun cwd => Ok (Linting.analyzeLinting file_exists file_text JSON_parse cwd)) cwd
    = Ok r
    /\ (0 <= overall r <= 100)%Z
    /\ (grade r = A <-> (90 <= overall r)%Z)
    /\ (grade r = B <-> (80 <= overall r <= 89)%Z)
    /\ (grade r = C <-> (70 <= overall r <= 79)%Z)
    /\ (grade r = D <-> (60 <= overall r <= 69)%Z)
    /\ (grade r = F <-> (overall r <= 59)%Z)
    /\ Forall (fun m => is_score (score m)) (metrics (breakdown r))
    /\ recommendations r = generateRecommendations (breakdown r).
Proof.
  intros Hdeps Haudit Hcov Hfresh (Hc & Hh & Hm & Hl) Hpct.
  unfold assessQuality. rewrite Hdeps, Haudit, Hcov. cbn [mbind result_bind].
  eexists. split; [reflexivity |]. cbn [overall grade breakdown recommendations].
  match goal with |- context [calculateOverallScore rnd ?b] => set (bd := b) end.
  assert (Hscores : Forall (fun m => is_score (score m)) (metrics bd)).
  { repeat constructor; unfold bd; cbn [dependencyFreshness security testCoverage
                                         typescriptStrictness linting deadCode].
    - now apply freshness_score_range.
    - now apply security_score_range.
    - unfold calculateTestCoverageScore.
      destruct (found cov); [| apply (is_score_Z 0); lia].
      destruct (percentage cov) as [p |] eqn:Ep; [| apply (is_score_Z 0); lia].
      now apply (Hpct eq_refl).
    - unfold TsConfig.analyzeTsConfig.
      destruct (parseTsConfig cwd) as [config |]; cbn; [| apply (is_score_Z 0); lia].
      apply is_score_Z, tsconfig_score_bounds.
    - cbn. apply is_score_Z, linting_score_bounds.
    - destruct (TsConfig.noUnusedLocals _), (TsConfig.noUnusedParameters _);
        apply is_score_Z; cbn; lia. }
  assert (Hweights : Forall (fun m => 0 <= weight m <= 100)%Z (metrics bd)).
  { repeat constructor; unfold bd; cbn [dependencyFreshness security testCoverage
                                         typescriptStrictness linting deadCode].
    all: try (unfold calculateDependencyFreshnessScore; destruct (_ =? _)%Z;
              vm_compute; discriminate).
    all: try (unfold calculateSecurityScore; destruct (_ =? _)%Z;
              vm_compute; discriminate).
    all: try (unfold calculateTestCoverageScore; destruct (found cov), (percentage cov);
              vm_compute; discriminate).
    all: try (unfold calculateTypescriptStrictnessScore;
              destruct (TsConfig.ts_exists _); vm_compute; discriminate).
    all: vm_compute; discriminate. }
  assert (Hall : Forall (scored_within 0 100) (metrics bd)).
  { clear - Hscores Hweights. induction Hscores as [| m l Hm Hl IH]; [constructor |].
    inversion Hweights; subst. constructor; [split; assumption | now apply IH]. }
  assert (Hrange : (0 <= calculateOverallScore rnd bd <= 100)%Z).
  { rewrite (calculateOverallScore_totals rnd).
    apply (weighted_score_within rnd rnd_monotone rnd_exact); try lia; [cbn; lia | exact Hall |].
    apply Exists_cons_tl, Exists_cons_hd. unfold bd. cbn [security].
    unfold calculateSecurityScore. destruct (_ =? _)%Z; reflexivity. }
  split; [exact Hrange |].
  destruct (getGrade_thresholds (calculateOverallScore rnd bd)) as (HA & HB & HC & HD & HF).
  split; [exact HA |]. split; [exact HB |]. split; [exact HC |]. split; [exact HD |].
  split; [exact HF |]. split; [exact Hscores | reflexivity].
Qed.

End Report.

End QualityReport.

Lemma assessQuality_score_and_grade_witness :
  exists r,
    Quality.assessQuality Double.unrounded (fun _ => "85")
      (fun _ => Ok Fixtures.three_of_ten) (fun _ => Ok AuditRunner.no_vulnerabilities)
      (fun _ => Ok Fixtures.coverage_85)
      (fun cwd => Ok (TsConfig.analyzeTsConfig (fun _ => None) cwd))
      (fun cwd => Ok (Linting.analyzeLinting Fixtures.prettier_only Fixtures.unreadable
                        Fixtures.empty_object_only cwd)) "/repo" = Ok r
    /\ Quality.overall r = 66%Z /\ Quality.grade r = Quality.D.
Proof.
  destruct (assessQuality_score_and_grade Double.unrounded unrounded_monotone
              unrounded_exact_on_integers (fun _ => "85")
              (fun _ => Ok Fixtures.three_of_ten)
              (fun _ => Ok AuditRunner.no_vulnerabilities)
              (fun _ => Ok Fixtures.coverage_85) (fun _ => None)
              Fixtures.prettier_only Fixtures.unreadable Fixtures.empty_object_only
              "/repo" Fixtures.three_of_ten AuditRunner.no_vulnerabilities
              Fixtures.coverage_85 eq_refl eq_refl eq_refl)
    as (r & Hr & _ & _ & _ & _ & HD & _).
  - cbn. lia.
  - cbn. lia.
  - intros _ p [= <-]. exists 85%Z. split; [reflexivity | lia].
  - exists r. split; [exact Hr |].
    assert (Ho : Quality.overall r = 66%Z).
    { unfold Quality.assessQuality in Hr. cbn [mbind result_bind] in Hr.
      injection Hr as <-. reflexivity. }
    split; [exact Ho |]. apply HD. lia.
Defined.

(** ** Risk scorer: versions, levels and coverage *)

Section RiskFurther.
Import Double Risk.

(** X25: [cleanVersionString] removes a leading run of the range
    characters [^ ~ > = <] and nothing else: a version that does not
    start with one of them comes back from behind any such prefix, the
    result never starts with a range character, and cleaning twice is
    cleaning once. *)
Theorem cleanVersionString_strips_prefix (version : string) :
  (forall range rest,
     forallb is_range_prefix (list_ascii_of_string range) = true ->
     JS.stops is_range_prefix rest ->
     cleanVersionString (range +:+ rest) = rest)
  /\ JS.stops is_range_prefix (cleanVersionString version)
  /\ cleanVersionString (cleanVersionString version) = cleanVersionString version
  /\ (exists range, version = range +:+ cleanVersionString version
                    /\ forallb is_range_prefix (list_ascii_of_string range) = true).
Proof.
  assert (Hstops : forall s, JS.stops is_range_prefix (cleanVersionString s)).
  { intros s. unfold cleanVersionString.
    induction s as [| c s IH]; [exact I |]. cbn [JS.span].
    destruct (is_range_prefix c) eqn:E.
    - destruct (JS.span is_range_prefix s) as [a r]. exact IH.
    - exact E. }
  split; [| split; [| split]].
  - intros range rest Hrange Hrest. unfold cleanVersionString.
    now rewrite (span_exact _ _ _ Hrange Hrest).
  - apply Hstops.
  - unfold cleanVersionString at 1. now rewrite (span_stops _ _ (Hstops version)).
  - unfold cleanVersionString.
    destruct (JS.span is_range_prefix version) as [a r] eqn:E.
    destruct (span_sound _ _ _ _ E) as [Hs Ha]. now exists a.
Qed.

(** X26: an assessment of a major update is never rated low, only a
    major update can be rated critical, and a package that no file
    imports is rated by its update type alone: medium for a major
    update, low otherwise. *)
Theorem risk_level_and_update_type
    (rnd : Q -> Q) (getCurrentVersion getLatestVersion : string -> option string)
    (importingFiles : string -> list string) (hasTestFile : string -> bool)
    (packageName : string) (options : RiskAssessmentOptions) (r : RiskAssessment) :
  assessRisk rnd getCurrentVersion getLatestVersion importingFiles hasTestFile
             packageName options = Ok r ->
  (updateType r = Semver.major_update -> riskLevel r <> low)
  /\ (riskLevel r = critical -> updateType r = Semver.major_update)
  /\ (importingFiles packageName = [] ->
      riskScore r = score (scoreUpdateType (updateType r))
      /\ riskLevel r = match updateType r with
                       | Semver.major_update => medium
                       | _ => low
                       end).
Proof.
  unfold assessRisk. intros H.
  destruct (resolve_version (fromVersion options) _) as [fromV |]; [| discriminate].
  destruct (resolve_version (toVersion options) _) as [toV |]; [| discriminate].
  simpl in H. injection H as <-. cbn [riskScore riskLevel updateType].
  assert (Hf := scoreUsageScope_range (length (importingFiles packageName))).
  assert (Hc := scoreCriticalPaths_range (importingFiles packageName)).
  assert (Ht := scoreTestCoverage_range
                  (calculateTestCoverage rnd hasTestFile (importingFiles packageName))).
  set (f := scoreUsageScope _) in *. set (c := scoreCriticalPaths _) in *.
  set (t := scoreTestCoverage _) in *.
  split; [| split].
  - intros Hu. rewrite Hu. cbn [scoreUpdateType score].
    intros Hlow. apply getRiskLevel_thresholds in Hlow. lia.
  - intros Hcrit. apply getRiskLevel_thresholds in Hcrit.
    destruct (Semver.getUpdateType fromV toV); cbn [scoreUpdateType score] in Hcrit;
      [reflexivity | lia ..].
  - intros Hnone. subst f c t. rewrite Hnone.
    destruct (Semver.getUpdateType fromV toV); split; reflexivity.
Qed.

Section Coverage.

Variable rnd : Q -> Q.
Hypothesis rnd_monotone : monotone rnd.
Hypothesis rnd_exact : exact_on_integers rnd.
Variable hasTestFile : string -> bool.

(** X27: under rounding to the nearest double, the share of importing
    files with a test is an integer from 0 to 100; it is 100 when every
    file has a test (and when there is no file), and 0 when there are
    files and none has a test. *)
Theorem calculateTestCoverage_range (filePaths : list string) :
  (0 <= calculateTestCoverage rnd hasTestFile filePaths <= 100)%Z
  /\ (forallb hasTestFile filePaths = true ->
      calculateTestCoverage rnd hasTestFile filePaths = 100%Z)
  /\ (filePaths <> [] -> existsb hasTestFile filePaths = false ->
      calculateTestCoverage rnd hasTestFile filePaths = 0%Z).
Proof.
  unfold calculateTestCoverage.
  destruct filePaths as [| p rest]; [cbn; split; [lia | split; [reflexivity | congruence]] |].
  set (paths := p :: rest). cbn [length Nat.eqb].
  change (S (length rest)) with (length paths).
  assert (Hlen : (0 < Z.of_nat (length paths))%Z) by (cbn [paths length]; lia).
  assert (Hle := List.filter_length_le (fun p => hasTestFile p) paths).
  split; [| split].
  - apply (percent_range rnd rnd_monotone rnd_exact); lia.
  - intros Hall.
    assert (Hsame : List.filter (fun p => hasTestFile p) paths = paths).
    { clear - Hall. induction paths as [| q l IH]; [reflexivity |].
      cbn in Hall |- *. apply andb_true_iff in Hall as [-> Hl]. now rewrite IH. }
    rewrite Hsame.
    apply (percent_of_integers rnd rnd_monotone rnd_exact _ _ 1);
      [| vm_compute; discriminate | reflexivity | vm_compute; discriminate].
    apply Qdiv_mult_l with (y := inject_Z (Z.of_nat (length paths))) (x := 1%Q).
    intros H0. change 0%Q with (inject_Z 0) in H0. rewrite inject_Z_injective in H0. lia.
  - intros _ Hnone.
    assert (Hempty : List.filter (fun p => hasTestFile p) paths = []).
    { clear - Hnone. induction paths as [| q l IH]; [reflexivity |].
      cbn in Hnone |- *. apply orb_false_iff in Hnone as [-> Hl]. now apply IH. }
    rewrite Hempty. cbn [length].
    apply (percent_of_integers rnd rnd_monotone rnd_exact _ _ 0);
      [| vm_compute; discriminate | reflexivity | vm_compute; discriminate].
    unfold Qdiv. change (inject_Z (Z.of_nat 0)) with 0%Q. apply Qmult_0_l.
Qed.

End Coverage.

End RiskFurther.

Lemma cleanVersionString_strips_prefix_witness :
  Risk.cleanVersionString ">=1.2.3" = "1.2.3"
  /\ Risk.cleanVersionString "v1.2.3" = "v1.2.3".
Proof.
  split.
  - apply (proj1 (cleanVersionString_strips_prefix ">=1.2.3") ">=" "1.2.3"); reflexivity.
  - apply (proj1 (cleanVersionString_strips_prefix "v1.2.3") "" "v1.2.3"); reflexivity.
Defined.

Lemma risk_level_and_update_type_witness :
  exists r,
    Risk.assessRisk Double.unrounded (fun _ => Some "4.17.20") (fun _ => Some "5.0.0")
      (fun _ => []) (fun _ => false) "lodash"
      {| Risk.fromVersion := None; Risk.toVersion := None |} = Ok r
    /\ Risk.riskScore r = 40%Z /\ Risk.riskLevel r = Risk.medium.
Proof.
  eexists. split; [reflexivity |].
  match goal with
  | |- Risk.riskScore ?r = _ /\ _ =>
      destruct (risk_level_and_update_type Double.unrounded (fun _ => Some "4.17.20")
                  (fun _ => Some "5.0.0") (fun _ => []) (fun _ => false) "lodash"
                  {| Risk.fromVersion := None; Risk.toVersion := None |} r eq_refl)
        as (_ & _ & Hnone)
  end.
  destruct (Hnone eq_refl) as [Hscore Hlevel]. split; [exact Hscore | exact Hlevel].
Defined.

Lemma calculateTestCoverage_range_witness :
  Risk.calculateTestCoverage Double.unrounded (fun p => String.eqb p "src/a.ts")
    ["src/a.ts"] = 100%Z
  /\ Risk.calculateTestCoverage Double.unrounded (fun p => String.eqb p "src/a.ts")
       ["src/b.ts"; "src/c.ts"] = 0%Z.
Proof.
  split.
  - apply (calculateTestCoverage_range Double.unrounded unrounded_monotone
             unrounded_exact_on_integers (fun p => String.eqb p "src/a.ts") ["src/a.ts"]).
    reflexivity.
  - apply (calculateTestCoverage_range Double.unrounded unrounded_monotone
             unrounded_exact_on_integers (fun p => String.eqb p "src/a.ts")
             ["src/b.ts"; "src/c.ts"]); [discriminate | reflexivity].
Defined.

(** ** Import analyzer: package names *)

Section ImportNames.
Import Imports.

Lemma substring_all (s : string) : String.substring 0 (String.length s) s = s.
Proof. induction s as [| c s IH]; [reflexivity |]. cbn. now rewrite IH. Qed.

Lemma slice_app (a b : string) : slice (String.length a) (a +:+ b) = b.
Proof.
  unfold slice. rewrite append_length.
  replace (String.length a + String.length b - String.length a)
    with (String.length b) by lia.
  induction a as [| c a IH]; [apply substring_all |].
  rewrite append_cons. exact IH.
Qed.

Lemma append_longer (a b : string) : a = a +:+ b -> b = EmptyString.
Proof.
  intros H. apply (f_equal String.length) in H. rewrite append_length in H.
  destruct b; [reflexivity | cbn in H; lia].
Qed.

(** X28: a module specifier matches a package exactly when it is the
    package name or the name followed by [/] and a subpath;
    [extractSubpath] returns that subpath, and nothing for the bare
    name and for a specifier that does not match, so a name that only
    starts with the package name (as [lodash-es] for [lodash]) does not
    match. *)
Theorem matchesPackage_subpath (moduleSpecifier targetPackage : string) :
  (matchesPackage moduleSpecifier targetPackage = true
   <-> moduleSpecifier = targetPackage
       \/ exists subpath, moduleSpecifier = targetPackage +:+ "/" +:+ subpath)
  /\ (forall subpath,
        extractSubpath moduleSpecifier targetPackage = Some subpath
        <-> moduleSpecifier = targetPackage +:+ "/" +:+ subpath)
  /\ (extractSubpath moduleSpecifier targetPackage = None
      <-> moduleSpecifier = targetPackage
          \/ matchesPackage moduleSpecifier targetPackage = false).
Proof.
  unfold matchesPackage, extractSubpath.
  destruct (String.eqb_spec moduleSpecifier targetPackage) as [-> | Hne].
  - split; [| split].
    + split; auto.
    + intros subpath. split; [discriminate |]. intros H.
      apply append_longer in H. discriminate.
    + split; auto.
  - destruct (JS.startsWith (targetPackage +:+ "/") moduleSpecifier) eqn:E.
    + apply startsWith_iff in E as [rest ->]. rewrite append_assoc.
      split; [| split].
      * split; [intros _; right; now exists rest | reflexivity].
      * intros subpath.
        replace (String.length targetPackage + 1)
          with (String.length (targetPackage +:+ "/")) by (rewrite append_length; reflexivity).
        rewrite <- append_assoc, slice_app, append_assoc. split.
        -- now intros [= ->].
        -- intros H. f_equal.
           assert (Hlen : forall a b c : string, a +:+ b = a +:+ c -> b = c).
           { induction a as [| ch a IH]; intros b c Hbc; [exact Hbc |].
             rewrite !append_cons in Hbc. injection Hbc as Hbc. now apply IH. }
           apply (Hlen targetPackage) in H. now injection H.
      * split; [discriminate | intros [H | H]; [| discriminate]].
        exfalso. apply Hne. now rewrite append_assoc.
    + split; [| split].
      * split; [discriminate |]. intros [H | [subpath H]]; [contradiction |].
        assert (JS.startsWith (targetPackage +:+ "/") moduleSpecifier = true)
          by (apply startsWith_iff; exists subpath; now rewrite append_assoc).
        congruence.
      * intros subpath. split; [discriminate |]. intros H.
        assert (JS.startsWith (targetPackage +:+ "/") moduleSpecifier = true)
          by (apply startsWith_iff; exists subpath; now rewrite append_assoc).
        congruence.
      * split; auto.
Qed.

End ImportNames.

Lemma matchesPackage_subpath_witness :
  Imports.matchesPackage "lodash/debounce" "lodash" = true
  /\ Imports.extractSubpath "lodash/debounce" "lodash" = Some "debounce"
  /\ Imports.matchesPackage "lodash-es" "lodash" = false.
Proof.
  split; [| split].
  - apply (matchesPackage_subpath "lodash/debounce" "lodash"). right. now exists "debounce".
  - apply (matchesPackage_subpath "lodash/debounce" "lodash"). reflexivity.
  - reflexivity.
Defined.

(** ** Outdated-output normaliser: the rows of a yarn table *)

Section YarnRows.
Import Json Deps.

Variable JSON_parse : string -> result json.

Lemma yarn_rows_until (packageIdx currentIdx latestIdx typeIdx : Z)
    (before : list json) (bad : json) (after : list json) :
  yarn_row packageIdx currentIdx latestIdx typeIdx bad = Throw ->
  forall packages,
    yarn_rows packageIdx currentIdx latestIdx typeIdx (before ++ bad :: after) packages
    = yarn_rows packageIdx currentIdx latestIdx typeIdx before packages.
Proof.
  intros Hbad. induction before as [| row rest IH]; intros packages.
  - cbn [app yarn_rows]. now rewrite Hbad.
  - cbn [app yarn_rows].
    destruct (yarn_row packageIdx currentIdx latestIdx typeIdx row) as [[pkg |] |];
      [apply IH | apply IH | reflexivity].
Qed.

(** X29: unlike the npm and pnpm parsers, the yarn parser keeps what it
    has read when a row raises: of a table whose rows are [before], a
    row on which reading raises (the row [null], or a row whose version
    cells are not strings) and [after], exactly the packages of
    [before] are added to the list, the rows of [after] are not read,
    and the lines that follow are still read. *)
Theorem yarn_table_keeps_rows_before_failure
    (line : string) (parsed : json) (packageIdx currentIdx latestIdx typeIdx : Z)
    (before : list json) (bad : json) (after : list json)
    (packages : list OutdatedPackage) (lines : list string) :
  JSON_parse line = Ok parsed ->
  get (Some parsed) "type" = Ok (Some (JStr "table")) ->
  yarn_table parsed
  = Ok (Some (packageIdx, currentIdx, latestIdx, typeIdx, (before ++ bad :: after)%list)) ->
  yarn_row packageIdx currentIdx latestIdx typeIdx bad = Throw ->
  yarn_line JSON_parse line packages
  = yarn_rows packageIdx currentIdx latestIdx typeIdx before packages
  /\ fold_left (fun packages line => yarn_line JSON_parse line packages) (line :: lines) packages
     = fold_left (fun packages line => yarn_line JSON_parse line packages) lines
         (yarn_rows packageIdx currentIdx latestIdx typeIdx before packages)
  /\ yarn_row packageIdx currentIdx latestIdx typeIdx JNull = Throw.
Proof.
  intros Hparse Htype Htable Hbad.
  assert (Hline : yarn_line JSON_parse line packages
                  = yarn_rows packageIdx currentIdx latestIdx typeIdx before packages).
  { unfold yarn_line. rewrite Hparse, Htype. cbn [is_string]. rewrite String.eqb_refl.
    rewrite Htable. now apply yarn_rows_until. }
  split; [exact Hline |]. split; [cbn [fold_left]; now rewrite Hline | reflexivity].
Qed.

End YarnRows.

Lemma yarn_table_keeps_rows_before_failure_witness :
  map Deps.name
    (Deps.yarn_line (Fixtures.reads "table" Fixtures.yarn_table_with_null) "table" [])
  = [Json.JStr "lodash"].
Proof.
  destruct (yarn_table_keeps_rows_before_failure
              (Fixtures.reads "table" Fixtures.yarn_table_with_null) "table"
              Fixtures.yarn_table_with_null 0 1 3 4
              [Json.JArr [Json.JStr "lodash"; Json.JStr "4.17.0"; Json.JStr "4.17.0";
                          Json.JStr "4.17.21"; Json.JStr "dependencies";
                          Json.JStr "https://lodash.com/"]]
              Json.JNull
              [Json.JArr [Json.JStr "chalk"; Json.JStr "4.1.2"; Json.JStr "4.1.2";
                          Json.JStr "5.3.0"; Json.JStr "devDependencies";
                          Json.JStr "https://chalk.js"]]
              [] [] eq_refl eq_refl eq_refl eq_refl) as (Hline & _).
  rewrite Hline. reflexivity.
Defined.

(** ** Risk scorer: more importing files *)

Section RiskMonotone.
Import Risk.

(** X30: importing a package from more files never lowers the two
    factors that depend on the files alone: the usage-scope score and
    the critical-path score of a list of files are at most those of
    the list with further files added, and a critical path found among
    the files stays found. *)
Theorem file_factors_monotone (filePaths more : list string) :
  (score (scoreUsageScope (length filePaths))
   <= score (scoreUsageScope (length (filePaths ++ more))))%Z
  /\ (score (scoreCriticalPaths filePaths)
      <= score (scoreCriticalPaths (filePaths ++ more)))%Z
  /\ (hasApiRoutes (detectCriticalPaths filePaths) = true ->
      hasApiRoutes (detectCriticalPaths (filePaths ++ more)) = true)
  /\ (hasMiddleware (detectCriticalPaths filePaths) = true ->
      hasMiddleware (detectCriticalPaths (filePaths ++ more)) = true)
  /\ (hasAuth (detectCriticalPaths filePaths) = true ->
      hasAuth (detectCriticalPaths (filePaths ++ more)) = true).
Proof.
  split; [| split].
  - rewrite length_app. unfold scoreUsageScope.
    generalize (length filePaths) (length more). intros n m.
    destruct (Nat.eqb_spec n 0), (Nat.eqb_spec (n + m) 0),
      (Nat.leb_spec n 5), (Nat.leb_spec (n + m) 5),
      (Nat.leb_spec n 20), (Nat.leb_spec (n + m) 20); cbn [score]; lia.
  - unfold scoreCriticalPaths, detectCriticalPaths.
    cbn [hasApiRoutes hasMiddleware hasAuth]. rewrite !existsb_app.
    set (api := fun path => in_directory "api" path || in_directory "routes" path).
    destruct (existsb api filePaths), (existsb (mentions "middleware") filePaths),
      (existsb (mentions "auth") filePaths), (existsb api more),
      (existsb (mentions "middleware") more), (existsb (mentions "auth") more);
      cbn; lia.
  - unfold detectCriticalPaths. cbn [hasApiRoutes hasMiddleware hasAuth].
    rewrite !existsb_app. repeat split; intros ->; reflexivity.
Qed.

End RiskMonotone.
